(** * Recommendation engine of the hyper-personalised e-commerce platform

    A shallow embedding of the class [RecommendationEngine] (lines 571-1104
    of [server/services/ChatbotService.js]) and of the parts of the [User]
    and [Product] models it reads ([server/models]), followed by the
    properties of the specification that are stated about it.  Further
    properties cover the write path of the engine ([trackUserInteraction]
    and the model methods it calls) and the conversation store of the
    class [ChatbotService] of the same file.

    Modelling conventions.
    - A JavaScript number is a real number ([R]) wherever the code can only
      produce finite numbers, and a [num] (a real or [NaN]) wherever the code
      can meet [undefined] or a guarded division: matrix cells, durations,
      cosine similarity.  The score of a recommendation candidate is a real
      number.  Binary64 rounding and overflow are not modelled.
    - A field that the source reads through [?.] or [|| default], or that
      the schema leaves optional, is an [option].
    - A JavaScript [Map] is an association list in insertion order, which is
      the order [Map.prototype.values] iterates in.
    - [Array.prototype.sort] is the stable sort of ECMAScript 2019.
    - [new Date()] and [Math.random()] read the environment: a function is
      given the stream of readings it will obtain, indexed by the number of
      readings made so far.
    - A rejected promise or a thrown error is [Throw]; [try]/[catch] is
      [try_catch].
    - The document store (Mongoose) is the record [Store] of the queries the
      engine makes; the tensor library is outside the model, so that
      [getContentBasedRecommendations] is an argument of the pipeline.
    - The documents that tracking writes are the record [Documents] of
      operations over a database state; the language libraries and the
      handlers behind [processMessage] are variables of a section. *)

From Stdlib Require Import Reals Lra Lia List String Ascii Bool Arith.
From Stdlib Require Import Permutation Sorted.
Import ListNotations.

Local Open Scope string_scope.
Local Open Scope list_scope.
Local Open Scope R_scope.

(** ** JavaScript values *)

Module JS.

(** A number that may be [NaN]. *)
Inductive num : Type :=
| NaN
| Fin (x : R).

(** [ToNumber] of a possibly [undefined] number. *)
Definition of_option (o : option R) : num :=
  match o with
  | Some x => Fin x
  | None => NaN
  end.

(** [o || d] for a possibly [undefined] number: [undefined] and [0] are
    both falsy. *)
Definition or_num (o : option R) (d : R) : R :=
  match o with
  | Some x => if Req_dec_T x 0 then d else x
  | None => d
  end.

(** [o || d] for a possibly [undefined] object or array. *)
Definition or_else {A : Type} (o : option A) (d : A) : A :=
  match o with
  | Some x => x
  | None => d
  end.

Definition add (a b : num) : num :=
  match a, b with
  | Fin x, Fin y => Fin (x + y)
  | _, _ => NaN
  end.

Definition mul (a b : num) : num :=
  match a, b with
  | Fin x, Fin y => Fin (x * y)
  | _, _ => NaN
  end.

(** Division.  [0 / 0] is [NaN]; [x / 0] for another [x] is an infinity,
    which the model does not tell from [NaN]: every division of the modelled
    code has a non-zero constant divisor or is guarded (see
    [cosineSimilarity]). *)
Definition div (a b : num) : num :=
  match a, b with
  | Fin x, Fin y => if Req_dec_T y 0 then NaN else Fin (x / y)
  | _, _ => NaN
  end.

(** [Math.sqrt]. *)
Definition Math_sqrt (a : num) : num :=
  match a with
  | Fin x => if Rlt_dec x 0 then NaN else Fin (sqrt x)
  | NaN => NaN
  end.

(** [Math.min] and [Math.max] of two arguments: [NaN] if either is. *)
Definition Math_min (a b : num) : num :=
  match a, b with
  | Fin x, Fin y => Fin (Rmin x y)
  | _, _ => NaN
  end.

Definition Math_max (a b : num) : num :=
  match a, b with
  | Fin x, Fin y => Fin (Rmax x y)
  | _, _ => NaN
  end.

(** [a === b] on numbers: [NaN] equals nothing. *)
Definition strict_eq (a b : num) : bool :=
  match a, b with
  | Fin x, Fin y => if Req_dec_T x y then true else false
  | _, _ => false
  end.

(** Comparisons on finite numbers. *)
Definition Rgtb (x y : R) : bool := if Rgt_dec x y then true else false.
Definition Rgeb (x y : R) : bool := if Rge_dec x y then true else false.
Definition Rleb (x y : R) : bool := if Rle_dec x y then true else false.

(** *** Exceptions *)

Inductive exn : Type :=
| Error (message : string)
| TypeError
| RangeError
| StoreError.

Inductive Result (A : Type) : Type :=
| Ok (a : A)
| Throw (e : exn).
Arguments Ok {A} a.
Arguments Throw {A} e.

Definition bind {A B : Type} (c : Result A) (k : A -> Result B) : Result B :=
  match c with
  | Ok a => k a
  | Throw e => Throw e
  end.

(** [try { body } catch (error) { handler }] *)
Definition try_catch {A : Type} (body : Result A) (handler : exn -> Result A)
  : Result A :=
  match body with
  | Ok a => Ok a
  | Throw e => handler e
  end.

(** [array.map(f)] where [f] may throw. *)
Fixpoint mapM {A B : Type} (f : A -> Result B) (l : list A) : Result (list B) :=
  match l with
  | [] => Ok []
  | a :: t =>
      bind (f a) (fun b => bind (mapM f t) (fun bs => Ok (b :: bs)))
  end.

(** [for (const a of array) { acc = f(acc, a) }] and
    [for (let i = 0; i < array.length; i++) { acc = f(acc, array[i], i) }]
    where [f] may throw: the first error ends the loop. *)
Fixpoint forOf {A B : Type} (f : B -> A -> Result B) (l : list A) (acc : B)
  : Result B :=
  match l with
  | [] => Ok acc
  | a :: t => bind (f acc a) (forOf f t)
  end.

Fixpoint forIndex {A B : Type} (f : B -> A -> nat -> Result B) (l : list A)
  (i : nat) (acc : B) : Result B :=
  match l with
  | [] => Ok acc
  | a :: t => bind (f acc a i) (forIndex f t (S i))
  end.

(** *** Arrays *)

(** [array.indexOf(x)] on an array of strings; [None] stands for [-1]. *)
Fixpoint indexOf_from (l : list string) (x : string) (i : nat) : option nat :=
  match l with
  | [] => None
  | y :: t => if String.eqb y x then Some i else indexOf_from t x (S i)
  end.

Definition indexOf (l : list string) (x : string) : option nat :=
  indexOf_from l x 0.

(** [array.includes(x)] on an array of strings. *)
Definition includes (l : list string) (x : string) : bool :=
  existsb (String.eqb x) l.

(** [array[i]] on an array of numbers: [undefined], hence [NaN] in
    arithmetic and false in comparisons, out of range. *)
Definition at_num (v : list num) (i : nat) : num :=
  nth i v NaN.

(** [array[i] = x]; the modelled code only writes in range. *)
Fixpoint set_nth {A : Type} (l : list A) (i : nat) (x : A) : list A :=
  match l, i with
  | [], _ => []
  | _ :: t, O => x :: t
  | y :: t, S i' => y :: set_nth t i' x
  end.

(** [array.reduce((acc, a, i) => f(acc, a, i), init)], the index starting
    at [i]. *)
Fixpoint reduce_from {A B : Type} (f : B -> A -> nat -> B) (l : list A)
  (i : nat) (acc : B) : B :=
  match l with
  | [] => acc
  | a :: t => reduce_from f t (S i) (f acc a i)
  end.

Definition reduce {A B : Type} (f : B -> A -> nat -> B) (init : B)
  (l : list A) : B :=
  reduce_from f l 0 init.

(** [array.slice(0, n)] for a count [n]. *)
Definition slice0 {A : Type} (n : nat) (l : list A) : list A := firstn n l.

(** [array.sort((a, b) => key(b) - key(a))]: descending, stable.  [x] is
    inserted in front of a sorted suffix that followed it in the array, so
    it stays in front of the elements of equal key. *)
Fixpoint insert_desc {A : Type} (key : A -> R) (x : A) (l : list A) : list A :=
  match l with
  | [] => [x]
  | y :: t =>
      if Rgt_dec (key y) (key x) then y :: insert_desc key x t
      else x :: y :: t
  end.

Definition sort_desc {A : Type} (key : A -> R) (l : list A) : list A :=
  fold_right (insert_desc key) [] l.

(** *** Map with string keys *)

Definition Map (V : Type) : Type := list (string * V).

Fixpoint Map_get {V : Type} (m : Map V) (k : string) : option V :=
  match m with
  | [] => None
  | (k', v) :: t => if String.eqb k' k then Some v else Map_get t k
  end.

Definition Map_has {V : Type} (m : Map V) (k : string) : bool :=
  match Map_get m k with
  | Some _ => true
  | None => false
  end.

(** [map.set(k, v)]: an existing key keeps its place. *)
Fixpoint Map_set {V : Type} (m : Map V) (k : string) (v : V) : Map V :=
  match m with
  | [] => [(k, v)]
  | (k', v') :: t =>
      if String.eqb k' k then (k', v) :: t else (k', v') :: Map_set t k v
  end.

Definition Map_values {V : Type} (m : Map V) : list V := map snd m.
Definition Map_keys {V : Type} (m : Map V) : list string := map fst m.

(** [new Map(entries)] *)
Definition Map_of {V : Type} (entries : list (string * V)) : Map V :=
  fold_left (fun m kv => Map_set m (fst kv) (snd kv)) entries [].

End JS.

Import JS.

Notation "x <- c ;; k" := (bind c (fun x => k))
  (at level 61, c at next level, right associativity).

(** ** Data model: the fields of [User] and [Product] the engine reads *)

(** An entry of [behaviorData.browsingHistory].  The schema gives
    [timestamp] a default and leaves [productId] and [duration] optional. *)
Record Interaction : Type := {
  i_productId : option string;
  i_timestamp : R;          (* milliseconds since the epoch *)
  i_duration : option R     (* seconds spent viewing *)
}.

Record PriceRange : Type := {
  pr_min : R;
  pr_max : R
}.

(** [categories] holds what [toString()] gives for each preferred
    category: the id of the category it refers to. *)
Record Preferences : Type := {
  categories : option (list string);
  brands : option (list string);
  priceRange : option PriceRange
}.

Record Click : Type := { clicks : R }.

Record ClickPatterns : Type := {
  timeOfDay : option (list Click);
  dayOfWeek : option (list Click)
}.

Record BehaviorData : Type := {
  totalPurchases : option R;
  totalSpent : option R;
  averageOrderValue : option R;
  browsingHistory : option (list Interaction);
  clickPatterns : option ClickPatterns
}.

Record PersonalizationScores : Type := {
  fashionStyle : option R;
  priceConsciousness : option R;
  brandLoyalty : option R;
  trendFollower : option R;
  qualityFocused : option R;
  impulseBuyer : option R
}.

(** An entry of [recentlyViewed]; [product] is not required by the schema. *)
Record Viewed : Type := { v_product : option string }.

Record User : Type := {
  u_id : string;
  preferences : option Preferences;
  behaviorData : option BehaviorData;
  personalizationScores : option PersonalizationScores;
  recentlyViewed : list Viewed
}.

Record Attributes : Type := {
  colors : option (list string);
  sizes : option (list string);
  materials : option (list string);
  season : option (list string)
}.

Record Analytics : Type := {
  views : option R;
  averageRating : option R
}.

(** [category] is the [_id] of the populated category document, or [None]
    when [populate] found no such document. *)
Record Product : Type := {
  p_id : string;
  name : string;
  description : string;
  price : R;
  category : option string;
  brand : string;
  attributes : option Attributes;
  analytics : option Analytics
}.

(** The document store, as the engine queries it.  Each query may reject. *)
Record Store : Type := {
  (* User.find({ isActive: true }) *)
  User_find_active : Result (list User);
  (* User.findById(userId) *)
  User_findById : string -> Result (option User);
  (* Product.find({ status: 'active' }) *)
  Product_find_active : Result (list Product);
  (* Product.find({ status: 'active' })
       .sort({ 'analytics.trendingScore': -1, 'analytics.views': -1 })
       .limit(limit) *)
  Product_find_trending : nat -> Result (list Product);
  (* Product.find({ status: 'active', featured: true })
       .sort({ 'analytics.views': -1 }).limit(limit) *)
  Product_find_featured : nat -> Result (list Product);
  (* Product.find({ _id: { $in: ids } }).populate('category') *)
  Product_find_in : list string -> Result (list Product)
}.

(** ** The engine *)

(** [this.userItemMatrix]; [matrix] is the row-major content of the
    [ml-matrix] object. *)
Record UserItemMatrix : Type := {
  matrix : list (list num);
  userIds : list string;
  productIds : list string
}.

(** *** Utility functions *)

(** [calculateRecencyScore(timestamp)] (line 996); [now] is what
    [new Date()] reads. *)
Definition calculateRecencyScore (now timestamp : R) : R :=
  let daysDiff := (now - timestamp) / (1000 * 60 * 60 * 24) in
  exp (- daysDiff / 30).

(** *** Interaction matrix *)

Definition get2 (m : list (list num)) (i j : nat) : num :=
  at_num (nth i m []) j.

Definition set2 (m : list (list num)) (i j : nat) (x : num) : list (list num) :=
  set_nth m i (set_nth (nth i m []) j x).

(** The body of [for (const interaction of browsingHistory)] for the user
    of row [i]; [tick] counts the calls of [calculateRecencyScore].
    [interaction.productId.toString()] is a [TypeError] when the entry has
    no [productId]. *)
Definition scoreInteraction (clock : nat -> R) (productIds : list string)
  (i : nat) (st : list (list num) * nat) (interaction : Interaction)
  : Result (list (list num) * nat) :=
  let (matrix, tick) := st in
  match i_productId interaction with
  | None => Throw TypeError
  | Some productId =>
      match indexOf productIds productId with
      | None => Ok (matrix, tick)
      | Some productIndex =>
          let recencyScore :=
            calculateRecencyScore (clock tick) (i_timestamp interaction) in
          let durationScore :=
            div (Math_min (div (of_option (i_duration interaction)) (Fin 60))
                   (Fin 10)) (Fin 10) in
          Ok (set2 matrix i productIndex
                (Math_max (get2 matrix i productIndex)
                   (add (mul (Fin recencyScore) (Fin 0.7))
                        (mul durationScore (Fin 0.3)))),
              S tick)
      end
  end.

(** [user.behaviorData?.browsingHistory || []] *)
Definition historyOf (user : User) : list Interaction :=
  match behaviorData user with
  | Some b => or_else (browsingHistory b) []
  | None => []
  end.

(** The body of [for (let i = 0; i < users.length; i++)]. *)
Definition usersLoop (clock : nat -> R) (productIds : list string)
  (st : list (list num) * nat) (user : User) (i : nat)
  : Result (list (list num) * nat) :=
  forOf (scoreInteraction clock productIds i) (historyOf user) st.

(** The matrix of zeros and the two nested loops of [loadUserItemMatrix]. *)
Definition interactionMatrix (clock : nat -> R) (users : list User)
  (productIds : list string) : Result (list (list num)) :=
  let matrix :=
    repeat (repeat (Fin 0) (List.length productIds)) (List.length users) in
  st <- forIndex (usersLoop clock productIds) users O (matrix, O) ;;
  Ok (fst st).

(** The state of a [RecommendationEngine]; an embedding is the content of
    its one-dimensional tensor. *)
Record Engine : Type := {
  userItemMatrix : option UserItemMatrix;
  productEmbeddings : Map (list R);
  userEmbeddings : Map (list R);
  isInitialized : bool
}.

(** [loadUserItemMatrix()] (line 597): the new state of the engine.
    [new Matrix] keeps the rows, which all have the length of [productIds];
    an error, of a query or of the loops, is logged by the [catch] and
    leaves the state as it was. *)
Definition loadUserItemMatrix (store : Store) (clock : nat -> R)
  (this : Engine) : Result Engine :=
  try_catch
    (users <- User_find_active store ;;
     products <- Product_find_active store ;;
     let userIds := map u_id users in
     let productIds := map p_id products in
     matrix <- interactionMatrix clock users productIds ;;
     Ok {| userItemMatrix :=
             Some {| matrix := matrix;
                     userIds := userIds;
                     productIds := productIds |};
           productEmbeddings := productEmbeddings this;
           userEmbeddings := userEmbeddings this;
           isInitialized := isInitialized this |})
    (fun _ => Ok this).

(** [cosineSimilarity(vectorA, vectorB)] (line 1002) *)
Definition cosineSimilarity (vectorA vectorB : list num) : num :=
  let dotProduct :=
    reduce (fun sum a i => add sum (mul a (at_num vectorB i))) (Fin 0) vectorA in
  let magnitudeA :=
    Math_sqrt (reduce (fun sum a _ => add sum (mul a a)) (Fin 0) vectorA) in
  let magnitudeB :=
    Math_sqrt (reduce (fun sum b _ => add sum (mul b b)) (Fin 0) vectorB) in
  if strict_eq magnitudeA (Fin 0) || strict_eq magnitudeB (Fin 0) then Fin 0
  else div dotProduct (mul magnitudeA magnitudeB).

(** [getCurrentSeason()] (line 1074); [month] is what
    [new Date().getMonth()] reads, January being 0. *)
Definition getCurrentSeason (month : nat) : string :=
  if (2 <=? month)%nat && (month <=? 4)%nat then "spring"
  else if (5 <=? month)%nat && (month <=? 7)%nat then "summer"
  else if (8 <=? month)%nat && (month <=? 10)%nat then "fall"
  else "winter".

(** *** Recommendation candidates *)

Inductive Source : Type :=
| collaborative
| content_based
| trending
| fallback.

(** What a generator returns: [{ productId, score, type }]. *)
Record Rec : Type := {
  productId : string;
  score : R;
  type : Source
}.

(** What the ranker returns: [{ productId, score, sources }], with [boost]
    once [applyPersonalizationBoost] found the product. *)
Record Ranked : Type := {
  r_productId : string;
  r_score : R;
  sources : list Source;
  boost : option R
}.

(** *** Collaborative filter *)

(** [matrix.getRow(i)]: a [RangeError] out of range. *)
Definition getRow (m : list (list num)) (i : nat) : Result (list num) :=
  match nth_error m i with
  | Some r => Ok r
  | None => Throw RangeError
  end.

(** [matrix.getRow(i)] where the loop keeps [i] below [matrix.rows]. *)
Definition rowOf (m : list (list num)) (i : nat) : list num := nth i m [].

Record Similar : Type := {
  userIndex : nat;
  similarity : R
}.

(** The body of [for (let i = 0; i < matrix.rows; i++)].  [similarity > 0.1]
    is false for [NaN], so a similarity that is kept is a real number. *)
Definition similarityStep (m : list (list num)) (userIndex : nat)
  (userVector : list num) (similarities : list Similar) (i : nat)
  : list Similar :=
  if Nat.eqb i userIndex then similarities
  else
    let otherVector := rowOf m i in
    match cosineSimilarity userVector otherVector with
    | Fin similarity =>
        if Rgtb similarity 0.1
        then similarities ++ [ {| userIndex := i; similarity := similarity |} ]
        else similarities
    | NaN => similarities
    end.

(** The body of the loop over [productIndex].  [similarUserVector[i] > 0]
    is false for [NaN], so a cell that contributes is a real number. *)
Definition contributionStep (productIds : list string)
  (userVector similarUserVector : list num) (similarity : R)
  (recommendations : Map R) (productIndex : nat) : Map R :=
  match at_num similarUserVector productIndex with
  | Fin cell =>
      if strict_eq (at_num userVector productIndex) (Fin 0) && Rgtb cell 0
      then
        let productId := nth productIndex productIds "undefined" in
        let score := cell * similarity in
        match Map_get recommendations productId with
        | Some s => Map_set recommendations productId (s + score)
        | None => Map_set recommendations productId score
        end
      else recommendations
  | NaN => recommendations
  end.

(** The body of [for (const { userIndex, similarity } of topSimilarUsers)]. *)
Definition neighbourStep (m : list (list num)) (productIds : list string)
  (userVector : list num) (recommendations : Map R) (s : Similar) : Map R :=
  let similarUserVector := rowOf m (userIndex s) in
  fold_left
    (contributionStep productIds userVector similarUserVector (similarity s))
    (seq 0 (List.length similarUserVector)) recommendations.

(** [getCollaborativeRecommendations(userId, limit)] (line 792) *)
Definition getCollaborativeRecommendations (this : Engine) (userId : string)
  (limit : nat) : Result (list Rec) :=
  match userItemMatrix this with
  | None => Ok []
  | Some uim =>
      match indexOf (userIds uim) userId with
      | None => Ok []
      | Some userIndex =>
          userVector <- getRow (matrix uim) userIndex ;;
          let similarities :=
            fold_left (similarityStep (matrix uim) userIndex userVector)
              (seq 0 (List.length (matrix uim))) [] in
          let similarities := sort_desc similarity similarities in
          let topSimilarUsers := slice0 10 similarities in
          let recommendations :=
            fold_left (neighbourStep (matrix uim) (productIds uim) userVector)
              topSimilarUsers [] in
          Ok (slice0 limit
                (sort_desc score
                   (map (fun entry =>
                           {| productId := fst entry;
                              score := snd entry;
                              type := collaborative |})
                      recommendations)))
      end
  end.

(** *** Trending and fallback generators *)

(** [getTrendingRecommendations(limit)] (line 865) *)
Definition getTrendingRecommendations (store : Store) (limit : nat)
  : Result (list Rec) :=
  try_catch
    (products <- Product_find_trending store limit ;;
     Ok (map (fun product =>
                {| productId := p_id product; score := 0.8; type := trending |})
           products))
    (fun _ => Ok []).

(** [getFallbackRecommendations(limit)] (line 1082) *)
Definition getFallbackRecommendations (store : Store) (limit : nat)
  : Result (list Rec) :=
  try_catch
    (products <- Product_find_featured store limit ;;
     Ok (map (fun product =>
                {| productId := p_id product; score := 0.5; type := fallback |})
           products))
    (fun _ => Ok []).

(** *** Hybrid ranker *)

(** An element of [sources]: [{ recommendations, weight }]. *)
Record Weighted : Type := {
  recommendations : list Rec;
  weight : R
}.

(** The body of [for (const rec of recommendations)]. *)
Definition combineStep (weight : R) (combined : Map Ranked) (rec : Rec)
  : Map Ranked :=
  let weightedScore := score rec * weight in
  match Map_get combined (productId rec) with
  | Some existing =>
      Map_set combined (productId rec)
        {| r_productId := r_productId existing;
           r_score := r_score existing + weightedScore;
           sources := sources existing ++ [type rec];
           boost := boost existing |}
  | None =>
      Map_set combined (productId rec)
        {| r_productId := productId rec;
           r_score := weightedScore;
           sources := [type rec];
           boost := None |}
  end.

(** [combineRecommendations(sources)] (line 884) *)
Definition combineRecommendations (sources : list Weighted) : list Ranked :=
  let combined :=
    fold_left
      (fun combined source =>
         fold_left (combineStep (weight source)) (recommendations source)
           combined)
      sources [] in
  sort_desc r_score (Map_values combined).

(** [array.some(f)] where [f] may throw: the elements after the first hit
    are not visited. *)
Fixpoint someM {A : Type} (f : A -> Result bool) (l : list A) : Result bool :=
  match l with
  | [] => Ok false
  | a :: t => b <- f a ;; if b then Ok true else someM f t
  end.

(** The boost of one candidate whose product was found.  Reading
    [product.category._id] of a product without category is a [TypeError]. *)
Definition boostOf (user : User) (product : Product) (month : nat) : Result R :=
  let boost := 1 in
  let preferredCategories :=
    match preferences user with
    | Some prefs => or_else (categories prefs) []
    | None => []
    end in
  inCategories <-
    someM (fun cat =>
             match category product with
             | Some c => Ok (String.eqb cat c)
             | None => Throw TypeError
             end)
      preferredCategories ;;
  let boost := if inCategories then boost * 1.3 else boost in
  let priceRange :=
    match preferences user with
    | Some prefs => or_else (priceRange prefs) {| pr_min := 0; pr_max := 10000 |}
    | None => {| pr_min := 0; pr_max := 10000 |}
    end in
  let boost :=
    if Rgeb (price product) (pr_min priceRange)
       && Rleb (price product) (pr_max priceRange)
    then boost * 1.2 else boost in
  let preferredBrands :=
    match preferences user with
    | Some prefs => or_else (brands prefs) []
    | None => []
    end in
  let boost :=
    if includes preferredBrands (brand product) then boost * 1.4 else boost in
  let currentSeason := getCurrentSeason month in
  let inSeason :=
    match attributes product with
    | Some attrs =>
        match season attrs with
        | Some seasons => includes seasons currentSeason
        | None => false
        end
    | None => false
    end in
  let boost := if inSeason then boost * 1.1 else boost in
  Ok boost.

(** [recommendations.map(rec => ...)] of [applyPersonalizationBoost];
    [tick] counts the calls of [getCurrentSeason], each of which reads the
    month anew. *)
Fixpoint boostAll (months : nat -> nat) (productMap : Map Product)
  (user : User) (recs : list Ranked) (tick : nat) : Result (list Ranked) :=
  match recs with
  | [] => Ok []
  | rec :: rest =>
      match Map_get productMap (r_productId rec) with
      | None =>
          rest' <- boostAll months productMap user rest tick ;;
          Ok (rec :: rest')
      | Some product =>
          boost <- boostOf user product (months tick) ;;
          rest' <- boostAll months productMap user rest (S tick) ;;
          Ok ({| r_productId := r_productId rec;
                 r_score := r_score rec * boost;
                 sources := sources rec;
                 boost := Some boost |} :: rest')
      end
  end.

(** [applyPersonalizationBoost(recommendations, user)] (line 910) *)
Definition applyPersonalizationBoost (store : Store) (months : nat -> nat)
  (recs : list Ranked) (user : User) : Result (list Ranked) :=
  products <- Product_find_in store (map r_productId recs) ;;
  let productMap := Map_of (map (fun p => (p_id p, p)) products) in
  boosted <- boostAll months productMap user recs 0 ;;
  Ok (sort_desc r_score boosted).

(** *** Feature encoders *)

(** Text as an array of characters; the model is of ASCII text. *)
Definition toLowerCase (c : ascii) : ascii :=
  let n := nat_of_ascii c in
  if (65 <=? n)%nat && (n <=? 90)%nat then ascii_of_nat (n + 32) else c.

(** [\s] *)
Definition isSpace (c : ascii) : bool :=
  let n := nat_of_ascii c in
  (n =? 32)%nat || ((9 <=? n)%nat && (n <=? 13)%nat).

(** [\w] *)
Definition isWordChar (c : ascii) : bool :=
  let n := nat_of_ascii c in
  ((48 <=? n)%nat && (n <=? 57)%nat) || ((65 <=? n)%nat && (n <=? 90)%nat)
  || ((97 <=? n)%nat && (n <=? 122)%nat) || (n =? 95)%nat.

(** [text.split(/\s+/)]: [cur] is the word being read, in reverse, and
    [inSpace] tells that the previous character was a separator. *)
Fixpoint splitSpaces (s : list ascii) (cur : list ascii) (inSpace : bool)
  : list (list ascii) :=
  match s with
  | [] => [rev cur]
  | c :: t =>
      if isSpace c
      then if inSpace then splitSpaces t cur true
           else rev cur :: splitSpaces t [] true
      else splitSpaces t (c :: cur) false
  end.

(** [\b] between two neighbouring characters, [None] being an end of the
    text. *)
Definition wordBoundary (prev next : option ascii) : bool :=
  let w o := match o with Some c => isWordChar c | None => false end in
  xorb (w prev) (w next).

(** The text after [pat] when the text starts with [pat], case ignored;
    [pat] is in lower case. *)
Fixpoint afterPrefix (pat s : list ascii) : option (list ascii) :=
  match pat, s with
  | [], _ => Some s
  | _ :: _, [] => None
  | p :: pat', c :: s' =>
      if Ascii.eqb p (toLowerCase c) then afterPrefix pat' s' else None
  end.

(** The length of the match of [\b(alt1|alt2|...)\b] at the start of [s],
    [prev] being the character before. *)
Fixpoint matchAt (alts : list (list ascii)) (prev : option ascii)
  (s : list ascii) : option nat :=
  match alts with
  | [] => None
  | alt :: alts' =>
      match afterPrefix alt s with
      | Some rest =>
          if wordBoundary prev (hd_error s)
             && wordBoundary (hd_error (rev alt)) (hd_error rest)
          then Some (List.length alt)
          else matchAt alts' prev s
      | None => matchAt alts' prev s
      end
  end.

(** [(text.match(/\b(alt1|alt2|...)\b/gi) || []).length]: the matches are
    searched from left to right and do not overlap; [skip] characters are
    still inside the last match. *)
Fixpoint countMatches (alts : list (list ascii)) (prev : option ascii)
  (s : list ascii) (skip : nat) : nat :=
  match s with
  | [] => O
  | c :: t =>
      match skip with
      | S k => countMatches alts (Some c) t k
      | O =>
          match matchAt alts prev s with
          | Some len => S (countMatches alts (Some c) t (len - 1))
          | None => countMatches alts (Some c) t O
          end
      end
  end.

Definition chars (s : string) : list ascii := list_ascii_of_string s.

(** [extractTextFeatures(text)] (line 1045) *)
Definition extractTextFeatures (text : string) : list R :=
  let words := splitSpaces (map toLowerCase (chars text)) [] false in
  let commonWords :=
    map chars ["the"; "and"; "or"; "but"; "in"; "on"; "at"; "to"; "for"; "of";
               "with"; "by"] in
  let meaningfulWords :=
    filter (fun word =>
              negb (existsb (fun w => if list_eq_dec ascii_dec w word
                                      then true else false) commonWords)
              && (2 <? List.length word)%nat)
      words in
  [ INR (List.length meaningfulWords) / 100;
    INR (countMatches (map chars ["premium"; "luxury"; "high-quality"])
           None (chars text) 0) / 10;
    INR (countMatches (map chars ["sale"; "discount"; "cheap"; "affordable"])
           None (chars text) 0) / 10 ].

(** [encodeCategoryFeatures(category)] (line 1020): three calls of
    [Math.random()], [draws] of which were made before. *)
Definition encodeCategoryFeatures (random : nat -> R) (draws : nat)
  : list R * nat :=
  ([random draws; random (S draws); random (S (S draws))], (draws + 3)%nat).

(** [(array?.length || 0)] *)
Definition lengthOr0 {A : Type} (o : option (list A)) : R :=
  match o with
  | Some l => INR (List.length l)
  | None => 0
  end.

(** [encodeAttributeFeatures(attributes)] (line 1025) *)
Definition encodeAttributeFeatures (attributes : option Attributes) : list R :=
  let field {A : Type} (f : Attributes -> option (list A)) :=
    match attributes with
    | Some a => lengthOr0 (f a)
    | None => 0
    end in
  [ field colors / 10; field sizes / 10; field materials / 5 ].

(** [encodeSeasonalFeatures(seasons)] (line 1034) *)
Definition encodeSeasonalFeatures (seasons : list string) : list R :=
  let seasonMap (s : string) : option nat :=
    if String.eqb s "spring" then Some 0%nat
    else if String.eqb s "summer" then Some 1%nat
    else if String.eqb s "fall" then Some 2%nat
    else if String.eqb s "winter" then Some 3%nat
    else None in
  fold_left
    (fun features season =>
       match seasonMap season with
       | Some k => set_nth features k 1
       | None => features
       end)
    seasons [0; 0; 0; 0].

(** [createProductEmbedding(product)] (line 656): the features, and the
    number of random draws made so far. *)
Definition createProductEmbedding (random : nat -> R) (draws : nat)
  (product : Product) : list R * nat :=
  let priceNormalized := Rmin (price product / 1000) 1 in
  let features := [priceNormalized] in
  let analyticsField (f : Analytics -> option R) :=
    match analytics product with
    | Some a => or_num (f a) 0
    | None => 0
    end in
  let brandPopularity := analyticsField views / 10000 in
  let features := features ++ [Rmin brandPopularity 1] in
  let features := features ++ [analyticsField averageRating / 5] in
  let (categoryFeatures, draws) := encodeCategoryFeatures random draws in
  let features := features ++ categoryFeatures in
  let attributeFeatures := encodeAttributeFeatures (attributes product) in
  let features := features ++ attributeFeatures in
  let seasonalFeatures :=
    encodeSeasonalFeatures
      match attributes product with
      | Some a => or_else (season a) []
      | None => []
      end in
  let features := features ++ seasonalFeatures in
  let textFeatures :=
    extractTextFeatures (name product ++ " " ++ description product)%string in
  let features := features ++ textFeatures in
  (features, draws).

(** [encodeCategoryPreferences(categories)] (line 1058): two calls of
    [Math.random()]. *)
Definition encodeCategoryPreferences (random : nat -> R) (draws : nat)
  (categories : list string) : list R * nat :=
  ([INR (List.length categories) / 10; random draws; random (S draws)],
   (draws + 2)%nat).

(** [encodeTimePatterns(clickPatterns)] (line 1063) *)
Definition encodeTimePatterns (clickPatterns : option ClickPatterns) : list R :=
  let total (f : ClickPatterns -> option (list Click)) :=
    let l := match clickPatterns with
             | Some c => or_else (f c) []
             | None => []
             end in
    if (0 <? List.length l)%nat
    then reduce (fun sum t _ => sum + clicks t) 0 l / 100
    else 0 in
  [ total timeOfDay; total dayOfWeek ].

(** [createUserEmbedding(user)] (line 708) *)
Definition createUserEmbedding (random : nat -> R) (draws : nat) (user : User)
  : list R * nat :=
  let priceRange :=
    match preferences user with
    | Some prefs => or_else (priceRange prefs) {| pr_min := 0; pr_max := 1000 |}
    | None => {| pr_min := 0; pr_max := 1000 |}
    end in
  let features := [pr_min priceRange / 1000; pr_max priceRange / 1000] in
  let scoreField (f : PersonalizationScores -> option R) :=
    match personalizationScores user with
    | Some s => or_num (f s) 0
    | None => 0
    end in
  let features :=
    features ++ [ scoreField fashionStyle; scoreField priceConsciousness;
                  scoreField brandLoyalty; scoreField trendFollower;
                  scoreField qualityFocused; scoreField impulseBuyer ] in
  let behaviorField (f : BehaviorData -> option R) :=
    match behaviorData user with
    | Some b => or_num (f b) 0
    | None => 0
    end in
  let features :=
    features ++ [ Rmin (behaviorField totalPurchases / 50) 1;
                  Rmin (behaviorField totalSpent / 10000) 1;
                  Rmin (behaviorField averageOrderValue / 500) 1 ] in
  let (categoryPrefs, draws) :=
    encodeCategoryPreferences random draws
      match preferences user with
      | Some prefs => or_else (categories prefs) []
      | None => []
      end in
  let features := features ++ categoryPrefs in
  let timeFeatures :=
    encodeTimePatterns
      match behaviorData user with
      | Some b => clickPatterns b
      | None => None
      end in
  let features := features ++ timeFeatures in
  (features, draws).

(** The loop of [computeProductEmbeddings] and of [computeUserEmbeddings]:
    each document's embedding is stored under its id. *)
Definition embedAll {A : Type} (create : nat -> A -> list R * nat)
  (id : A -> string) (st : Map (list R) * nat) (docs : list A)
  : Map (list R) * nat :=
  fold_left
    (fun st doc =>
       let (embedding, draws) := create (snd st) doc in
       (Map_set (fst st) (id doc) embedding, draws))
    docs st.

(** [computeProductEmbeddings()] (line 638): the new state and the number
    of draws. *)
Definition computeProductEmbeddings (store : Store) (random : nat -> R)
  (draws : nat) (this : Engine) : Result (Engine * nat) :=
  try_catch
    (products <- Product_find_active store ;;
     let (embeddings, draws) :=
       embedAll (createProductEmbedding random) p_id
         (productEmbeddings this, draws) products in
     Ok ({| userItemMatrix := userItemMatrix this;
            productEmbeddings := embeddings;
            userEmbeddings := userEmbeddings this;
            isInitialized := isInitialized this |}, draws))
    (fun _ => Ok (this, draws)).

(** [computeUserEmbeddings()] (line 690) *)
Definition computeUserEmbeddings (store : Store) (random : nat -> R)
  (draws : nat) (this : Engine) : Result (Engine * nat) :=
  try_catch
    (users <- User_find_active store ;;
     let (embeddings, draws) :=
       embedAll (createUserEmbedding random) u_id
         (userEmbeddings this, draws) users in
     Ok ({| userItemMatrix := userItemMatrix this;
            productEmbeddings := productEmbeddings this;
            userEmbeddings := embeddings;
            isInitialized := isInitialized this |}, draws))
    (fun _ => Ok (this, draws)).

(** *** Initialisation and the request pipeline *)

(** What a request reads from its environment: the clock, the random
    generator and the calendar month, each as the stream of its readings. *)
Record Readings : Type := {
  clock : nat -> R;
  random : nat -> R;
  months : nat -> nat
}.

(** [initialize()] (line 583) *)
Definition initialize (store : Store) (env : Readings) (this : Engine)
  : Result Engine :=
  try_catch
    (this <- loadUserItemMatrix store (clock env) this ;;
     st <- computeProductEmbeddings store (random env) 0 this ;;
     st <- computeUserEmbeddings store (random env) (snd st) (fst st) ;;
     let this := fst st in
     Ok {| userItemMatrix := userItemMatrix this;
           productEmbeddings := productEmbeddings this;
           userEmbeddings := userEmbeddings this;
           isInitialized := true |})
    (fun _ => Ok this).

(** The value [getRecommendations] resolves to: the ranked candidates of
    the pipeline, or the records of the fallback generator. *)
Inductive Recommendations : Type :=
| Personalized (recs : list Ranked)
| Fallback (recs : list Rec).

(** The [try] block of [getRecommendations] (lines 747-784).
    [contentBased] stands for [getContentBasedRecommendations], which
    computes on tensors of the tensor library and is taken as given: a list
    of candidates, or an error. *)
Definition getRecommendations_try (store : Store) (env : Readings)
  (contentBased : string -> nat -> Result (list Rec))
  (this : Engine) (userId : string) (limit : nat) (excludeViewed : bool)
  : Result (list Ranked) :=
  this <- (if isInitialized this then Ok this else initialize store env this) ;;
  found <- User_findById store userId ;;
  match found with
  | None => Throw (Error "User not found")
  | Some user =>
      collaborativeRecs <-
        getCollaborativeRecommendations this userId (limit * 2) ;;
      contentBasedRecs <- contentBased userId (limit * 2)%nat ;;
      trendingRecs <- getTrendingRecommendations store limit ;;
      let combinedRecs :=
        combineRecommendations
          [ {| recommendations := collaborativeRecs; weight := 0.4 |};
            {| recommendations := contentBasedRecs; weight := 0.4 |};
            {| recommendations := trendingRecs; weight := 0.2 |} ] in
      filteredRecs <-
        (if excludeViewed
         then
           viewedIds <-
             mapM (fun item =>
                     match v_product item with
                     | Some p => Ok p
                     | None => Throw TypeError
                     end)
               (recentlyViewed user) ;;
           Ok (filter (fun rec => negb (includes viewedIds (r_productId rec)))
                 combinedRecs)
         else Ok combinedRecs) ;;
      personalizedRecs <-
        applyPersonalizationBoost store (months env) filteredRecs user ;;
      Ok (slice0 limit personalizedRecs)
  end.

(** [getRecommendations(userId, limit, excludeViewed)] (line 746) *)
Definition getRecommendations (store : Store) (env : Readings)
  (contentBased : string -> nat -> Result (list Rec))
  (this : Engine) (userId : string) (limit : nat) (excludeViewed : bool)
  : Result Recommendations :=
  try_catch
    (recs <- getRecommendations_try store env contentBased this userId limit
               excludeViewed ;;
     Ok (Personalized recs))
    (fun _ =>
       recs <- getFallbackRecommendations store limit ;;
       Ok (Fallback recs)).

(** ** Reference definitions, in the words of the specification *)

(** *** Interaction matrix *)

(** [days_since_event] at time [now]. *)
Definition days_since (now timestamp : R) : R :=
  (now - timestamp) / 86400000.

(** [recency_score * 0.7 + duration_score * 0.3] of an event stored at
    [timestamp] with [duration] seconds. *)
Definition interaction_score (now timestamp duration : R) : R :=
  exp (- days_since now timestamp / 30) * 0.7
  + (Rmin (duration / 60) 10 / 10) * 0.3.

(** The events of a history that concern product [p]. *)
Definition events_for (p : string) (h : list Interaction) : list Interaction :=
  filter (fun e => match i_productId e with
                   | Some q => String.eqb q p
                   | None => false
                   end) h.

(** A cell that is a number of [0,1]. *)
Definition unit_cell (c : num) : Prop := exists x, c = Fin x /\ 0 <= x <= 1.

(** *** Cosine similarity *)

(** The L2 norm of a vector: the square root of the sum of the squares. *)
Definition l2_norm (v : list num) : num :=
  Math_sqrt (fold_right (fun x s => add (mul x x) s) (Fin 0) v).

(** A number that is not [NaN]. *)
Definition finite (c : num) : Prop := exists x, c = Fin x.

(** The dot product of two vectors: the sum of the products of their
    components. *)
Fixpoint dot_product (a b : list num) : num :=
  match a, b with
  | x :: a', y :: b' => add (mul x y) (dot_product a' b')
  | _, _ => Fin 0
  end.

(** The cosine similarity of the specification: the dot product over the
    product of the L2 norms, and 0 if either vector has zero norm. *)
Definition cosine (a b : list num) : num :=
  if strict_eq (l2_norm a) (Fin 0) || strict_eq (l2_norm b) (Fin 0)
  then Fin 0
  else div (dot_product a b) (mul (l2_norm a) (l2_norm b)).

(** *** Collaborative filter *)

(** The sum of a list of real numbers. *)
Definition Rsum (l : list R) : R := fold_right Rplus 0 l.

(** User [i] is another user whose row has cosine similarity [s > 0.1]
    with the row of the target user [u]. *)
Definition isNeighbour (m : list (list num)) (u i : nat) (s : R) : Prop :=
  (i < List.length m)%nat /\ i <> u
  /\ cosine (rowOf m u) (rowOf m i) = Fin s /\ s > 0.1.

(** [N] holds the [k] most similar neighbours of [u]: neighbours only, each
    once, at most [k] of them, and a neighbour that is left out is no more
    similar than any that is kept, [k] being kept then. *)
Definition mostSimilar (k : nat) (m : list (list num)) (u : nat)
  (N : list Similar) : Prop :=
  NoDup (map userIndex N)
  /\ (forall n, In n N -> isNeighbour m u (userIndex n) (similarity n))
  /\ (List.length N <= k)%nat
  /\ (forall i s, isNeighbour m u i s -> ~ In i (map userIndex N) ->
        List.length N = k /\ forall n, In n N -> similarity n >= s).

(** What neighbour [n] adds to the score of column [j]:
    [neighbor_cell * neighbor_similarity] when its cell is > 0. *)
Definition contribution (m : list (list num)) (j : nat) (n : Similar) : R :=
  match at_num (rowOf m (userIndex n)) j with
  | Fin cell => if Rgtb cell 0 then cell * similarity n else 0
  | NaN => 0
  end.

(** The accumulated score of column [j]: the sum over the neighbours. *)
Definition neighbourScore (m : list (list num)) (N : list Similar) (j : nat)
  : R :=
  Rsum (map (contribution m j) N).

(** Column [j] is recommended: the target's cell is 0 and the cell of some
    neighbour is > 0. *)
Definition isCandidate (m : list (list num)) (u : nat) (N : list Similar)
  (j : nat) : Prop :=
  strict_eq (at_num (rowOf m u) j) (Fin 0) = true
  /\ exists n cell,
       In n N /\ at_num (rowOf m (userIndex n)) j = Fin cell /\ cell > 0.

(** A matrix whose rows are indexed by [userIds] and whose columns are
    indexed by [productIds], each product being one column. *)
Definition wellFormed (uim : UserItemMatrix) : Prop :=
  List.length (matrix uim) = List.length (userIds uim)
  /\ (forall row, In row (matrix uim) ->
        List.length row = List.length (productIds uim))
  /\ NoDup (productIds uim).

(** *** Hybrid ranker *)

(** The weighted candidates of all the input lists of the ranker, in the
    order the ranker visits them. *)
Definition contributions (sources : list Weighted) : list (Rec * R) :=
  flat_map (fun s => map (fun r => (r, weight s)) (recommendations s)) sources.

(** The sum, over the input lists, of score times weight of product [p]. *)
Definition accumulated (sources : list Weighted) (p : string) : R :=
  Rsum (map (fun c => score (fst c) * snd c)
          (filter (fun c => String.eqb (productId (fst c)) p)
             (contributions sources))).

(** The source tags of product [p], one for each list entry. *)
Definition tagsOf (sources : list Weighted) (p : string) : list Source :=
  map (fun c => type (fst c))
    (filter (fun c => String.eqb (productId (fst c)) p)
       (contributions sources)).

(** The keys of an array in the order of their first occurrence. *)
Definition first_seen (ids : list string) : list string :=
  fold_left (fun seen k => if includes seen k then seen else seen ++ [k])
    ids [].

(** The merged candidates before they are sorted: one for each product,
    in the order in which the products first occur in the input lists. *)
Definition merged (sources : list Weighted) : list Ranked :=
  map (fun p =>
         {| r_productId := p;
            r_score := accumulated sources p;
            sources := tagsOf sources p;
            boost := None |})
    (first_seen (map (fun c => productId (fst c)) (contributions sources))).

(** The order [(a, b) => key(b) - key(a)] sorts into. *)
Definition descending {A : Type} (key : A -> R) (a b : A) : Prop :=
  key a >= key b.

(** The candidates of score [v], in the order of the array. *)
Definition withScore {A : Type} (key : A -> R) (v : R) (l : list A) : list A :=
  filter (fun a => if Req_dec_T (key a) v then true else false) l.

(** The reading of "ties are broken by productId": some antisymmetric
    relation on product ids decides, for every input of the ranker, which
    of two merged candidates of equal score comes first. *)
Definition ties_broken_by_productId : Prop :=
  exists before : string -> string -> Prop,
    (forall p q, before p q -> before q p -> p = q)
    /\ forall srcs l1 a l2 b l3,
         combineRecommendations srcs = l1 ++ a :: l2 ++ b :: l3 ->
         r_score a = r_score b ->
         before (r_productId a) (r_productId b).

(** *** Personalization boost *)

(** The calendar season of the specification: spring is months 2 to 4,
    summer 5 to 7, fall 8 to 10, winter otherwise. *)
Definition season_of_month (month : nat) : string :=
  match month with
  | 2 | 3 | 4 => "spring"
  | 5 | 6 | 7 => "summer"
  | 8 | 9 | 10 => "fall"
  | _ => "winter"
  end%nat.

(** The preferences of a user, with the defaults of
    [applyPersonalizationBoost]. *)
Definition preferredCategories (user : User) : list string :=
  match preferences user with
  | Some prefs => or_else (categories prefs) []
  | None => []
  end.

Definition preferredBrands (user : User) : list string :=
  match preferences user with
  | Some prefs => or_else (brands prefs) []
  | None => []
  end.

Definition preferredRange (user : User) : PriceRange :=
  match preferences user with
  | Some prefs => or_else (priceRange prefs) {| pr_min := 0; pr_max := 10000 |}
  | None => {| pr_min := 0; pr_max := 10000 |}
  end.

(** The four rules of the personalization boost. *)
Definition categoryRule (user : User) (product : Product) : bool :=
  match category product with
  | Some c => includes (preferredCategories user) c
  | None => false
  end.

Definition priceRule (user : User) (product : Product) : bool :=
  Rleb (pr_min (preferredRange user)) (price product)
  && Rleb (price product) (pr_max (preferredRange user)).

Definition brandRule (user : User) (product : Product) : bool :=
  includes (preferredBrands user) (brand product).

Definition seasonRule (month : nat) (product : Product) : bool :=
  match attributes product with
  | Some attrs =>
      match season attrs with
      | Some seasons => includes seasons (season_of_month month)
      | None => false
      end
  | None => false
  end.

(** The product of the factors of the rules that hold. *)
Definition boost_factor (user : User) (product : Product) (month : nat) : R :=
  (if categoryRule user product then 1.3 else 1)
  * (if priceRule user product then 1.2 else 1)
  * (if brandRule user product then 1.4 else 1)
  * (if seasonRule month product then 1.1 else 1).

(** A merged candidate after the boost: untouched when the store returned
    no product for it. *)
Definition personalized (user : User) (products : list Product) (month : nat)
  (c : Ranked) : Ranked :=
  match find (fun p => String.eqb (p_id p) (r_productId c)) products with
  | Some product =>
      {| r_productId := r_productId c;
         r_score := r_score c * boost_factor user product month;
         sources := sources c;
         boost := Some (boost_factor user product month) |}
  | None => c
  end.

(** *** Request pipeline *)


(** ** Auxiliary definitions: the loops of the engine, step by step *)

(** The score [recencyScore * 0.7 + durationScore * 0.3] that
    [loadUserItemMatrix] computes for an event when the clock reads [now]. *)
Definition eventScore (now : R) (e : Interaction) : num :=
  add (mul (Fin (calculateRecencyScore now (i_timestamp e))) (Fin 0.7))
      (mul (div (Math_min (div (of_option (i_duration e)) (Fin 60)) (Fin 10))
              (Fin 10)) (Fin 0.3)).

(** An entry that carries a [productId]. *)
Definition identified (e : Interaction) : Prop := i_productId e <> None.

(** The column of the product of an event, if it has one. *)
Definition columnOf (pids : list string) (e : Interaction) : option nat :=
  match i_productId e with
  | Some p => indexOf pids p
  | None => None
  end.

(** What [scoreInteraction] returns for an entry that carries a
    [productId], and the two loops over such entries. *)
Definition scoreStep (clock : nat -> R) (pids : list string) (i : nat)
  (st : list (list num) * nat) (e : Interaction) : list (list num) * nat :=
  let (m, t) := st in
  match columnOf pids e with
  | None => (m, t)
  | Some j => (set2 m i j (Math_max (get2 m i j) (eventScore (clock t) e)), S t)
  end.

Definition historyStep (clock : nat -> R) (pids : list string)
  (st : list (list num) * nat) (user : User) (i : nat)
  : list (list num) * nat :=
  fold_left (scoreStep clock pids i) (historyOf user) st.

Definition filledMatrix (clock : nat -> R) (users : list User)
  (pids : list string) : list (list num) :=
  fst (reduce (historyStep clock pids)
         (repeat (repeat (Fin 0) (List.length pids)) (List.length users), O)
         users).

(** The effect of one event on the cell of column [j], the clock reading
    [now]. *)
Definition cellStep (now : R) (pids : list string) (j : nat) (c : num)
  (e : Interaction) : num :=
  match columnOf pids e with
  | Some k => if Nat.eqb k j then Math_max c (eventScore now e) else c
  | None => c
  end.

(** One term of a dot product. *)
Definition zipStep (s : num) (xy : num * num) : num :=
  add s (mul (fst xy) (snd xy)).

(** The neighbour that the loop over the rows keeps for row [i], if any. *)
Definition keptNeighbour (m : list (list num)) (userIndex : nat)
  (userVector : list num) (i : nat) : list Similar :=
  if Nat.eqb i userIndex then []
  else
    match cosineSimilarity userVector (rowOf m i) with
    | Fin similarity =>
        if Rgtb similarity 0.1
        then [ {| userIndex := i; similarity := similarity |} ]
        else []
    | NaN => []
    end.

(** The score that the loop over the products adds for column
    [productIndex] of a neighbour, if any. *)
Definition addedScore (productIds : list string)
  (userVector similarUserVector : list num) (similarity : R)
  (productIndex : nat) : list (string * R) :=
  match at_num similarUserVector productIndex with
  | Fin cell =>
      if strict_eq (at_num userVector productIndex) (Fin 0) && Rgtb cell 0
      then [ (nth productIndex productIds "undefined", cell * similarity) ]
      else []
  | NaN => []
  end.

(** All the scores added for the neighbours [N], in the order of the
    loops. *)
Definition addedScores (m : list (list num)) (productIds : list string)
  (userVector : list num) (N : list Similar) : list (string * R) :=
  flat_map
    (fun n =>
       flat_map
         (addedScore productIds userVector (rowOf m (userIndex n))
            (similarity n))
         (seq 0 (List.length (rowOf m (userIndex n)))))
    N.

(** The entries of key [k]. *)
Definition withKey (k : string) (cs : list (string * R)) : list (string * R) :=
  filter (fun c => String.eqb (fst c) k) cs.

(** Adding a score to the entry of a product. *)
Definition addScore (v : R) (c : string * R) : R := v + snd c.

(** The record of a map entry of the collaborative filter. *)
Definition collaborativeRec (entry : string * R) : Rec :=
  {| productId := fst entry; score := snd entry; type := collaborative |}.

(** Insert-or-merge into a map, the pattern of the accumulation loops:
    [if (map.has(key)) merge into the entry, else map.set(key, init)]. *)
Definition upsert {C V : Type} (key : C -> string) (init : C -> V)
  (merge : V -> C -> V) (m : Map V) (c : C) : Map V :=
  match Map_get m (key c) with
  | Some v => Map_set m (key c) (merge v c)
  | None => Map_set m (key c) (init c)
  end.

(** The entry that a sequence of upserts leaves under key [k], [o] being
    the entry before. *)
Definition aggregate {C V : Type} (key : C -> string) (init : C -> V)
  (merge : V -> C -> V) (k : string) (cs : list C) (o : option V) : option V :=
  fold_left
    (fun o c =>
       if String.eqb (key c) k
       then Some match o with Some v => merge v c | None => init c end
       else o)
    cs o.

(** The key of a weighted candidate, and the weighted candidates of key
    [k]. *)
Definition candidateKey (c : Rec * R) : string := productId (fst c).

Definition ofKey (k : string) (cs : list (Rec * R)) : list (Rec * R) :=
  filter (fun c => String.eqb (productId (fst c)) k) cs.

(** The entry [combineRecommendations] creates for a weighted candidate,
    and the entry it leaves when the product has one already. *)
Definition rankedInit (c : Rec * R) : Ranked :=
  {| r_productId := productId (fst c);
     r_score := score (fst c) * snd c;
     sources := [type (fst c)];
     boost := None |}.

Definition rankedMerge (existing : Ranked) (c : Rec * R) : Ranked :=
  {| r_productId := r_productId existing;
     r_score := r_score existing + score (fst c) * snd c;
     sources := sources existing ++ [type (fst c)];
     boost := boost existing |}.

(** The map [combined] at the end of the loops of [combineRecommendations]. *)
Definition combinedMap (sources : list Weighted) : Map Ranked :=
  fold_left
    (fun combined source =>
       fold_left (combineStep (weight source)) (recommendations source)
         combined)
    sources [].

(** ** An in-memory store and sample documents, for the examples *)

(** A store over arrays held in memory: the active users, the active
    products in trending order and the featured active products in order of
    views. *)
Definition memoryStore (users : list User) (products featured : list Product)
  : Store :=
  {| User_find_active := Ok users;
     User_findById :=
       fun id => Ok (find (fun u => String.eqb (u_id u) id) users);
     Product_find_active := Ok products;
     Product_find_trending := fun limit => Ok (firstn limit products);
     Product_find_featured := fun limit => Ok (firstn limit featured);
     Product_find_in :=
       fun ids => Ok (filter (fun p => includes ids (p_id p)) products) |}.



(** A store whose trending query rejects, the other queries answering
    from the arrays. *)
Definition trendlessStore (users : list User) (products featured : list Product)
  : Store :=
  {| User_find_active := Ok users;
     User_findById :=
       fun id => Ok (find (fun u => String.eqb (u_id u) id) users);
     Product_find_active := Ok products;
     Product_find_trending := fun _ => Throw StoreError;
     Product_find_featured := fun limit => Ok (firstn limit featured);
     Product_find_in :=
       fun ids => Ok (filter (fun p => includes ids (p_id p)) products) |}.

(** A store whose queries for the active users and the active products
    reject, the other queries answering from the arrays. *)
Definition listlessStore (users : list User) (products featured : list Product)
  : Store :=
  {| User_find_active := Throw StoreError;
     User_findById :=
       fun id => Ok (find (fun u => String.eqb (u_id u) id) users);
     Product_find_active := Throw StoreError;
     Product_find_trending := fun limit => Ok (firstn limit products);
     Product_find_featured := fun limit => Ok (firstn limit featured);
     Product_find_in :=
       fun ids => Ok (filter (fun p => includes ids (p_id p)) products) |}.

(** A store whose every query rejects. *)
Definition downStore : Store :=
  {| User_find_active := Throw StoreError;
     User_findById := fun _ => Throw StoreError;
     Product_find_active := Throw StoreError;
     Product_find_trending := fun _ => Throw StoreError;
     Product_find_featured := fun _ => Throw StoreError;
     Product_find_in := fun _ => Throw StoreError |}.

Definition newEngine : Engine :=
  {| userItemMatrix := None;
     productEmbeddings := [];
     userEmbeddings := [];
     isInitialized := false |}.

Definition sampleProduct (id : string) : Product :=
  {| p_id := id;
     name := "Linen shirt";
     description := "A premium shirt on sale";
     price := 40;
     category := Some "C1";
     brand := "Acme";
     attributes :=
       Some {| colors := Some ["white"; "blue"];
               sizes := Some ["M"];
               materials := Some ["linen"];
               season := Some ["summer"] |};
     analytics := Some {| views := Some 120; averageRating := Some 4 |} |}.

(** A user whose browsing history is [history]. *)
Definition userWithHistory (id : string) (history : list Interaction) : User :=
  {| u_id := id;
     preferences := None;
     behaviorData :=
       Some {| totalPurchases := None;
               totalSpent := None;
               averageOrderValue := None;
               browsingHistory := Some history;
               clickPatterns := None |};
     personalizationScores := None;
     recentlyViewed := [] |}.

(** A view of [p] at time [t]: with a duration, and without. *)
Definition viewOf (p : string) (t duration : R) : Interaction :=
  {| i_productId := Some p; i_timestamp := t; i_duration := Some duration |}.

Definition viewWithoutDuration (p : string) (t : R) : Interaction :=
  {| i_productId := Some p; i_timestamp := t; i_duration := None |}.

(** An entry stored without a productId. *)
Definition anonymousView (t : R) : Interaction :=
  {| i_productId := None; i_timestamp := t; i_duration := Some 0 |}.

(** A user who prefers category C1 and brand Acme, with the default price
    range. *)
Definition sampleUser (id : string) : User :=
  {| u_id := id;
     preferences :=
       Some {| categories := Some ["C1"];
               brands := Some ["Acme"];
               priceRange := None |};
     behaviorData := None;
     personalizationScores := None;
     recentlyViewed := [] |}.

(** A merged candidate for product P1. *)
Definition sampleRanked : Ranked :=
  {| r_productId := "P1"; r_score := 0.5; sources := [trending];
     boost := None |}.

(** Successive results of [Math.random()]. *)
Definition sampleDraws (n : nat) : R :=
  match n with
  | 0%nat => 0.1
  | 1%nat => 0.2
  | 2%nat => 0.3
  | 3%nat => 0.4
  | 4%nat => 0.5
  | _ => 0.6
  end.

(** An engine that holds a matrix of two users and two products: U1 viewed
    P1, U2 viewed both. *)
Definition sampleMatrix : UserItemMatrix :=
  {| matrix := [ [Fin 1; Fin 0]; [Fin 1; Fin 1] ];
     userIds := ["U1"; "U2"];
     productIds := ["P1"; "P2"] |}.

Definition sampleEngine : Engine :=
  {| userItemMatrix := Some sampleMatrix;
     productEmbeddings := [];
     userEmbeddings := [];
     isInitialized := true |}.

(** An engine whose matrix has rows of norm 5 and 3: U1 has scores for P1
    and P2, U2 for all three products. *)
Definition exactEngine : Engine :=
  {| userItemMatrix :=
       Some {| matrix := [ [Fin 3; Fin 4; Fin 0]; [Fin 1; Fin 2; Fin 2] ];
               userIds := ["U1"; "U2"];
               productIds := ["P1"; "P2"; "P3"] |};
     productEmbeddings := [];
     userEmbeddings := [];
     isInitialized := true |}.

(** The end-to-end scenario of the specification for the ranker. *)
Definition scenarioSources : list Weighted :=
  [ {| recommendations :=
         [ {| productId := "P1"; score := 0.5; type := collaborative |} ];
       weight := 0.4 |};
    {| recommendations :=
         [ {| productId := "P1"; score := 0.8; type := content_based |} ];
       weight := 0.4 |};
    {| recommendations :=
         [ {| productId := "P2"; score := 0.8; type := trending |} ];
       weight := 0.2 |} ].

(** One list of weight 1 holding [first] and then [second], both with
    score 1. *)
Definition tiedPair (first second : string) : list Weighted :=
  [ {| recommendations :=
         [ {| productId := first; score := 1; type := trending |};
           {| productId := second; score := 1; type := trending |} ];
       weight := 1 |} ].

(** A catalogue with one active product, which is not featured, and one
    active user. *)
Definition unfeaturedStore : Store :=
  memoryStore [userWithHistory "U" [viewOf "P1" 1000 120]]
    [sampleProduct "P1"] [].

(** Two active users, of whom V has viewed what U has viewed and P2 as
    well, and the two products. *)
Definition neighbourStore : Store :=
  memoryStore
    [userWithHistory "U" [viewOf "P1" 1000 120];
     userWithHistory "V" [viewOf "P1" 1000 120; viewOf "P2" 1000 60]]
    [sampleProduct "P1"; sampleProduct "P2"] [].

(** A catalogue whose one active product is featured. *)
Definition featuredStore : Store :=
  memoryStore [userWithHistory "U" [viewOf "P1" 1000 120]]
    [sampleProduct "P1"] [sampleProduct "P1"].

(** Constant readings: the clock at 1000 ms, the generator at 0.5, June. *)
Definition stillReadings : Readings :=
  {| clock := fun _ => 1000; random := fun _ => 0.5; months := fun _ => 5%nat |}.

(** A content filter that finds nothing. *)
Definition noContent : string -> nat -> Result (list Rec) :=
  fun _ _ => Ok [].

(** ** Definitions for the further properties *)

(** The array [topSimilarUsers] of [getCollaborativeRecommendations] for
    the user of row [u]. *)
Definition neighboursOf (m : list (list num)) (u : nat) : list Similar :=
  slice0 10
    (sort_desc similarity
       (flat_map (keptNeighbour m u (rowOf m u)) (seq 0 (List.length m)))).

(** The tolerance left to rounding where a statement compares a result of
    the code with its exact value: the model computes in real numbers,
    binary64 arithmetic is off by a relative error of about 1e-16 for each
    operation. *)
Definition tolerance : R := 1 / 1000000000.



(** A user who has viewed P1 lately, and a catalogue of two products of
    which P2 is the most trending. *)
Definition viewerOf (id p : string) : User :=
  {| u_id := id;
     preferences := None;
     behaviorData := None;
     personalizationScores := None;
     recentlyViewed := [ {| v_product := Some p |} ] |}.

Definition viewerStore : Store :=
  memoryStore [viewerOf "U" "P1"] [sampleProduct "P2"; sampleProduct "P1"] [].

(** A product whose category document is gone. *)
Definition uncategorised (id : string) : Product :=
  {| p_id := id;
     name := "Linen shirt";
     description := "";
     price := 40;
     category := None;
     brand := "Acme";
     attributes := None;
     analytics := None |}.

(** An engine state that queries can read: no matrix, or a matrix with a
    row for each of its user ids, as a build stores it. *)
Definition queryable (this : Engine) : Prop :=
  match userItemMatrix this with
  | Some uim => List.length (matrix uim) = List.length (userIds uim)
  | None => True
  end.

(** A cell that an event has written to: [NaN] or a number > 0, and so no
    longer the 0 the matrix starts with. *)
Definition marked (c : num) : Prop :=
  c = NaN \/ exists x, c = Fin x /\ 0 < x.

(** An event whose duration is missing or not negative. *)
Definition plainDuration (e : Interaction) : Prop :=
  match i_duration e with
  | Some d => 0 <= d
  | None => True
  end.

(** ** Interaction tracking *)

(** An entry of [behaviorData.browsingHistory] with all its fields; the
    schema requires none of them. *)
Record HistoryEntry : Type := {
  h_productId : option string;
  h_duration : option R;
  h_source : option string;
  h_timestamp : R
}.

(** What [loadUserItemMatrix] reads of an entry. *)
Definition interactionOf (entry : HistoryEntry) : Interaction :=
  {| i_productId := h_productId entry;
     i_timestamp := h_timestamp entry;
     i_duration := h_duration entry |}.

(** [user.addToBrowsingHistory(productId, duration = 0, source = 'direct')]
    (models/User.js, line 263), up to [this.save()]: the new content of
    [behaviorData.browsingHistory].  An argument that is [undefined] is
    [None]; [now] is what [new Date()] reads. *)
Definition addToBrowsingHistory (now : R) (browsingHistory : list HistoryEntry)
  (productId : option string) (duration : option R) (source : option string)
  : list HistoryEntry :=
  let duration := match duration with Some d => d | None => 0 end in
  let source := match source with Some s => s | None => "direct" end in
  let browsingHistory :=
    {| h_productId := productId;
       h_duration := Some duration;
       h_source := Some source;
       h_timestamp := now |} :: browsingHistory in
  if (100 <? List.length browsingHistory)%nat
  then slice0 100 browsingHistory
  else browsingHistory.

(** The counters of [product.analytics] that tracking updates; the schema
    gives each the default 0. *)
Record Counters : Type := {
  pa_views : R;
  pa_purchases : R;
  pa_addToCart : R;
  pa_addToWishlist : R;
  pa_conversionRate : R
}.

(** [product.incrementViews()] (models/Product.js, line 293), up to
    [this.save()]. *)
Definition incrementViews (analytics : Counters) : Counters :=
  {| pa_views := pa_views analytics + 1;
     pa_purchases := pa_purchases analytics;
     pa_addToCart := pa_addToCart analytics;
     pa_addToWishlist := pa_addToWishlist analytics;
     pa_conversionRate := pa_conversionRate analytics |}.

(** [product.incrementPurchases()] (models/Product.js, line 298), up to
    [this.save()]. *)
Definition incrementPurchases (analytics : Counters) : Counters :=
  let purchases := pa_purchases analytics + 1 in
  {| pa_views := pa_views analytics;
     pa_purchases := purchases;
     pa_addToCart := pa_addToCart analytics;
     pa_addToWishlist := pa_addToWishlist analytics;
     pa_conversionRate :=
       if Rgtb (pa_views analytics) 0
       then purchases / pa_views analytics * 100
       else 0 |}.

(** The [metadata] argument of [trackUserInteraction]; [{}] by default. *)
Record Metadata : Type := {
  md_duration : option R;
  md_source : option string
}.

(** The documents as [trackUserInteraction] reads and writes them, over a
    database in state [S].  A user document is given by its browsing
    history and a product document by its counters, the only parts that
    tracking touches.  Each operation may reject; a save that succeeds
    gives the next state. *)
Record Documents (S : Type) : Type := {
  (* User.findById(userId) *)
  findUser : S -> string -> Result (option (list HistoryEntry));
  (* user.save() *)
  saveUser : S -> string -> list HistoryEntry -> Result S;
  (* Product.findById(productId), the argument being [undefined] or an id *)
  findProduct : S -> option string -> Result (option Counters);
  (* product.save(), for the document found under this id *)
  saveProduct : S -> option string -> Counters -> Result S
}.
Arguments findUser {S} _ _ _.
Arguments saveUser {S} _ _ _ _.
Arguments findProduct {S} _ _ _.
Arguments saveProduct {S} _ _ _ _.

(** The state that a step leaves behind: its own when it succeeds, and
    the state [s] it started from when it throws, the [catch] of
    [trackUserInteraction] only logging the error. *)
Definition caught {S : Type} (step : Result S) (s : S) : S :=
  match step with
  | Ok s' => s'
  | Throw _ => s
  end.

(** [trackUserInteraction(userId, productId, interactionType, metadata)]
    (line 956): the state of the database when the call returns.
    [productId] is passed on as it comes, [None] being [undefined];
    [checkRetrainingNeeded] has an empty body. *)
Definition trackUserInteraction {S : Type} (db : Documents S) (now : R) (s : S)
  (userId : string) (productId : option string) (interactionType : string)
  (metadata : Metadata) : S :=
  match findUser db s userId with
  | Throw _ => s
  | Ok None => s
  | Ok (Some browsingHistory) =>
      match
        (if String.eqb interactionType "view"
         then saveUser db s userId
                (addToBrowsingHistory now browsingHistory productId
                   (md_duration metadata) (md_source metadata))
         else Ok s)
      with
      | Throw _ => s
      | Ok s =>
          match findProduct db s productId with
          | Throw _ => s
          | Ok None => s
          | Ok (Some analytics) =>
              if String.eqb interactionType "view"
              then caught (saveProduct db s productId
                             (incrementViews analytics)) s
              else if String.eqb interactionType "purchase"
              then caught (saveProduct db s productId
                             (incrementPurchases analytics)) s
              else if String.eqb interactionType "add_to_cart"
              then caught
                     (saveProduct db s productId
                        {| pa_views := pa_views analytics;
                           pa_purchases := pa_purchases analytics;
                           pa_addToCart := pa_addToCart analytics + 1;
                           pa_addToWishlist := pa_addToWishlist analytics;
                           pa_conversionRate := pa_conversionRate analytics |})
                     s
              else if String.eqb interactionType "add_to_wishlist"
              then caught
                     (saveProduct db s productId
                        {| pa_views := pa_views analytics;
                           pa_purchases := pa_purchases analytics;
                           pa_addToCart := pa_addToCart analytics;
                           pa_addToWishlist := pa_addToWishlist analytics + 1;
                           pa_conversionRate := pa_conversionRate analytics |})
                     s
              else s
          end
      end
  end.

(** Two collections held in memory, whose operations never reject. *)
Record Collections : Type := {
  userDocuments : Map (list HistoryEntry);
  productDocuments : Map Counters
}.

Definition memoryDocuments : Documents Collections :=
  {| findUser := fun s id => Ok (Map_get (userDocuments s) id);
     saveUser :=
       fun s id browsingHistory =>
         Ok {| userDocuments := Map_set (userDocuments s) id browsingHistory;
               productDocuments := productDocuments s |};
     (* findById(undefined) is findOne({ _id: null }): no document *)
     findProduct :=
       fun s id =>
         Ok match id with
            | Some id => Map_get (productDocuments s) id
            | None => None
            end;
     saveProduct :=
       fun s id analytics =>
         Ok match id with
            | Some id =>
                {| userDocuments := userDocuments s;
                   productDocuments :=
                     Map_set (productDocuments s) id analytics |}
            | None => s
            end |}.

(** One user who has viewed nothing and one product with ten views. *)
Definition sampleCollections : Collections :=
  {| userDocuments := [("U", [])];
     productDocuments :=
       [("P1", {| pa_views := 10; pa_purchases := 1; pa_addToCart := 0;
                  pa_addToWishlist := 0; pa_conversionRate := 10 |})] |}.

(** ** Chatbot conversations *)

(** [a < b] on finite numbers. *)
Definition Rltb (x y : R) : bool := if Rlt_dec x y then true else false.

(** [map.delete(k)] *)
Fixpoint Map_delete {V : Type} (m : Map V) (k : string) : Map V :=
  match m with
  | [] => []
  | (k', v) :: t => if String.eqb k' k then t else (k', v) :: Map_delete t k
  end.

(** [array.slice(-n)]: the last [n] elements. *)
Definition sliceLast {A : Type} (n : nat) (l : list A) : list A :=
  skipn (List.length l - n) l.

(** [x || d] for a number [x]: [NaN] and [0] are falsy. *)
Definition num_or (x : num) (d : R) : R :=
  match x with
  | Fin v => if Req_dec_T v 0 then d else v
  | NaN => d
  end.

Record Message : Type := {
  msg_role : string;
  msg_content : string;
  msg_timestamp : R
}.

(** An entry of [this.conversationHistory]; [context] is created empty and
    never written. *)
Record Conversation : Type := {
  messages : list Message;
  context : Map string;
  conv_userId : string;
  startTime : R
}.

(** [cleanupConversations()] (line 535): the new content of
    [this.conversationHistory]; [now] is what [Date.now()] reads.  The
    loop visits the entries the map held at the start, deleting the
    current entry not disturbing the iteration. *)
Definition cleanupConversations (now : R)
  (conversationHistory : Map Conversation) : Map Conversation :=
  let cutoffTime := now - 24 * 60 * 60 * 1000 in
  fold_left
    (fun conversationHistory entry =>
       if Rltb (startTime (snd entry)) cutoffTime
       then Map_delete conversationHistory (fst entry)
       else conversationHistory)
    conversationHistory conversationHistory.

(** [getConversationHistory(sessionId)] (line 546); [None] is [null]. *)
Definition getConversationHistory (conversationHistory : Map Conversation)
  (sessionId : string) : option Conversation :=
  Map_get conversationHistory sessionId.

Record ChatbotAnalytics : Type := {
  totalConversations : nat;
  avgMessagesPerConversation : R;
  activeConversations : nat
}.

(** [getAnalytics()] (line 551) *)
Definition getAnalytics (conversationHistory : Map Conversation)
  : ChatbotAnalytics :=
  let totalConversations := List.length conversationHistory in
  let avgMessagesPerConversation :=
    num_or
      (div (Fin (reduce (fun sum conv _ => sum + INR (List.length (messages conv)))
                   0 (Map_values conversationHistory)))
           (Fin (INR totalConversations)))
      0 in
  {| totalConversations := totalConversations;
     avgMessagesPerConversation := avgMessagesPerConversation;
     activeConversations := totalConversations |}.

(** The result of [sentiment.analyze], as far as [processMessage] copies
    it. *)
Record Sentiment : Type := {
  sentiment_score : R;
  comparative : R;
  tokens : list string
}.

(** What a handler of [generateResponse] returns. *)
Record Response : Type := {
  text : string;
  suggestions : option (list string);
  actions : option (list string)
}.

(** What [processMessage] resolves to. *)
Record Reply : Type := {
  reply_text : string;
  reply_intent : string;
  reply_sentiment : Sentiment;
  reply_suggestions : list string;
  reply_actions : list string;
  reply_sessionId : string
}.

Section ProcessMessage.

(** The parts of [processMessage] that lie outside the model: the
    sentiment library, the classifier behind [classifyIntent], the store
    behind [getUserContext], which catches its own errors, the handlers
    behind [generateResponse], and the text of [`${userId}_${Date.now()}`]. *)
Context {UserContext : Type}.
Variable analyze : string -> Result Sentiment.
Variable classifyIntent : string -> Result string.
Variable getUserContext : string -> UserContext.
Variable generateResponse :
  string -> string -> UserContext -> Conversation -> Result Response.
Variable sessionOf : string -> R -> string.

(** [sessionId || `${userId}_${Date.now()}`]: the session, and the number
    of readings of the clock made so far; the empty string is falsy. *)
Definition sessionOr (clock : nat -> R) (tick : nat) (userId : string)
  (sessionId : option string) : string * nat :=
  match sessionId with
  | Some s => if String.eqb s "" then (sessionOf userId (clock tick), S tick)
              else (s, tick)
  | None => (sessionOf userId (clock tick), S tick)
  end.

(** The value of the [catch] block of [processMessage]. *)
Definition errorReply (clock : nat -> R) (tick : nat) (userId : string)
  (sessionId : option string) : Reply :=
  {| reply_text :=
       "I'm sorry, I encountered an error. Please try again or contact our support team.";
     reply_intent := "error";
     reply_sentiment :=
       {| sentiment_score := 0; comparative := 0; tokens := [] |};
     reply_suggestions := ["Contact Support"; "Try Again"];
     reply_actions := [];
     reply_sessionId := fst (sessionOr clock tick userId sessionId) |}.

(** [conversation.messages.push(message)] on the conversation of
    [session], which the map holds by reference. *)
Definition pushMessage (conversation : Conversation) (message : Message)
  : Conversation :=
  {| messages := messages conversation ++ [message];
     context := context conversation;
     conv_userId := conv_userId conversation;
     startTime := startTime conversation |}.

(** [processMessage(message, userId, sessionId)] (line 138): the new
    content of [this.conversationHistory] and the value resolved to.
    [clock] gives the successive readings of [new Date()] and
    [Date.now()]. *)
Definition processMessage (clock : nat -> R)
  (conversationHistory : Map Conversation) (message userId : string)
  (sessionId : option string) : Map Conversation * Reply :=
  let (session, tick) := sessionOr clock 0 userId sessionId in
  let (conversationHistory, tick) :=
    if negb (Map_has conversationHistory session)
    then (Map_set conversationHistory session
            {| messages := [];
               context := [];
               conv_userId := userId;
               startTime := clock tick |},
          S tick)
    else (conversationHistory, tick) in
  match Map_get conversationHistory session with
  | None => (conversationHistory, errorReply clock tick userId sessionId)
  | Some conversation =>
      let conversation :=
        pushMessage conversation
          {| msg_role := "user"; msg_content := message;
             msg_timestamp := clock tick |} in
      let conversationHistory :=
        Map_set conversationHistory session conversation in
      let tick := S tick in
      match analyze message with
      | Throw _ => (conversationHistory, errorReply clock tick userId sessionId)
      | Ok sentimentResult =>
          match classifyIntent message with
          | Throw _ =>
              (conversationHistory, errorReply clock tick userId sessionId)
          | Ok intent =>
              let userContext := getUserContext userId in
              match generateResponse intent message userContext conversation
              with
              | Throw _ =>
                  (conversationHistory,
                   errorReply clock tick userId sessionId)
              | Ok response =>
                  let conversation :=
                    pushMessage conversation
                      {| msg_role := "assistant";
                         msg_content := text response;
                         msg_timestamp := clock tick |} in
                  let conversation :=
                    if (100 <? List.length (messages conversation))%nat
                    then {| messages := sliceLast 100 (messages conversation);
                            context := context conversation;
                            conv_userId := conv_userId conversation;
                            startTime := startTime conversation |}
                    else conversation in
                  (Map_set conversationHistory session conversation,
                   {| reply_text := text response;
                      reply_intent := intent;
                      reply_sentiment :=
                        {| sentiment_score := sentiment_score sentimentResult;
                           comparative := comparative sentimentResult;
                           tokens := tokens sentimentResult |};
                      reply_suggestions := or_else (suggestions response) [];
                      reply_actions := or_else (actions response) [];
                      reply_sessionId := session |})
              end
          end
      end
  end.

End ProcessMessage.

(** Two conversations: one started at time 0, one at time 90000000. *)
Definition sampleConversations : Map Conversation :=
  [ ("old",
     {| messages := [ {| msg_role := "user"; msg_content := "hello";
                         msg_timestamp := 0 |} ];
        context := []; conv_userId := "U"; startTime := 0 |});
    ("new",
     {| messages := []; context := []; conv_userId := "V";
        startTime := 90000000 |}) ].

(** An engine that is marked initialized and has no matrix, a store with
    an unviewed pair of products, and a content filter that returns the
    second of them: the request then ranks two candidates of different
    scores. *)
Definition idleEngine : Engine :=
  {| userItemMatrix := None; productEmbeddings := []; userEmbeddings := [];
     isInitialized := true |}.

Definition twoStore : Store :=
  memoryStore [userWithHistory "U" []]
    [sampleProduct "P1"; sampleProduct "P2"] [].

Definition likesP2 : string -> nat -> Result (list Rec) :=
  fun _ _ => Ok [ {| productId := "P2"; score := 0.9; type := content_based |} ].

(** * Properties *)

(** Settles the next comparison of two real constants in the goal. *)
Ltac decide_real :=
  unfold Rgeb, Rleb;
  match goal with
  | |- context [Rge_dec ?a ?b] => destruct (Rge_dec a b); try lra
  | |- context [Rle_dec ?a ?b] => destruct (Rle_dec a b); try lra
  | |- context [Rgt_dec ?a ?b] => destruct (Rgt_dec a b); try lra
  end;
  cbn.

(** ** Arrays *)

Lemma set_nth_length {A : Type} (l : list A) (i : nat) (x : A) :
  List.length (set_nth l i x) = List.length l.
Proof.
  revert i; induction l as [|y t IH]; intros [|i]; simpl; auto.
Qed.

Lemma nth_set_nth_eq {A : Type} (l : list A) (i : nat) (x d : A) :
  (i < List.length l)%nat -> nth i (set_nth l i x) d = x.
Proof.
  revert i; induction l as [|y t IH]; intros [|i] H; simpl in *; try lia; auto.
  apply IH; lia.
Qed.

Lemma nth_set_nth_neq {A : Type} (l : list A) (i k : nat) (x d : A) :
  k <> i -> nth k (set_nth l i x) d = nth k l d.
Proof.
  revert i k; induction l as [|y t IH]; intros [|i] [|k] H; simpl; auto; try lia.
Qed.

Lemma indexOf_from_spec (l : list string) (x : string) (i j : nat) :
  indexOf_from l x i = Some j ->
  (i <= j)%nat /\ nth_error l (j - i) = Some x
  /\ (forall k, (k < j - i)%nat -> nth_error l k <> Some x).
Proof.
  revert i; induction l as [|y t IH]; intros i H; simpl in H; [discriminate|].
  destruct (String.eqb y x) eqn:E.
  - injection H as <-. apply String.eqb_eq in E; subst y.
    rewrite Nat.sub_diag. repeat split; auto. intros k Hk; lia.
  - apply IH in H. destruct H as (Hle & Hn & Hfirst).
    assert (Hj : (j - i = S (j - S i))%nat) by lia.
    rewrite Hj. repeat split; auto; try lia.
    intros [|k] Hk; simpl.
    + intros [= ->]. rewrite String.eqb_refl in E. discriminate.
    + apply Hfirst. lia.
Qed.

Lemma indexOf_nth_error (l : list string) (x : string) (j : nat) :
  indexOf l x = Some j -> nth_error l j = Some x.
Proof.
  intros H. apply indexOf_from_spec in H. rewrite Nat.sub_0_r in H. tauto.
Qed.

Lemma indexOf_lt (l : list string) (x : string) (j : nat) :
  indexOf l x = Some j -> (j < List.length l)%nat.
Proof.
  intros H. apply indexOf_nth_error in H.
  apply nth_error_Some. congruence.
Qed.

Lemma indexOf_same_column (l : list string) (x y : string) (j : nat) :
  indexOf l x = Some j -> indexOf l y = Some j -> x = y.
Proof.
  intros Hx Hy. apply indexOf_nth_error in Hx, Hy. congruence.
Qed.

Lemma columnOf_Some (pids : list string) (e : Interaction) (j : nat) :
  columnOf pids e = Some j ->
  exists p, i_productId e = Some p /\ indexOf pids p = Some j.
Proof.
  unfold columnOf. destruct (i_productId e) as [p|]; [|discriminate].
  intros H. exists p. auto.
Qed.

Lemma columnOf_lt (pids : list string) (e : Interaction) (j : nat) :
  columnOf pids e = Some j -> (j < List.length pids)%nat.
Proof.
  intros H. apply columnOf_Some in H. destruct H as (p & _ & H).
  eapply indexOf_lt; eauto.
Qed.

(** ** Interaction matrix *)

Lemma get2_set2_same (m : list (list num)) (i j : nat) (x : num) :
  (i < List.length m)%nat -> (j < List.length (nth i m []))%nat ->
  get2 (set2 m i j x) i j = x.
Proof.
  intros Hi Hj. unfold get2, set2, at_num.
  rewrite nth_set_nth_eq by exact Hi.
  apply nth_set_nth_eq. exact Hj.
Qed.

Lemma get2_set2_other_column (m : list (list num)) (i j k : nat) (x : num) :
  (i < List.length m)%nat -> k <> j ->
  get2 (set2 m i j x) i k = get2 m i k.
Proof.
  intros Hi Hk. unfold get2, set2, at_num.
  rewrite nth_set_nth_eq by exact Hi.
  apply nth_set_nth_neq. exact Hk.
Qed.

Lemma row_set2_other (m : list (list num)) (i j k : nat) (x : num) :
  k <> i -> nth k (set2 m i j x) [] = nth k m [].
Proof.
  intros Hk. unfold set2. apply nth_set_nth_neq. exact Hk.
Qed.

Lemma row_set2_length (m : list (list num)) (i j k : nat) (x : num) :
  List.length (nth k (set2 m i j x) []) = List.length (nth k m []).
Proof.
  unfold set2. destruct (Nat.eq_dec k i) as [->|Hk].
  - destruct (Nat.lt_ge_cases i (List.length m)) as [Hi|Hi].
    + rewrite nth_set_nth_eq by exact Hi. apply set_nth_length.
    + rewrite !nth_overflow; auto. rewrite set_nth_length. exact Hi.
  - rewrite nth_set_nth_neq by exact Hk. reflexivity.
Qed.

Lemma set2_length (m : list (list num)) (i j : nat) (x : num) :
  List.length (set2 m i j x) = List.length m.
Proof. apply set_nth_length. Qed.

Lemma scoreStep_eq (clock : nat -> R) (pids : list string) (i : nat)
  (m : list (list num)) (t : nat) (e : Interaction) :
  scoreStep clock pids i (m, t) e
  = match columnOf pids e with
    | None => (m, t)
    | Some j =>
        (set2 m i j (Math_max (get2 m i j) (eventScore (clock t) e)), S t)
    end.
Proof. reflexivity. Qed.

(** The shape of the matrix is kept by the loop over one user's history,
    and only row [i] changes. *)
Lemma history_loop_frame (clock : nat -> R) (pids : list string) (i : nat)
  (h : list Interaction) (m : list (list num)) (t : nat) :
  List.length (fst (fold_left (scoreStep clock pids i) h (m, t)))
  = List.length m
  /\ (forall k,
        List.length
          (nth k (fst (fold_left (scoreStep clock pids i) h (m, t))) [])
        = List.length (nth k m []))
  /\ (forall k, k <> i ->
        nth k (fst (fold_left (scoreStep clock pids i) h (m, t))) []
        = nth k m []).
Proof.
  revert m t; induction h as [|e h IH]; intros m t.
  - simpl. auto.
  - cbn [fold_left]. rewrite scoreStep_eq.
    destruct (columnOf pids e) as [j|]; [|apply IH].
    destruct (IH (set2 m i j
      (Math_max (get2 m i j) (eventScore (clock t) e))) (S t))
      as (H1 & H2 & H3).
    split; [|split].
    + rewrite H1. apply set2_length.
    + intros k. rewrite H2. apply row_set2_length.
    + intros k Hk. rewrite H3 by exact Hk. apply row_set2_other. exact Hk.
Qed.

Lemma history_loop_cell (clock : nat -> R) (now : R) (pids : list string)
  (i j : nat) (h : list Interaction) (m : list (list num)) (t : nat) :
  (forall n, clock n = now) ->
  (i < List.length m)%nat ->
  List.length (nth i m []) = List.length pids ->
  get2 (fst (fold_left (scoreStep clock pids i) h (m, t))) i j
  = fold_left (cellStep now pids j) h (get2 m i j).
Proof.
  intros Hclock. revert m t; induction h as [|e h IH]; intros m t Hi Hrow.
  - reflexivity.
  - cbn [fold_left]. rewrite scoreStep_eq. unfold cellStep at 2.
    destruct (columnOf pids e) as [k|] eqn:Ek.
    + rewrite IH.
      * f_equal. rewrite Hclock.
        destruct (Nat.eqb_spec k j) as [->|Hkj].
        -- apply get2_set2_same; auto. rewrite Hrow.
           apply columnOf_lt with (e := e). exact Ek.
        -- apply get2_set2_other_column; auto.
      * rewrite set2_length. exact Hi.
      * rewrite row_set2_length. exact Hrow.
    + apply IH; auto.
Qed.

Lemma users_loop_frame (clock : nat -> R) (pids : list string)
  (users : list User) (i0 : nat) (m : list (list num)) (t : nat) :
  List.length (fst (reduce_from (historyStep clock pids) users i0 (m, t)))
  = List.length m
  /\ (forall k,
        List.length
          (nth k (fst (reduce_from (historyStep clock pids) users i0 (m, t))) [])
        = List.length (nth k m []))
  /\ (forall k, (k < i0)%nat ->
        nth k (fst (reduce_from (historyStep clock pids) users i0 (m, t))) []
        = nth k m []).
Proof.
  revert i0 m t; induction users as [|u us IH]; intros i0 m t.
  - simpl. auto.
  - cbn [reduce_from]. unfold historyStep at 2 4 6.
    destruct (history_loop_frame clock pids i0 (historyOf u) m t)
      as (F1 & F2 & F3).
    destruct (fold_left (scoreStep clock pids i0) (historyOf u) (m, t))
      as [m' t'].
    cbn [fst] in F1, F2, F3.
    destruct (IH (S i0) m' t') as (H1 & H2 & H3).
    split; [|split].
    + congruence.
    + intros k. rewrite H2. apply F2.
    + intros k Hk. rewrite H3 by lia. apply F3. lia.
Qed.

Lemma users_loop_cell (clock : nat -> R) (now : R) (pids : list string)
  (users : list User) (i0 : nat) (m : list (list num)) (t : nat)
  (i j : nat) (u : User) :
  (forall n, clock n = now) ->
  (i < List.length m)%nat ->
  List.length (nth i m []) = List.length pids ->
  (i0 <= i)%nat ->
  nth_error users (i - i0) = Some u ->
  get2 (fst (reduce_from (historyStep clock pids) users i0 (m, t))) i j
  = fold_left (cellStep now pids j) (historyOf u) (get2 m i j).
Proof.
  intros Hclock. revert i0 m t; induction users as [|v us IH];
    intros i0 m t Hi Hrow Hle Hu.
  - destruct (i - i0)%nat; discriminate.
  - cbn [reduce_from]. unfold historyStep at 2.
    pose proof (history_loop_frame clock pids i0 (historyOf v) m t)
      as (F1 & F2 & F3).
    pose proof (history_loop_cell clock now pids i0 j (historyOf v) m t Hclock)
      as Hcell.
    destruct (fold_left (scoreStep clock pids i0) (historyOf v) (m, t))
      as [m' t'].
    cbn [fst] in F1, F2, F3, Hcell.
    destruct (Nat.eq_dec i i0) as [->|Hne].
    + rewrite Nat.sub_diag in Hu. injection Hu as ->.
      destruct (users_loop_frame clock pids us (S i0) m' t') as (_ & _ & H3).
      unfold get2 at 1. rewrite H3 by lia.
      apply Hcell; auto.
    + replace (i - i0)%nat with (S (i - S i0)) in Hu by lia.
      rewrite (IH (S i0) m' t'); try lia; auto.
      * unfold get2. rewrite F3 by exact Hne. reflexivity.
      * rewrite F2. exact Hrow.
Qed.

Lemma zeros_cell (rows cols i j : nat) :
  (i < rows)%nat -> (j < cols)%nat ->
  get2 (repeat (repeat (Fin 0) cols) rows) i j = Fin 0.
Proof.
  intros Hi Hj. unfold get2, at_num.
  rewrite (nth_indep _ [] (repeat (Fin 0) cols)) by (rewrite repeat_length; lia).
  rewrite nth_repeat.
  rewrite (nth_indep _ NaN (Fin 0)) by (rewrite repeat_length; lia).
  apply nth_repeat.
Qed.

(** The cell of user [i] and column [j] is the fold of the user's history. *)
Lemma filledMatrix_cell (clock : nat -> R) (now : R)
  (users : list User) (pids : list string) (i j : nat) (u : User) :
  (forall n, clock n = now) ->
  nth_error users i = Some u ->
  (j < List.length pids)%nat ->
  get2 (filledMatrix clock users pids) i j
  = fold_left (cellStep now pids j) (historyOf u) (Fin 0).
Proof.
  intros Hclock Hu Hj.
  assert (Hi : (i < List.length users)%nat)
    by (apply nth_error_Some; congruence).
  unfold filledMatrix, reduce.
  rewrite (users_loop_cell clock now pids users 0 _ 0 i j u); auto.
  - rewrite zeros_cell; auto.
  - rewrite repeat_length. exact Hi.
  - rewrite (nth_indep _ [] (repeat (Fin 0) (List.length pids)))
      by (rewrite repeat_length; lia).
    rewrite nth_repeat. apply repeat_length.
  - lia.
  - rewrite Nat.sub_0_r. exact Hu.
Qed.

Lemma div_const (x c : R) : c <> 0 -> div (Fin x) (Fin c) = Fin (x / c).
Proof.
  intros Hc. unfold div. destruct (Req_dec_T c 0); [contradiction|reflexivity].
Qed.

Lemma calculateRecencyScore_days (now timestamp : R) :
  calculateRecencyScore now timestamp = exp (- days_since now timestamp / 30).
Proof.
  unfold calculateRecencyScore, days_since. f_equal. f_equal. f_equal.
  f_equal. lra.
Qed.

(** With a duration present, the score of an event is the real number of
    the specification's formula. *)
Lemma eventScore_finite (now d : R) (e : Interaction) :
  i_duration e = Some d ->
  eventScore now e = Fin (interaction_score now (i_timestamp e) d).
Proof.
  intros Hd. unfold eventScore, interaction_score. rewrite Hd. cbn [of_option].
  rewrite div_const by lra. cbn [Math_min].
  rewrite div_const by lra. cbn [mul add].
  rewrite calculateRecencyScore_days. reflexivity.
Qed.

(** An event without a duration scores [NaN]. *)
Lemma eventScore_undefined_duration (now : R) (e : Interaction) :
  i_duration e = None -> eventScore now e = NaN.
Proof.
  intros Hd. unfold eventScore. rewrite Hd. reflexivity.
Qed.

Lemma cellStep_events_for (now : R) (pids : list string) (p : string)
  (j : nat) (h : list Interaction) (c : num) :
  indexOf pids p = Some j ->
  fold_left (cellStep now pids j) h c
  = fold_left (fun c e => Math_max c (eventScore now e)) (events_for p h) c.
Proof.
  intros Hp. revert c; induction h as [|e h IH]; intros c; simpl.
  - reflexivity.
  - unfold cellStep at 2, columnOf.
    destruct (i_productId e) as [q|]; [|apply IH].
    destruct (String.eqb_spec q p) as [->|Hne].
    + rewrite Hp, Nat.eqb_refl. simpl. apply IH.
    + destruct (indexOf pids q) as [k|] eqn:Ek; [|apply IH].
      destruct (Nat.eqb_spec k j) as [->|Hkj]; [|apply IH].
      exfalso. apply Hne. eapply indexOf_same_column; eauto.
Qed.

(** The running maximum over events with non-negative scores. *)
Lemma max_fold (now : R) (evs : list Interaction) (c0 : R) :
  (forall e, In e evs -> exists d, i_duration e = Some d /\ 0 <= d) ->
  exists m,
    fold_left (fun c e => Math_max c (eventScore now e)) evs (Fin c0) = Fin m
    /\ c0 <= m
    /\ (forall e d, In e evs -> i_duration e = Some d ->
          interaction_score now (i_timestamp e) d <= m)
    /\ (m = c0
        \/ exists e d, In e evs /\ i_duration e = Some d
             /\ m = interaction_score now (i_timestamp e) d).
Proof.
  revert c0; induction evs as [|e evs IH]; intros c0 Hd; simpl.
  - exists c0. repeat split; auto; try lra. intros e d [].
  - destruct (Hd e (or_introl eq_refl)) as (d & Hed & Hd0).
    rewrite (eventScore_finite now d e Hed). cbn [Math_max].
    destruct (IH (Rmax c0 (interaction_score now (i_timestamp e) d)))
      as (m & Hm & Hle & Hub & Hatt).
    { intros e' He'. apply Hd. right. exact He'. }
    exists m. split; [exact Hm|].
    pose proof (Rmax_l c0 (interaction_score now (i_timestamp e) d)) as Hl.
    pose proof (Rmax_r c0 (interaction_score now (i_timestamp e) d)) as Hr.
    split; [lra|]. split.
    + intros e' d' [<-|He'] Hd'.
      * assert (d' = d) by congruence. subst d'. lra.
      * eapply Hub; eauto.
    + destruct Hatt as [Hatt|(e' & d' & He' & Hd' & Hatt)].
      * destruct (Rmax_case c0 (interaction_score now (i_timestamp e) d)
                    (fun r => r = c0
                       \/ r = interaction_score now (i_timestamp e) d));
          auto.
        -- left. congruence.
        -- right. exists e, d. repeat split; auto. congruence.
      * right. exists e', d'. auto.
Qed.

Lemma interaction_score_pos (now timestamp d : R) :
  0 <= d -> 0 < interaction_score now timestamp d.
Proof.
  intros Hd. unfold interaction_score.
  pose proof (exp_pos (- days_since now timestamp / 30)) as He.
  assert (0 <= Rmin (d / 60) 10).
  { apply Rmin_glb; lra. }
  lra.
Qed.

(** Over a non-empty list of events the running maximum from 0 is the
    greatest score, and an event attains it. *)
Lemma max_fold_attained (now : R) (evs : list Interaction) :
  (forall e, In e evs -> exists d, i_duration e = Some d /\ 0 <= d) ->
  evs <> [] ->
  exists e d,
    In e evs /\ i_duration e = Some d
    /\ fold_left (fun c e => Math_max c (eventScore now e)) evs (Fin 0)
       = Fin (interaction_score now (i_timestamp e) d)
    /\ forall e' d',
         In e' evs -> i_duration e' = Some d' ->
         interaction_score now (i_timestamp e') d'
         <= interaction_score now (i_timestamp e) d.
Proof.
  intros Hdur Hne.
  destruct (max_fold now evs 0 Hdur) as (m & Hm & Hle & Hub & Hatt).
  destruct Hatt as [H0|(e & d & He & Hed & Hmd)].
  - destruct evs as [|e evs]; [contradiction|].
    destruct (Hdur e (or_introl eq_refl)) as (d & Hed & Hd0).
    pose proof (Hub e d (or_introl eq_refl) Hed).
    pose proof (interaction_score_pos now (i_timestamp e) d Hd0). lra.
  - exists e, d. repeat split; auto.
    + congruence.
    + intros e' d' He' Hd'. rewrite <- Hmd. eapply Hub; eauto.
Qed.

(** *** Entries with and without a productId *)

Lemma scoreInteraction_identified (clock : nat -> R) (pids : list string)
  (i : nat) (st : list (list num) * nat) (e : Interaction) :
  identified e ->
  scoreInteraction clock pids i st e = Ok (scoreStep clock pids i st e).
Proof.
  unfold identified, scoreInteraction, scoreStep, columnOf, eventScore.
  destruct st as [m t]. destruct (i_productId e) as [p|]; [|congruence].
  intros _. destruct (indexOf pids p); reflexivity.
Qed.

Lemma history_loop_identified (clock : nat -> R) (pids : list string)
  (i : nat) (h : list Interaction) (st : list (list num) * nat) :
  (forall e, In e h -> identified e) ->
  forOf (scoreInteraction clock pids i) h st
  = Ok (fold_left (scoreStep clock pids i) h st).
Proof.
  revert st; induction h as [|e h IH]; intros st Hid; [reflexivity|].
  cbn [forOf fold_left].
  rewrite scoreInteraction_identified by (apply Hid; left; reflexivity).
  cbn [bind]. apply IH. intros e' He'. apply Hid. right. exact He'.
Qed.

Lemma users_loop_identified (clock : nat -> R) (pids : list string)
  (users : list User) (i : nat) (st : list (list num) * nat) :
  (forall u e, In u users -> In e (historyOf u) -> identified e) ->
  forIndex (usersLoop clock pids) users i st
  = Ok (reduce_from (historyStep clock pids) users i st).
Proof.
  revert i st; induction users as [|u users IH]; intros i st Hid;
    [reflexivity|].
  cbn [forIndex reduce_from]. unfold usersLoop at 1.
  rewrite history_loop_identified
    by (intros e He; apply (Hid u e); [left; reflexivity|exact He]).
  cbn [bind]. unfold historyStep at 2. apply IH.
  intros u' e Hu' He. apply (Hid u' e); [right; exact Hu'|exact He].
Qed.

(** When every entry carries a productId the loops do not throw. *)
Lemma interactionMatrix_identified (clock : nat -> R) (users : list User)
  (pids : list string) :
  (forall u e, In u users -> In e (historyOf u) -> identified e) ->
  interactionMatrix clock users pids = Ok (filledMatrix clock users pids).
Proof.
  intros Hid. unfold interactionMatrix, filledMatrix, reduce.
  rewrite users_loop_identified by exact Hid. reflexivity.
Qed.

Lemma scoreInteraction_throws (clock : nat -> R) (pids : list string)
  (i : nat) (st : list (list num) * nat) (e : Interaction) (x : exn) :
  scoreInteraction clock pids i st e = Throw x ->
  x = TypeError /\ i_productId e = None.
Proof.
  unfold scoreInteraction. destruct st as [m t].
  destruct (i_productId e) as [p|].
  - destruct (indexOf pids p); discriminate.
  - intros [= <-]. auto.
Qed.

Lemma history_loop_outcome (clock : nat -> R) (pids : list string)
  (i : nat) (h : list Interaction) (st : list (list num) * nat) :
  ((forall e, In e h -> identified e)
   /\ forOf (scoreInteraction clock pids i) h st
      = Ok (fold_left (scoreStep clock pids i) h st))
  \/ ((exists e, In e h /\ i_productId e = None)
      /\ forOf (scoreInteraction clock pids i) h st = Throw TypeError).
Proof.
  revert st; induction h as [|e h IH]; intros st.
  - left. split; [intros e []|reflexivity].
  - cbn [forOf fold_left].
    destruct (scoreInteraction clock pids i st e) as [st'|x] eqn:E.
    + assert (He : identified e).
      { unfold identified. intros Hnone. unfold scoreInteraction in E.
        destruct st as [m t]. rewrite Hnone in E. discriminate. }
      rewrite (scoreInteraction_identified _ _ _ _ _ He) in E.
      injection E as <-. cbn [bind].
      destruct (IH (scoreStep clock pids i st e))
        as [(Hid & ->)|((e' & He' & Hnone) & ->)].
      * left. split; [|reflexivity].
        intros e' [<-|He']; [exact He|apply Hid; exact He'].
      * right. split; [|reflexivity]. exists e'. split; [right|]; assumption.
    + apply scoreInteraction_throws in E. destruct E as (-> & Hnone).
      right. split; [|reflexivity]. exists e. split; [left; reflexivity|].
      exact Hnone.
Qed.

Lemma users_loop_outcome (clock : nat -> R) (pids : list string)
  (users : list User) (i : nat) (st : list (list num) * nat) :
  ((forall u e, In u users -> In e (historyOf u) -> identified e)
   /\ forIndex (usersLoop clock pids) users i st
      = Ok (reduce_from (historyStep clock pids) users i st))
  \/ ((exists u e, In u users /\ In e (historyOf u) /\ i_productId e = None)
      /\ forIndex (usersLoop clock pids) users i st = Throw TypeError).
Proof.
  revert i st; induction users as [|u users IH]; intros i st.
  - left. split; [intros u e []|reflexivity].
  - cbn [forIndex reduce_from]. unfold usersLoop at 1 3.
    destruct (history_loop_outcome clock pids i (historyOf u) st)
      as [(Hid & ->)|((e & He & Hnone) & ->)].
    + cbn [bind]. unfold historyStep at 2.
      destruct (IH (S i) (fold_left (scoreStep clock pids i) (historyOf u) st))
        as [(Hids & ->)|((u' & e & Hu' & He & Hnone) & ->)].
      * left. split; [|reflexivity].
        intros u' e [<-|Hu'] He; [apply Hid; exact He|eapply Hids; eauto].
      * right. split; [|reflexivity]. exists u', e.
        split; [right; exact Hu'|]. auto.
    + right. split; [|reflexivity]. exists u, e.
      split; [left; reflexivity|]. auto.
Qed.

(** The loops end in one of two ways: the matrix of the entries, all of
    which carry a productId, or the [TypeError] of an entry without one. *)
Lemma interactionMatrix_outcome (clock : nat -> R) (users : list User)
  (pids : list string) :
  ((forall u e, In u users -> In e (historyOf u) -> identified e)
   /\ interactionMatrix clock users pids
      = Ok (filledMatrix clock users pids))
  \/ ((exists u e, In u users /\ In e (historyOf u) /\ i_productId e = None)
      /\ interactionMatrix clock users pids = Throw TypeError).
Proof.
  unfold interactionMatrix, filledMatrix, reduce.
  destruct (users_loop_outcome clock pids users 0
              (repeat (repeat (Fin 0) (List.length pids)) (List.length users),
               0%nat))
    as [(Hid & ->)|(Hex & ->)].
  - left. split; [exact Hid|reflexivity].
  - right. split; [exact Hex|reflexivity].
Qed.

(** The state that a successful build stores. *)
Lemma loadUserItemMatrix_identified (store : Store) (clock : nat -> R)
  (this : Engine) (users : list User) (products : list Product) :
  User_find_active store = Ok users ->
  Product_find_active store = Ok products ->
  (forall u e, In u users -> In e (historyOf u) -> identified e) ->
  loadUserItemMatrix store clock this
  = Ok {| userItemMatrix :=
            Some {| matrix := filledMatrix clock users (map p_id products);
                    userIds := map u_id users;
                    productIds := map p_id products |};
          productEmbeddings := productEmbeddings this;
          userEmbeddings := userEmbeddings this;
          isInitialized := isInitialized this |}.
Proof.
  intros Hus Hps Hid. unfold loadUserItemMatrix. rewrite Hus, Hps.
  cbn [bind]. rewrite (interactionMatrix_identified _ _ _ Hid). reflexivity.
Qed.

(** C1. The cell that [loadUserItemMatrix] builds for a user and a product
    is the maximum, over the user's stored events for that product, of
    [exp(-days_since_event/30)*0.7 + (min(duration/60,10)/10)*0.3]: no event
    of the product scores more and one of them scores exactly the cell (the
    cell is 0 when the user has no event for the product).  A single event
    stamped with the build time and lasting 120 seconds gives 0.76.  The
    clock reads [now] during the build, every stored entry carries a
    productId (the build stores no matrix otherwise), and the events of the
    product carry a duration, a non-negative number of seconds. *)
Theorem loadUserItemMatrix_cell_is_max
  (store : Store) (clock : nat -> R) (this : Engine) (now : R)
  (users : list User) (products : list Product)
  (i j : nat) (u : User) (p : string) :
  User_find_active store = Ok users ->
  Product_find_active store = Ok products ->
  (forall n, clock n = now) ->
  (forall v e, In v users -> In e (historyOf v) -> identified e) ->
  nth_error users i = Some u ->
  indexOf (map p_id products) p = Some j ->
  (forall e, In e (events_for p (historyOf u)) ->
     exists d, i_duration e = Some d /\ 0 <= d) ->
  exists this' M,
    loadUserItemMatrix store clock this = Ok this'
    /\ userItemMatrix this' = Some M
    /\ userIds M = map u_id users
    /\ productIds M = map p_id products
    /\ (events_for p (historyOf u) = [] -> get2 (matrix M) i j = Fin 0)
    /\ (events_for p (historyOf u) <> [] ->
        exists e d,
          In e (events_for p (historyOf u)) /\ i_duration e = Some d
          /\ get2 (matrix M) i j
             = Fin (interaction_score now (i_timestamp e) d)
          /\ forall e' d',
               In e' (events_for p (historyOf u)) -> i_duration e' = Some d' ->
               interaction_score now (i_timestamp e') d'
               <= interaction_score now (i_timestamp e) d)
    /\ (historyOf u
        = [ {| i_productId := Some p; i_timestamp := now;
               i_duration := Some 120 |} ]
        -> get2 (matrix M) i j = Fin 0.76).
Proof.
  intros Hus Hps Hclock Hid Hu Hp Hdur.
  rewrite (loadUserItemMatrix_identified store clock this users products)
    by assumption.
  eexists; eexists. split; [reflexivity|]. cbn [userItemMatrix].
  split; [reflexivity|]. cbn [userIds productIds matrix].
  split; [reflexivity|]. split; [reflexivity|].
  pose proof (indexOf_lt _ _ _ Hp) as Hj.
  rewrite (filledMatrix_cell clock now users _ i j u Hclock Hu Hj).
  rewrite (cellStep_events_for now _ p j _ _ Hp).
  split; [|split].
  - intros Hnil. rewrite Hnil. reflexivity.
  - intros Hne.
    destruct (max_fold_attained now _ Hdur Hne) as (e & d & He & Hed & Hm & Hub).
    exists e, d. auto.
  - intros Hh.
    assert (Hne : events_for p (historyOf u) <> []).
    { rewrite Hh. simpl. rewrite String.eqb_refl. discriminate. }
    destruct (max_fold_attained now _ Hdur Hne) as (e & d & He & Hed & Hm & _).
    rewrite Hm. rewrite Hh in He. simpl in He. rewrite String.eqb_refl in He.
    destruct He as [<-|[]]. simpl in Hed. injection Hed as <-. simpl.
    f_equal. unfold interaction_score, days_since.
    replace (- ((now - now) / 86400000) / 30) with 0 by lra.
    rewrite exp_0.
    replace (Rmin (120 / 60) 10) with (120 / 60).
    + lra.
    + symmetry. apply Rmin_left. lra.
Qed.

Lemma loadUserItemMatrix_cell_is_max_witness :
  exists this' M,
    loadUserItemMatrix
      (memoryStore [userWithHistory "U" [viewOf "P1" 1000 120]]
         [sampleProduct "P1"] [])
      (fun _ => 1000) newEngine = Ok this'
    /\ userItemMatrix this' = Some M
    /\ get2 (matrix M) 0 0 = Fin 0.76.
Proof.
  destruct (loadUserItemMatrix_cell_is_max
              (memoryStore [userWithHistory "U" [viewOf "P1" 1000 120]]
                 [sampleProduct "P1"] [])
              (fun _ => 1000) newEngine 1000
              [userWithHistory "U" [viewOf "P1" 1000 120]]
              [sampleProduct "P1"] 0 0
              (userWithHistory "U" [viewOf "P1" 1000 120]) "P1")
    as (this' & M & H1 & H2 & _ & _ & _ & _ & H7).
  - reflexivity.
  - reflexivity.
  - reflexivity.
  - intros v e [<-|[]] [<-|[]]. discriminate.
  - reflexivity.
  - reflexivity.
  - simpl. intros e [<-|[]]. exists 120. split; [reflexivity|lra].
  - exists this', M. split; [exact H1|]. split; [exact H2|].
    apply H7. reflexivity.
Defined.

(** ** Interaction scores *)

Lemma Forall_set_nth {A : Type} (P : A -> Prop) (l : list A) (i : nat) (x : A) :
  Forall P l -> ((i < List.length l)%nat -> P x) -> Forall P (set_nth l i x).
Proof.
  intros Hl. revert i; induction Hl as [|y t Hy Ht IH]; intros [|i] Hx; simpl.
  - constructor.
  - constructor.
  - constructor; auto. apply Hx. simpl. lia.
  - constructor; auto. apply IH. intros Hi. apply Hx. simpl. lia.
Qed.

Lemma Forall_nth_default {A : Type} (P : A -> Prop) (l : list A) (i : nat)
  (d : A) :
  Forall P l -> (i < List.length l)%nat -> P (nth i l d).
Proof.
  intros Hl Hi. rewrite Forall_forall in Hl. apply Hl. apply nth_In. exact Hi.
Qed.

Lemma calculateRecencyScore_le_1 (now timestamp : R) :
  timestamp <= now -> 0 < calculateRecencyScore now timestamp <= 1.
Proof.
  intros Hle. rewrite calculateRecencyScore_days. split; [apply exp_pos|].
  rewrite <- exp_0.
  assert (H : - days_since now timestamp / 30 <= 0).
  { unfold days_since. lra. }
  destruct H as [H|H].
  - left. apply exp_increasing. exact H.
  - rewrite H. right. reflexivity.
Qed.

Lemma eventScore_le_1 (now d : R) (e : Interaction) :
  i_duration e = Some d -> i_timestamp e <= now ->
  exists s, eventScore now e = Fin s /\ s <= 1.
Proof.
  intros Hd Ht. rewrite (eventScore_finite now d e Hd).
  eexists; split; [reflexivity|].
  unfold interaction_score. rewrite <- calculateRecencyScore_days.
  pose proof (calculateRecencyScore_le_1 now (i_timestamp e) Ht).
  pose proof (Rmin_r (d / 60) 10). lra.
Qed.

Lemma Math_max_unit (c s : num) (x : R) :
  unit_cell c -> s = Fin x -> x <= 1 -> unit_cell (Math_max c s).
Proof.
  intros (y & -> & Hy) -> Hx. exists (Rmax y x). split; [reflexivity|].
  split.
  - pose proof (Rmax_l y x). lra.
  - apply Rmax_lub; lra.
Qed.

Lemma scoreStep_unit (clock : nat -> R) (pids : list string) (i : nat)
  (m : list (list num)) (t : nat) (e : Interaction) :
  (exists d, i_duration e = Some d) ->
  (forall n, i_timestamp e <= clock n) ->
  Forall (Forall unit_cell) m ->
  Forall (Forall unit_cell) (fst (scoreStep clock pids i (m, t) e)).
Proof.
  intros (d & Hd) Ht Hm. rewrite scoreStep_eq.
  destruct (columnOf pids e) as [j|]; [|exact Hm].
  cbn [fst]. unfold set2. apply Forall_set_nth; [exact Hm|].
  intros Hi. apply Forall_set_nth.
  - apply Forall_nth_default; auto.
  - intros Hj.
    destruct (eventScore_le_1 (clock t) d e Hd (Ht t)) as (s & Hs & Hs1).
    eapply Math_max_unit; eauto.
    unfold get2, at_num. apply Forall_nth_default; auto.
    apply Forall_nth_default; auto.
Qed.

Lemma history_loop_unit (clock : nat -> R) (pids : list string) (i : nat)
  (h : list Interaction) (m : list (list num)) (t : nat) :
  (forall e, In e h ->
     (exists d, i_duration e = Some d) /\ forall n, i_timestamp e <= clock n) ->
  Forall (Forall unit_cell) m ->
  Forall (Forall unit_cell)
    (fst (fold_left (scoreStep clock pids i) h (m, t))).
Proof.
  revert m t; induction h as [|e h IH]; intros m t Hev Hm.
  - exact Hm.
  - cbn [fold_left].
    pose proof (scoreStep_unit clock pids i m t e) as Hstep.
    destruct (scoreStep clock pids i (m, t) e) as [m' t'].
    apply IH.
    + intros e' He'. apply Hev. right. exact He'.
    + apply Hstep; auto; apply (Hev e); left; reflexivity.
Qed.

Lemma users_loop_unit (clock : nat -> R) (pids : list string)
  (users : list User) (i0 : nat) (m : list (list num)) (t : nat) :
  (forall u e, In u users -> In e (historyOf u) ->
     (exists d, i_duration e = Some d) /\ forall n, i_timestamp e <= clock n) ->
  Forall (Forall unit_cell) m ->
  Forall (Forall unit_cell)
    (fst (reduce_from (historyStep clock pids) users i0 (m, t))).
Proof.
  revert i0 m t; induction users as [|u us IH]; intros i0 m t Hev Hm.
  - exact Hm.
  - cbn [reduce_from]. unfold historyStep at 2.
    pose proof (history_loop_unit clock pids i0 (historyOf u) m t) as Hu.
    destruct (fold_left (scoreStep clock pids i0) (historyOf u) (m, t))
      as [m' t'].
    apply IH.
    + intros u' e Hu' He. apply (Hev u'); auto. right. exact Hu'.
    + apply Hu; auto. intros e He. apply (Hev u); auto. left. reflexivity.
Qed.

(** When every stored event carries a duration and is stamped no later
    than the clock reads during the build, every cell is in [0,1]. *)
Lemma filledMatrix_unit_interval (clock : nat -> R) (users : list User)
  (pids : list string) :
  (forall u e, In u users -> In e (historyOf u) ->
     (exists d, i_duration e = Some d) /\ forall n, i_timestamp e <= clock n) ->
  Forall (Forall unit_cell) (filledMatrix clock users pids).
Proof.
  intros Hev. unfold filledMatrix, reduce.
  apply users_loop_unit; [exact Hev|].
  apply Forall_forall. intros r Hr. apply repeat_spec in Hr. subst r.
  apply Forall_forall. intros c Hc. apply repeat_spec in Hc. subst c.
  exists 0. split; [reflexivity|lra].
Qed.

(** C9. An event stored without a duration (the schema leaves it optional)
    puts [NaN] in the matrix, which is no number of [0,1]: with one user who
    viewed product P1 at the build time, no duration recorded, the only cell
    of the matrix is [NaN]. *)
Theorem loadUserItemMatrix_missing_duration
  : exists this' M,
      loadUserItemMatrix
        (memoryStore [userWithHistory "U" [viewWithoutDuration "P1" 1000]]
           [sampleProduct "P1"] [])
        (fun _ => 1000) newEngine = Ok this'
      /\ userItemMatrix this' = Some M
      /\ matrix M = [[NaN]]
      /\ ~ unit_cell (get2 (matrix M) 0 0).
Proof.
  eexists; eexists. split; [reflexivity|]. split; [reflexivity|].
  split; [reflexivity|].
  intros (x & Hx & _). discriminate Hx.
Qed.

(** ** Cosine similarity *)

Lemma num_add_comm (a b : num) : add a b = add b a.
Proof. destruct a, b; simpl; auto. f_equal. lra. Qed.

Lemma num_add_assoc (a b c : num) : add a (add b c) = add (add a b) c.
Proof. destruct a, b, c; simpl; auto. f_equal. lra. Qed.

Lemma num_mul_comm (a b : num) : mul a b = mul b a.
Proof. destruct a, b; simpl; auto. f_equal. lra. Qed.

(** The dot product that [reduce] computes with [vectorB[i]] is the sum
    over the pairs of components when the lengths agree. *)
Lemma dot_reduce_combine (a b pre : list num) (acc : num) :
  List.length a = List.length b ->
  reduce_from (fun sum x i => add sum (mul x (at_num (pre ++ b) i))) a
    (List.length pre) acc
  = fold_left zipStep (combine a b) acc.
Proof.
  revert b pre acc; induction a as [|x a IH]; intros [|y b] pre acc Hlen;
    simpl in *; try discriminate; auto.
  unfold at_num at 2. rewrite nth_middle.
  replace (pre ++ y :: b) with ((pre ++ [y]) ++ b)
    by (rewrite <- app_assoc; reflexivity).
  replace (S (List.length pre)) with (List.length (pre ++ [y]))
    by (rewrite length_app; simpl; lia).
  rewrite IH by lia. reflexivity.
Qed.

Lemma zip_fold_sym (a b : list num) (acc : num) :
  fold_left zipStep (combine a b) acc = fold_left zipStep (combine b a) acc.
Proof.
  revert b acc; induction a as [|x a IH]; intros [|y b] acc; simpl; auto.
  rewrite IH. unfold zipStep at 2 4. simpl. rewrite (num_mul_comm x y).
  reflexivity.
Qed.

Lemma dot_product_sym (a b : list num) :
  List.length a = List.length b ->
  reduce (fun sum x i => add sum (mul x (at_num b i))) (Fin 0) a
  = reduce (fun sum x i => add sum (mul x (at_num a i))) (Fin 0) b.
Proof.
  intros Hlen. unfold reduce.
  pose proof (dot_reduce_combine a b [] (Fin 0) Hlen) as Hab.
  pose proof (dot_reduce_combine b a [] (Fin 0) (eq_sym Hlen)) as Hba.
  simpl in Hab, Hba. rewrite Hab, Hba.
  apply zip_fold_sym.
Qed.

Lemma squares_reduce (v : list num) (i : nat) (acc : num) :
  reduce_from (fun sum x _ => add sum (mul x x)) v i acc
  = add acc (fold_right (fun x s => add (mul x x) s) (Fin 0) v).
Proof.
  revert i acc; induction v as [|x v IH]; intros i acc; simpl.
  - destruct acc; simpl; auto. f_equal. lra.
  - rewrite IH. rewrite num_add_assoc. reflexivity.
Qed.

Lemma magnitude_l2_norm (v : list num) :
  Math_sqrt (reduce (fun sum x _ => add sum (mul x x)) (Fin 0) v) = l2_norm v.
Proof.
  unfold reduce, l2_norm. rewrite squares_reduce. f_equal.
  destruct (fold_right _ _ v); simpl; auto. f_equal. lra.
Qed.

Lemma cosineSimilarity_eq (a b : list num) :
  cosineSimilarity a b
  = if strict_eq (l2_norm a) (Fin 0) || strict_eq (l2_norm b) (Fin 0)
    then Fin 0
    else div (reduce (fun sum x i => add sum (mul x (at_num b i))) (Fin 0) a)
           (mul (l2_norm a) (l2_norm b)).
Proof.
  unfold cosineSimilarity. rewrite !magnitude_l2_norm. reflexivity.
Qed.

Lemma zip_fold_dot_product (a b : list num) (acc : num) :
  List.length a = List.length b ->
  fold_left zipStep (combine a b) acc = add acc (dot_product a b).
Proof.
  revert b acc; induction a as [|x a IH]; intros [|y b] acc Hlen;
    simpl in *; try discriminate.
  - destruct acc; simpl; [reflexivity|]. f_equal. lra.
  - rewrite IH by congruence. unfold zipStep. cbn [fst snd].
    rewrite num_add_assoc. reflexivity.
Qed.

(** On vectors of the same length the code computes the cosine similarity
    of the specification. *)
Lemma cosineSimilarity_cosine (a b : list num) :
  List.length a = List.length b -> cosineSimilarity a b = cosine a b.
Proof.
  intros Hlen. rewrite cosineSimilarity_eq. unfold cosine.
  destruct (strict_eq (l2_norm a) (Fin 0) || strict_eq (l2_norm b) (Fin 0));
    [reflexivity|].
  f_equal. unfold reduce.
  pose proof (dot_reduce_combine a b [] (Fin 0) Hlen) as H. simpl in H.
  rewrite H, (zip_fold_dot_product a b (Fin 0) Hlen).
  destruct (dot_product a b); simpl; [reflexivity|]. f_equal. lra.
Qed.

Lemma strict_eq_refl (x : R) : strict_eq (Fin x) (Fin x) = true.
Proof. simpl. destruct (Req_dec_T x x); congruence. Qed.

Lemma zip_fold_finite (a b : list num) (x0 : R) :
  List.length a = List.length b -> Forall finite a -> Forall finite b ->
  finite (fold_left zipStep (combine a b) (Fin x0)).
Proof.
  intros Hlen Ha. revert b x0 Hlen; induction Ha as [|x a (x' & ->) Ha IH];
    intros [|y b] x0 Hlen Hb; simpl in *; try discriminate.
  - exists x0; reflexivity.
  - inversion Hb as [|? ? (y' & ->) Hb']; subst.
    unfold zipStep at 1. cbn [fst snd mul add]. apply IH; auto.
Qed.

Lemma l2_norm_finite (v : list num) :
  Forall finite v -> exists n, l2_norm v = Fin n /\ 0 <= n.
Proof.
  intros Hv. unfold l2_norm.
  assert (H : exists s, fold_right (fun x s => add (mul x x) s) (Fin 0) v
                        = Fin s /\ 0 <= s).
  { induction Hv as [|x v (x' & ->) Hv (s & Hs & Hs0)]; simpl.
    - exists 0. split; [reflexivity|lra].
    - rewrite Hs. simpl. eexists; split; [reflexivity|]. nra. }
  destruct H as (s & -> & Hs0). simpl.
  destruct (Rlt_dec s 0); [lra|].
  eexists; split; [reflexivity|]. apply sqrt_pos.
Qed.

(** C7. Cosine similarity is symmetric on vectors of equal length, and it
    is exactly 0 (a number, not [NaN]) as soon as one of the two vectors has
    zero L2 norm.  When moreover the components are numbers, so is the
    similarity, and [===] holds between the two results. *)
Theorem cosineSimilarity_symmetric_zero_norm (a b : list num) :
  (List.length a = List.length b ->
   cosineSimilarity a b = cosineSimilarity b a)
  /\ (l2_norm a = Fin 0 \/ l2_norm b = Fin 0 -> cosineSimilarity a b = Fin 0)
  /\ (List.length a = List.length b -> Forall finite a -> Forall finite b ->
      exists r, cosineSimilarity a b = Fin r
                /\ strict_eq (cosineSimilarity a b) (cosineSimilarity b a)
                   = true).
Proof.
  assert (Hsym : List.length a = List.length b ->
                 cosineSimilarity a b = cosineSimilarity b a).
  { intros Hlen. rewrite !cosineSimilarity_eq.
    rewrite (orb_comm (strict_eq (l2_norm b) (Fin 0))).
    rewrite (num_mul_comm (l2_norm b)).
    rewrite (dot_product_sym a b Hlen). reflexivity. }
  split; [exact Hsym|]. split.
  - intros Hz. rewrite cosineSimilarity_eq.
    destruct Hz as [-> | ->]; rewrite strict_eq_refl.
    + reflexivity.
    + rewrite orb_true_r. reflexivity.
  - intros Hlen Ha Hb.
    assert (Hfin : exists r, cosineSimilarity a b = Fin r).
    { rewrite cosineSimilarity_eq.
      destruct (l2_norm_finite a Ha) as (na & Hna & Hna0).
      destruct (l2_norm_finite b Hb) as (nb & Hnb & Hnb0).
      rewrite Hna, Hnb. simpl.
      destruct (Req_dec_T na 0) as [Hza|Hza]; simpl; [eexists; reflexivity|].
      destruct (Req_dec_T nb 0) as [Hzb|Hzb]; simpl; [eexists; reflexivity|].
      unfold reduce.
      pose proof (dot_reduce_combine a b [] (Fin 0) Hlen) as Hab.
      simpl in Hab. rewrite Hab.
      destruct (zip_fold_finite a b 0 Hlen Ha Hb) as (d & ->).
      simpl. destruct (Req_dec_T (na * nb) 0) as [Hz|Hz].
      - exfalso. apply Rmult_integral in Hz. tauto.
      - eexists; reflexivity. }
    destruct Hfin as (r & Hr). exists r. split; [exact Hr|].
    rewrite <- (Hsym Hlen), Hr. apply strict_eq_refl.
Qed.

Lemma cosineSimilarity_symmetric_zero_norm_witness :
  cosineSimilarity [Fin 1; Fin 2] [Fin 3; Fin 4]
  = cosineSimilarity [Fin 3; Fin 4] [Fin 1; Fin 2]
  /\ cosineSimilarity [Fin 0; Fin 0] [Fin 3; Fin 4] = Fin 0
  /\ exists r, cosineSimilarity [Fin 1; Fin 2] [Fin 3; Fin 4] = Fin r.
Proof.
  split; [|split].
  - apply (cosineSimilarity_symmetric_zero_norm [Fin 1; Fin 2] [Fin 3; Fin 4]).
    reflexivity.
  - apply (cosineSimilarity_symmetric_zero_norm [Fin 0; Fin 0] [Fin 3; Fin 4]).
    left. unfold l2_norm. simpl.
    replace (0 * 0 + (0 * 0 + 0)) with 0 by lra.
    destruct (Rlt_dec 0 0); [lra|]. rewrite sqrt_0. reflexivity.
  - destruct (cosineSimilarity_symmetric_zero_norm [Fin 1; Fin 2]
                [Fin 3; Fin 4]) as (_ & _ & H).
    destruct H as (r & Hr & _).
    + reflexivity.
    + repeat constructor; eexists; reflexivity.
    + repeat constructor; eexists; reflexivity.
    + exists r. exact Hr.
Defined.

(** ** Sorting *)

Section Sorting.

Context {A : Type} (key : A -> R).

Lemma insert_desc_perm (x : A) (l : list A) :
  Permutation (insert_desc key x l) (x :: l).
Proof.
  induction l as [|y t IH]; simpl.
  - reflexivity.
  - destruct (Rgt_dec (key y) (key x)).
    + rewrite IH. apply perm_swap.
    + reflexivity.
Qed.

Lemma sort_desc_perm (l : list A) : Permutation (sort_desc key l) l.
Proof.
  induction l as [|x l IH]; simpl.
  - reflexivity.
  - rewrite insert_desc_perm. constructor. exact IH.
Qed.

Lemma insert_desc_sorted (x : A) (l : list A) :
  StronglySorted (descending key) l ->
  StronglySorted (descending key) (insert_desc key x l).
Proof.
  induction 1 as [|y t Ht IH Hy]; simpl.
  - constructor; constructor.
  - destruct (Rgt_dec (key y) (key x)) as [Hgt|Hngt].
    + constructor; [exact IH|].
      rewrite Forall_forall in *. intros z Hz.
      apply (Permutation_in _ (insert_desc_perm x t)) in Hz.
      destruct Hz as [<-|Hz].
      * unfold descending. lra.
      * apply Hy. exact Hz.
    + constructor; [constructor; assumption|].
      constructor.
      * unfold descending. lra.
      * rewrite Forall_forall in *. intros z Hz.
        specialize (Hy z Hz). unfold descending in *. lra.
Qed.

Lemma sort_desc_sorted (l : list A) :
  StronglySorted (descending key) (sort_desc key l).
Proof.
  induction l as [|x l IH]; simpl.
  - constructor.
  - apply insert_desc_sorted. exact IH.
Qed.

(** Stability: the elements of a given key keep their order. *)
Lemma insert_desc_withScore (v : R) (x : A) (l : list A) :
  withScore key v (insert_desc key x l) = withScore key v (x :: l).
Proof.
  induction l as [|y t IH]; simpl.
  - reflexivity.
  - destruct (Rgt_dec (key y) (key x)) as [Hgt|Hngt]; [|reflexivity].
    unfold withScore in *. simpl in *. rewrite IH.
    destruct (Req_dec_T (key y) v), (Req_dec_T (key x) v); auto. lra.
Qed.

Lemma sort_desc_stable (v : R) (l : list A) :
  withScore key v (sort_desc key l) = withScore key v l.
Proof.
  induction l as [|x l IH]; simpl.
  - reflexivity.
  - rewrite insert_desc_withScore. unfold withScore in *. simpl.
    rewrite IH. reflexivity.
Qed.

Lemma sort_desc_In (x : A) (l : list A) : In x (sort_desc key l) <-> In x l.
Proof.
  split; apply Permutation_in; [|symmetry]; apply sort_desc_perm.
Qed.

End Sorting.

(** ** Maps *)

Section Maps.

Context {V : Type}.

Lemma Map_get_set (m : Map V) (k k' : string) (v : V) :
  Map_get (Map_set m k v) k' = if String.eqb k k' then Some v else Map_get m k'.
Proof.
  induction m as [|[k0 v0] t IH]; simpl.
  - reflexivity.
  - destruct (String.eqb_spec k0 k) as [->|Hne]; simpl.
    + destruct (String.eqb k k'); reflexivity.
    + rewrite IH. destruct (String.eqb_spec k0 k') as [->|Hne'].
      * destruct (String.eqb_spec k k'); [congruence|reflexivity].
      * reflexivity.
Qed.

Lemma Map_has_includes (m : Map V) (k : string) :
  Map_has m k = includes (Map_keys m) k.
Proof.
  unfold Map_has, includes. induction m as [|[k0 v0] t IH]; simpl.
  - reflexivity.
  - rewrite (String.eqb_sym k k0). destruct (String.eqb k0 k); auto.
Qed.

Lemma Map_keys_set (m : Map V) (k : string) (v : V) :
  Map_keys (Map_set m k v)
  = if Map_has m k then Map_keys m else Map_keys m ++ [k].
Proof.
  unfold Map_has. induction m as [|[k0 v0] t IH]; simpl.
  - reflexivity.
  - destruct (String.eqb_spec k0 k) as [->|Hne]; simpl.
    + reflexivity.
    + rewrite IH. destruct (Map_get t k); reflexivity.
Qed.

(** A map whose keys are distinct is the list of its keys, each with its
    entry. *)
Lemma Map_values_keys (m : Map V) (d : V) :
  NoDup (Map_keys m) ->
  Map_values m
  = map (fun k => match Map_get m k with Some v => v | None => d end)
      (Map_keys m).
Proof.
  unfold Map_values, Map_keys. induction m as [|[k0 v0] t IH]; simpl; intros Hnd.
  - reflexivity.
  - rewrite String.eqb_refl. f_equal.
    inversion Hnd as [|? ? Hnotin Hnd']; subst.
    rewrite (IH Hnd'). apply map_ext_in. intros k Hk.
    destruct (String.eqb_spec k0 k) as [->|Hne]; [contradiction|reflexivity].
Qed.

End Maps.

Lemma includes_In (l : list string) (k : string) :
  includes l k = true <-> In k l.
Proof.
  unfold includes. rewrite existsb_exists. split.
  - intros (x & Hx & He). apply String.eqb_eq in He. subst. exact Hx.
  - intros H. exists k. split; [exact H|apply String.eqb_refl].
Qed.

Lemma first_seen_step_NoDup (seen : list string) (k : string) :
  NoDup seen -> NoDup (if includes seen k then seen else seen ++ [k]).
Proof.
  intros Hnd. destruct (includes seen k) eqn:E; [exact Hnd|].
  apply NoDup_app; auto.
  - repeat constructor. intros [].
  - intros x Hx [<-|[]]. apply includes_In in Hx. congruence.
Qed.

Lemma first_seen_from_spec (ids seen : list string) :
  NoDup seen ->
  NoDup (fold_left (fun seen k => if includes seen k then seen else seen ++ [k])
           ids seen)
  /\ forall k,
       In k (fold_left
               (fun seen k => if includes seen k then seen else seen ++ [k])
               ids seen)
       <-> In k seen \/ In k ids.
Proof.
  revert seen; induction ids as [|x ids IH]; intros seen Hnd; simpl.
  - split; [exact Hnd|]. intros k. tauto.
  - destruct (IH _ (first_seen_step_NoDup seen x Hnd)) as (H1 & H2).
    split; [exact H1|]. intros k. rewrite H2.
    destruct (includes seen x) eqn:E.
    + apply includes_In in E. split; [tauto|].
      intros [H|[<-|H]]; auto.
    + rewrite in_app_iff. simpl. tauto.
Qed.

Lemma first_seen_NoDup (ids : list string) : NoDup (first_seen ids).
Proof. apply first_seen_from_spec. constructor. Qed.

Lemma first_seen_In (ids : list string) (k : string) :
  In k (first_seen ids) <-> In k ids.
Proof.
  unfold first_seen.
  destruct (first_seen_from_spec ids [] (NoDup_nil _)) as (_ & H).
  rewrite H. simpl. tauto.
Qed.

Section Upsert.

Context {C V : Type} (key : C -> string) (init : C -> V) (merge : V -> C -> V).

Lemma upsert_get (m : Map V) (c : C) (k : string) :
  Map_get (upsert key init merge m c) k
  = aggregate key init merge k [c] (Map_get m k).
Proof.
  unfold upsert, aggregate. simpl.
  destruct (Map_get m (key c)) as [v|] eqn:E; rewrite Map_get_set;
    destruct (String.eqb_spec (key c) k) as [<-|Hne]; auto; rewrite E; auto.
Qed.

Lemma upsert_keys (m : Map V) (c : C) :
  Map_keys (upsert key init merge m c)
  = if includes (Map_keys m) (key c) then Map_keys m
    else Map_keys m ++ [key c].
Proof.
  unfold upsert. rewrite <- Map_has_includes. unfold Map_has.
  destruct (Map_get m (key c)) as [v|] eqn:E; rewrite Map_keys_set;
    unfold Map_has; rewrite E; reflexivity.
Qed.

Lemma upsert_fold_get (cs : list C) (m : Map V) (k : string) :
  Map_get (fold_left (upsert key init merge) cs m) k
  = aggregate key init merge k cs (Map_get m k).
Proof.
  revert m; induction cs as [|c cs IH]; intros m; simpl.
  - reflexivity.
  - rewrite IH, upsert_get. reflexivity.
Qed.

Lemma upsert_fold_keys (cs : list C) (m : Map V) :
  Map_keys (fold_left (upsert key init merge) cs m)
  = fold_left (fun seen k => if includes seen k then seen else seen ++ [k])
      (map key cs) (Map_keys m).
Proof.
  revert m; induction cs as [|c cs IH]; intros m; simpl.
  - reflexivity.
  - rewrite IH, upsert_keys. reflexivity.
Qed.

(** The values of the map that a sequence of upserts builds from the empty
    map: one for each key, in the order of first occurrence. *)
Lemma upsert_fold_values (cs : list C) (d : V) :
  Map_values (fold_left (upsert key init merge) cs [])
  = map (fun k => match aggregate key init merge k cs None with
                  | Some v => v
                  | None => d
                  end)
      (first_seen (map key cs)).
Proof.
  rewrite (Map_values_keys _ d).
  - rewrite upsert_fold_keys. simpl. fold (first_seen (map key cs)).
    apply map_ext. intros k. rewrite upsert_fold_get. reflexivity.
  - rewrite upsert_fold_keys. simpl. apply first_seen_NoDup.
Qed.

End Upsert.

Lemma fold_left_flat_map {A B S : Type} (f : S -> B -> S) (g : A -> list B)
  (l : list A) (s : S) :
  fold_left f (flat_map g l) s = fold_left (fun s a => fold_left f (g a) s) l s.
Proof.
  revert s; induction l as [|a l IH]; intros s; simpl.
  - reflexivity.
  - rewrite fold_left_app. apply IH.
Qed.

(** ** Hybrid ranker *)

Lemma combineStep_upsert (w : R) (m : Map Ranked) (r : Rec) :
  combineStep w m r = upsert candidateKey rankedInit rankedMerge m (r, w).
Proof. reflexivity. Qed.

Lemma combinedMap_upserts (sources : list Weighted) :
  combinedMap sources
  = fold_left (upsert candidateKey rankedInit rankedMerge)
      (contributions sources) [].
Proof.
  unfold combinedMap, contributions. rewrite fold_left_flat_map.
  generalize (@nil (string * Ranked)).
  induction sources as [|s sources IH]; intros m; simpl.
  - reflexivity.
  - rewrite IH. f_equal.
    generalize m. induction (recommendations s) as [|r rs IHr]; intros m0; simpl.
    + reflexivity.
    + rewrite IHr. reflexivity.
Qed.

Lemma aggregate_cons {C V : Type} (key : C -> string) (init : C -> V)
  (merge : V -> C -> V) (k : string) (c : C) (cs : list C) (o : option V) :
  aggregate key init merge k (c :: cs) o
  = aggregate key init merge k cs
      (if String.eqb (key c) k
       then Some match o with Some v => merge v c | None => init c end
       else o).
Proof. reflexivity. Qed.

Lemma aggregate_some (k : string) (cs : list (Rec * R)) (v : Ranked) :
  aggregate candidateKey rankedInit rankedMerge k cs (Some v)
  = Some {| r_productId := r_productId v;
            r_score :=
              r_score v + Rsum (map (fun c => score (fst c) * snd c) (ofKey k cs));
            sources := sources v ++ map (fun c => type (fst c)) (ofKey k cs);
            boost := boost v |}.
Proof.
  revert v; induction cs as [|c cs IH]; intros v.
  - destruct v; simpl. f_equal. f_equal.
    + lra.
    + rewrite app_nil_r. reflexivity.
  - rewrite aggregate_cons. unfold ofKey. cbn [filter]. fold (ofKey k cs).
    change (String.eqb (productId (fst c)) k)
      with (String.eqb (candidateKey c) k).
    destruct (String.eqb (candidateKey c) k); cbv iota.
    + rewrite IH. simpl. f_equal. f_equal.
      * lra.
      * rewrite <- app_assoc. reflexivity.
    + apply IH.
Qed.

Lemma aggregate_none (k : string) (cs : list (Rec * R)) :
  aggregate candidateKey rankedInit rankedMerge k cs None
  = match ofKey k cs with
    | [] => None
    | _ :: _ =>
        Some {| r_productId := k;
                r_score := Rsum (map (fun c => score (fst c) * snd c)
                                   (ofKey k cs));
                sources := map (fun c => type (fst c)) (ofKey k cs);
                boost := None |}
    end.
Proof.
  induction cs as [|c cs IH].
  - reflexivity.
  - rewrite aggregate_cons. unfold ofKey. cbn [filter]. fold (ofKey k cs).
    change (String.eqb (productId (fst c)) k)
      with (String.eqb (candidateKey c) k).
    destruct (String.eqb_spec (candidateKey c) k) as [Hk|Hk]; cbv iota.
    + rewrite aggregate_some. unfold rankedInit, candidateKey in *. simpl.
      rewrite Hk. reflexivity.
    + apply IH.
Qed.

Lemma ofKey_nonempty (k : string) (cs : list (Rec * R)) :
  In k (map candidateKey cs) -> ofKey k cs <> [].
Proof.
  intros Hin Hnil. apply in_map_iff in Hin. destruct Hin as (c & Hc & Hin).
  assert (H : In c (ofKey k cs)).
  { apply filter_In. split; [exact Hin|]. apply String.eqb_eq. exact Hc. }
  rewrite Hnil in H. destruct H.
Qed.

(** The values of the map [combined] are the merged candidates of the
    specification, in the order of first occurrence. *)
Lemma combinedMap_values (sources : list Weighted) :
  Map_values (combinedMap sources) = merged sources.
Proof.
  rewrite combinedMap_upserts.
  rewrite (upsert_fold_values candidateKey rankedInit rankedMerge _
             (rankedInit ({| productId := ""; score := 0; type := fallback |},
                          0))).
  unfold merged. apply map_ext_in. intros k Hk.
  apply (proj1 (first_seen_In _ _)) in Hk. rewrite aggregate_none.
  pose proof (ofKey_nonempty k _ Hk) as Hne.
  destruct (ofKey k (contributions sources)) eqn:E; [contradiction|].
  unfold accumulated, tagsOf. fold (ofKey k (contributions sources)).
  rewrite E. reflexivity.
Qed.

Lemma combineRecommendations_merged (sources : list Weighted) :
  combineRecommendations sources = sort_desc r_score (merged sources).
Proof.
  unfold combineRecommendations. fold (combinedMap sources).
  rewrite combinedMap_values. reflexivity.
Qed.

Lemma merged_ids (sources : list Weighted) :
  map r_productId (merged sources)
  = first_seen (map candidateKey (contributions sources)).
Proof.
  unfold merged. rewrite map_map. simpl. apply map_id.
Qed.

Lemma combineRecommendations_NoDup (sources : list Weighted) :
  NoDup (map r_productId (combineRecommendations sources)).
Proof.
  rewrite combineRecommendations_merged.
  apply (Permutation_NoDup (l := map r_productId (merged sources))).
  - apply Permutation_map. symmetry. apply sort_desc_perm.
  - rewrite merged_ids. apply first_seen_NoDup.
Qed.

Lemma contributions_In (sources : list Weighted) (c : Rec * R) :
  In c (contributions sources)
  <-> exists s, In s sources /\ In (fst c) (recommendations s)
                /\ snd c = weight s.
Proof.
  unfold contributions. rewrite in_flat_map. split.
  - intros (s & Hs & Hc). apply in_map_iff in Hc.
    destruct Hc as (r & <- & Hr). exists s. auto.
  - intros (s & Hs & Hr & Hw). exists s. split; [exact Hs|].
    apply in_map_iff. exists (fst c). split; [|exact Hr].
    destruct c; simpl in *. congruence.
Qed.

Lemma merged_In (srcs : list Weighted) (c : Ranked) :
  In c (merged srcs)
  <-> In (r_productId c) (map candidateKey (contributions srcs))
      /\ c = {| r_productId := r_productId c;
                r_score := accumulated srcs (r_productId c);
                sources := tagsOf srcs (r_productId c);
                boost := None |}.
Proof.
  unfold merged. rewrite in_map_iff. split.
  - intros (p & <- & Hp). simpl. apply (proj1 (first_seen_In _ _)) in Hp.
    split; [exact Hp|reflexivity].
  - intros (Hp & Hc). exists (r_productId c). split; [congruence|].
    apply (proj2 (first_seen_In _ _)). exact Hp.
Qed.

Lemma candidate_ids_In (srcs : list Weighted) (p : string) :
  In p (map candidateKey (contributions srcs))
  <-> exists s r, In s srcs /\ In r (recommendations s) /\ productId r = p.
Proof.
  rewrite in_map_iff. split.
  - intros (c & Hc & Hin). apply contributions_In in Hin.
    destruct Hin as (s & Hs & Hr & _). exists s, (fst c). auto.
  - intros (s & r & Hs & Hr & Hp). exists (r, weight s). split; [exact Hp|].
    apply contributions_In. exists s. auto.
Qed.

Lemma tagsOf_In (srcs : list Weighted) (p : string) (t : Source) :
  In t (tagsOf srcs p)
  <-> exists s r, In s srcs /\ In r (recommendations s)
                  /\ productId r = p /\ type r = t.
Proof.
  unfold tagsOf. rewrite in_map_iff. split.
  - intros (c & Ht & Hc). apply filter_In in Hc. destruct Hc as (Hc & Hp).
    apply String.eqb_eq in Hp. apply contributions_In in Hc.
    destruct Hc as (s & Hs & Hr & _). exists s, (fst c). auto.
  - intros (s & r & Hs & Hr & Hp & Ht). exists (r, weight s).
    split; [exact Ht|]. apply filter_In. split.
    + apply contributions_In. exists s. auto.
    + apply String.eqb_eq. exact Hp.
Qed.

Lemma filter_weighted (w : R) (p : string) (l : list Rec) :
  filter (fun c : Rec * R => String.eqb (productId (fst c)) p)
    (map (fun r => (r, w)) l)
  = map (fun r => (r, w)) (filter (fun r => String.eqb (productId r) p) l).
Proof.
  induction l as [|r l IH]; simpl.
  - reflexivity.
  - destruct (String.eqb (productId r) p); simpl; rewrite IH; reflexivity.
Qed.

(** C3. The combine step gives each productId of the input lists exactly
    one candidate, whose score is the sum over all the lists of candidate
    score times list weight and whose source tags are those of the lists
    that contain the product.  With the weights 0.4, 0.4 and 0.2 of
    [getRecommendations], a product that the collaborative list holds with
    score [c], the content list with score [d] and the trending list does
    not hold is merged with score [0.4c + 0.4d]. *)
Theorem combineRecommendations_weighted_sum (srcs : list Weighted) :
  NoDup (map r_productId (combineRecommendations srcs))
  /\ (forall p,
        In p (map r_productId (combineRecommendations srcs))
        <-> exists s r, In s srcs /\ In r (recommendations s)
                        /\ productId r = p)
  /\ (forall c,
        In c (combineRecommendations srcs) ->
        r_score c = accumulated srcs (r_productId c)
        /\ forall t,
             In t (sources c)
             <-> exists s r, In s srcs /\ In r (recommendations s)
                             /\ productId r = r_productId c /\ type r = t)
  /\ (forall collaborativeRecs contentBasedRecs trendingRecs p rc rd,
        filter (fun r => String.eqb (productId r) p) collaborativeRecs = [rc] ->
        filter (fun r => String.eqb (productId r) p) contentBasedRecs = [rd] ->
        filter (fun r => String.eqb (productId r) p) trendingRecs = [] ->
        exists c,
          In c (combineRecommendations
                  [ {| recommendations := collaborativeRecs; weight := 0.4 |};
                    {| recommendations := contentBasedRecs; weight := 0.4 |};
                    {| recommendations := trendingRecs; weight := 0.2 |} ])
          /\ r_productId c = p
          /\ r_score c = 0.4 * score rc + 0.4 * score rd).
Proof.
  assert (Hin : forall l c,
            In c (combineRecommendations l) <-> In c (merged l)).
  { intros l c. rewrite combineRecommendations_merged. apply sort_desc_In. }
  split; [apply combineRecommendations_NoDup|]. split; [|split].
  - intros p. rewrite <- candidate_ids_In. rewrite in_map_iff. split.
    + intros (c & <- & Hc). apply Hin, merged_In in Hc. tauto.
    + intros Hp.
      exists {| r_productId := p; r_score := accumulated srcs p;
                sources := tagsOf srcs p; boost := None |}.
      split; [reflexivity|]. apply Hin, merged_In. auto.
  - intros c Hc. apply Hin, merged_In in Hc. destruct Hc as (_ & Hc).
    split.
    + rewrite Hc at 1. reflexivity.
    + intros t. rewrite Hc at 1. simpl. apply tagsOf_In.
  - intros collaborativeRecs contentBasedRecs trendingRecs p rc rd Hc Hd Ht.
    set (l := [ {| recommendations := collaborativeRecs; weight := 0.4 |};
                {| recommendations := contentBasedRecs; weight := 0.4 |};
                {| recommendations := trendingRecs; weight := 0.2 |} ]).
    exists {| r_productId := p; r_score := accumulated l p;
              sources := tagsOf l p; boost := None |}.
    split; [|split].
    + apply Hin, merged_In. cbn [r_productId]. split; [|reflexivity].
      apply (proj2 (candidate_ids_In l p)).
      exists {| recommendations := collaborativeRecs; weight := 0.4 |}, rc.
      assert (Hrc : In rc (filter (fun r => String.eqb (productId r) p)
                             collaborativeRecs))
        by (rewrite Hc; left; reflexivity).
      apply filter_In in Hrc. destruct Hrc as (Hrc & Hp).
      apply String.eqb_eq in Hp. unfold l. simpl. auto.
    + reflexivity.
    + simpl. unfold accumulated, contributions, l. simpl.
      rewrite app_nil_r, !filter_app, !filter_weighted, Hc, Hd, Ht.
      simpl. lra.
Qed.

Lemma combineRecommendations_weighted_sum_witness :
  exists c,
    In c (combineRecommendations
            [ {| recommendations :=
                   [ {| productId := "P1"; score := 0.5;
                        type := collaborative |} ];
                 weight := 0.4 |};
              {| recommendations :=
                   [ {| productId := "P1"; score := 0.8;
                        type := content_based |} ];
                 weight := 0.4 |};
              {| recommendations :=
                   [ {| productId := "P2"; score := 0.8; type := trending |} ];
                 weight := 0.2 |} ])
    /\ r_productId c = "P1"
    /\ r_score c = 0.4 * 0.5 + 0.4 * 0.8.
Proof.
  destruct (combineRecommendations_weighted_sum []) as (_ & _ & _ & H).
  apply (H [ {| productId := "P1"; score := 0.5; type := collaborative |} ]
           [ {| productId := "P1"; score := 0.8; type := content_based |} ]
           [ {| productId := "P2"; score := 0.8; type := trending |} ]
           "P1"
           {| productId := "P1"; score := 0.5; type := collaborative |}
           {| productId := "P1"; score := 0.8; type := content_based |});
    reflexivity.
Defined.

Lemma tiedPair_order (first second : string) :
  first <> second ->
  combineRecommendations (tiedPair first second)
  = [ {| r_productId := first; r_score := 1 * 1;
         sources := [trending]; boost := None |};
      {| r_productId := second; r_score := 1 * 1;
         sources := [trending]; boost := None |} ].
Proof.
  intros Hne. unfold combineRecommendations, tiedPair. simpl.
  unfold combineStep. simpl.
  destruct (String.eqb_spec first second) as [Heq|_]; [contradiction|].
  simpl. destruct (Rgt_dec (1 * 1) (1 * 1)) as [Hgt|_]; [lra|].
  reflexivity.
Qed.

(** C10, as stated, fails: the ranker returns P1 before P2 for one input
    and P2 before P1 for another, with equal scores both times, so no
    order on product ids decides the ties. *)
Lemma combineRecommendations_ties_not_by_productId :
  ~ ties_broken_by_productId.
Proof.
  intros (before & Hanti & Hties).
  assert (H12 : before "P1" "P2").
  { apply (Hties (tiedPair "P1" "P2") []
             {| r_productId := "P1"; r_score := 1 * 1;
                sources := [trending]; boost := None |} []
             {| r_productId := "P2"; r_score := 1 * 1;
                sources := [trending]; boost := None |} []).
    - apply tiedPair_order. discriminate.
    - reflexivity. }
  assert (H21 : before "P2" "P1").
  { apply (Hties (tiedPair "P2" "P1") []
             {| r_productId := "P2"; r_score := 1 * 1;
                sources := [trending]; boost := None |} []
             {| r_productId := "P1"; r_score := 1 * 1;
                sources := [trending]; boost := None |} []).
    - apply tiedPair_order. discriminate.
    - reflexivity. }
  specialize (Hanti _ _ H12 H21). discriminate Hanti.
Qed.

(** C10, amended.  The merged list is ordered by accumulated score
    descending, and the candidates of equal accumulated score stay in the
    order in which their products first occur in the input lists: the sort
    is stable and compares nothing but the scores. *)
Theorem combineRecommendations_order (srcs : list Weighted) :
  StronglySorted (descending r_score) (combineRecommendations srcs)
  /\ (forall v,
        withScore r_score v (combineRecommendations srcs)
        = withScore r_score v (merged srcs))
  /\ map r_productId (merged srcs)
     = first_seen (map candidateKey (contributions srcs)).
Proof.
  rewrite combineRecommendations_merged. split; [|split].
  - apply sort_desc_sorted.
  - intros v. apply sort_desc_stable.
  - apply merged_ids.
Qed.

(** ** The request pipeline *)

Lemma NoDup_map_filter {A B : Type} (f : A -> B) (g : A -> bool) (l : list A) :
  NoDup (map f l) -> NoDup (map f (filter g l)).
Proof.
  induction l as [|x l IH]; simpl; intros Hnd.
  - constructor.
  - inversion Hnd as [|? ? Hnotin Hnd']; subst.
    destruct (g x); simpl; auto.
    constructor; auto. intros Hin. apply Hnotin.
    apply in_map_iff in Hin. destruct Hin as (y & Hy & Hin).
    apply filter_In in Hin. apply in_map_iff. exists y. tauto.
Qed.

Lemma In_firstn {A : Type} (n : nat) (l : list A) (x : A) :
  In x (firstn n l) -> In x l.
Proof.
  intros Hin. rewrite <- (firstn_skipn n l). apply in_or_app. left. exact Hin.
Qed.

Lemma NoDup_firstn {A : Type} (n : nat) (l : list A) :
  NoDup l -> NoDup (firstn n l).
Proof.
  revert n; induction l as [|x l IH]; intros [|n] Hnd; simpl;
    try constructor.
  - inversion Hnd; subst. intros Hin. apply In_firstn in Hin. contradiction.
  - inversion Hnd; subst. auto.
Qed.

Lemma boostAll_ids (months : nat -> nat) (productMap : Map Product)
  (user : User) (recs out : list Ranked) (tick : nat) :
  boostAll months productMap user recs tick = Ok out ->
  map r_productId out = map r_productId recs.
Proof.
  revert out tick; induction recs as [|rec rest IH]; intros out tick; simpl.
  - intros [= <-]. reflexivity.
  - destruct (Map_get productMap (r_productId rec)) as [product|].
    + destruct (boostOf user product (months tick)) as [b|e]; simpl;
        [|discriminate].
      destruct (boostAll months productMap user rest (S tick)) as [rest'|e]
        eqn:E; simpl; [|discriminate].
      intros [= <-]. simpl. f_equal. eapply IH; eauto.
    + destruct (boostAll months productMap user rest tick) as [rest'|e]
        eqn:E; simpl; [|discriminate].
      intros [= <-]. simpl. f_equal. eapply IH; eauto.
Qed.

Lemma applyPersonalizationBoost_ids (store : Store) (months : nat -> nat)
  (recs out : list Ranked) (user : User) :
  applyPersonalizationBoost store months recs user = Ok out ->
  Permutation (map r_productId out) (map r_productId recs).
Proof.
  unfold applyPersonalizationBoost.
  destruct (Product_find_in store (map r_productId recs)) as [products|e];
    simpl; [|discriminate].
  destruct (boostAll months _ user recs 0) as [boosted|e] eqn:E; simpl;
    [|discriminate].
  intros [= <-]. rewrite <- (boostAll_ids _ _ _ _ _ _ E).
  apply Permutation_map, sort_desc_perm.
Qed.





(** ** Failure policy *)

(** C6, as stated, fails: for a user that is not stored the pipeline throws
    "User not found" and the call returns the output of the fallback
    generator, which is empty when no active product is featured. *)
Lemma getRecommendations_fallback_may_be_empty :
  getRecommendations_try unfeaturedStore stillReadings noContent newEngine
    "V" 10 true = Throw (Error "User not found")
  /\ getFallbackRecommendations unfeaturedStore 10 = Ok []
  /\ getRecommendations unfeaturedStore stillReadings noContent newEngine
       "V" 10 true = Ok (Fallback []).
Proof.
  split; [|split]; reflexivity.
Qed.

(** C6, as stated, fails in a second way: an exception raised inside the
    pipeline need not reach the top-level [catch].  When the trending query
    rejects, [getTrendingRecommendations] catches the error itself and
    returns the empty list; the pipeline goes on, and for a stored user the
    call returns the result of the normal path, here the empty list, and
    not the output of the fallback generator, which holds a candidate. *)
Lemma getRecommendations_caught_locally :
  Product_find_trending
    (trendlessStore [userWithHistory "U" []] [sampleProduct "P1"]
       [sampleProduct "P1"]) 2
  = Throw StoreError
  /\ getRecommendations
       (trendlessStore [userWithHistory "U" []] [sampleProduct "P1"]
          [sampleProduct "P1"])
       stillReadings noContent newEngine "U" 2 true
     = Ok (Personalized [])
  /\ getFallbackRecommendations
       (trendlessStore [userWithHistory "U" []] [sampleProduct "P1"]
          [sampleProduct "P1"]) 2
     = Ok [ {| productId := "P1"; score := 0.5; type := fallback |} ].
Proof.
  split; [|split]; reflexivity.
Qed.

(** The same holds for the steps of [initialize]: when the queries for
    the active users and products reject, each step catches the error
    itself and leaves the engine as it was; the pipeline goes on, and for
    a stored user the call returns the trending product as the result of
    the normal path, with its boosted score, and not the output of the
    fallback generator. *)
Lemma getRecommendations_initialize_caught :
  User_find_active
    (listlessStore [userWithHistory "U" []] [sampleProduct "P1"]
       [sampleProduct "P1"])
  = Throw StoreError
  /\ loadUserItemMatrix
       (listlessStore [userWithHistory "U" []] [sampleProduct "P1"]
          [sampleProduct "P1"])
       (clock stillReadings) newEngine
     = Ok newEngine
  /\ getRecommendations
       (listlessStore [userWithHistory "U" []] [sampleProduct "P1"]
          [sampleProduct "P1"])
       stillReadings noContent newEngine "U" 2 true
     = Ok (Personalized
             [ {| r_productId := "P1";
                  r_score := 0.8 * 0.2 * (1 * 1.2 * 1.1);
                  sources := [trending];
                  boost := Some (1 * 1.2 * 1.1) |} ])
  /\ getFallbackRecommendations
       (listlessStore [userWithHistory "U" []] [sampleProduct "P1"]
          [sampleProduct "P1"]) 2
     = Ok [ {| productId := "P1"; score := 0.5; type := fallback |} ].
Proof.
  split; [reflexivity|]. split; [reflexivity|]. split; [|reflexivity].
  unfold getRecommendations, getRecommendations_try.
  cbn. repeat decide_real. reflexivity.
Qed.

(** C6, amended.  [getRecommendations] never throws.  When an exception
    reaches its top-level [catch], that is, when the [try] block throws,
    it returns the output of the fallback generator, which holds one
    candidate of score 0.5 for each product the store returns for the
    fallback query and is empty when that query fails.  When the [try]
    block does not throw it returns the result of the normal path; this
    is also the case when the trending query rejects, the error being
    caught inside [getTrendingRecommendations], which then returns the
    empty list. *)
Theorem getRecommendations_never_throws (store : Store) (env : Readings)
  (contentBased : string -> nat -> Result (list Rec))
  (this : Engine) (userId : string) (limit : nat) (excludeViewed : bool) :
  exists result,
    getRecommendations store env contentBased this userId limit excludeViewed
    = Ok result
    /\ (forall e,
          getRecommendations_try store env contentBased this userId limit
            excludeViewed = Throw e ->
          exists recs,
            getFallbackRecommendations store limit = Ok recs
            /\ result = Fallback recs
            /\ recs
               = match Product_find_featured store limit with
                 | Ok products =>
                     map (fun product =>
                            {| productId := p_id product; score := 0.5;
                               type := fallback |}) products
                 | Throw _ => []
                 end)
    /\ (forall recs,
          getRecommendations_try store env contentBased this userId limit
            excludeViewed = Ok recs ->
          result = Personalized recs)
    /\ (forall e,
          Product_find_trending store limit = Throw e ->
          getTrendingRecommendations store limit = Ok []).
Proof.
  assert (Htrending : forall e,
            Product_find_trending store limit = Throw e ->
            getTrendingRecommendations store limit = Ok []).
  { intros e He. unfold getTrendingRecommendations. rewrite He. reflexivity. }
  unfold getRecommendations.
  destruct (getRecommendations_try store env contentBased this userId limit
              excludeViewed) as [recs|e]; simpl.
  - eexists. split; [reflexivity|]. split; [intros e [=]|].
    split; [intros recs' [= <-]; reflexivity|exact Htrending].
  - unfold getFallbackRecommendations.
    destruct (Product_find_featured store limit) as [products|e']; simpl.
    + eexists. split; [reflexivity|]. split; [|split; [intros ? [=]|]]; auto.
      intros _ _. eexists. split; [reflexivity|]. split; reflexivity.
    + eexists. split; [reflexivity|]. split; [|split; [intros ? [=]|]]; auto.
      intros _ _. eexists. split; [reflexivity|]. split; reflexivity.
Qed.

Lemma getRecommendations_never_throws_witness :
  exists recs,
    getRecommendations downStore stillReadings noContent newEngine "U" 10 true
    = Ok (Fallback recs)
    /\ getFallbackRecommendations downStore 10 = Ok recs.
Proof.
  destruct (getRecommendations_never_throws downStore stillReadings noContent
              newEngine "U" 10 true) as (result & Hres & Hthrow & _).
  destruct (Hthrow StoreError) as (recs & Hfb & -> & _).
  - reflexivity.
  - exists recs. split; assumption.
Defined.

(** ** Personalization boost *)

Lemma getCurrentSeason_season_of_month (month : nat) :
  getCurrentSeason month = season_of_month month.
Proof.
  do 12 (destruct month as [|month]; [reflexivity|]). reflexivity.
Qed.

Lemma someM_pure {A : Type} (g : A -> bool) (l : list A) :
  someM (fun a => Ok (g a)) l = Ok (existsb g l).
Proof.
  induction l as [|a l IH]; simpl.
  - reflexivity.
  - destruct (g a); simpl; auto.
Qed.

Lemma Rgeb_Rleb (x y : R) : Rgeb x y = Rleb y x.
Proof.
  unfold Rgeb, Rleb. destruct (Rge_dec x y), (Rle_dec y x); auto; lra.
Qed.

Lemma boostOf_boost_factor (user : User) (product : Product) (month : nat) :
  category product <> None ->
  boostOf user product month = Ok (boost_factor user product month).
Proof.
  intros Hcat. unfold boostOf, boost_factor, categoryRule, priceRule,
    brandRule, seasonRule.
  fold (preferredCategories user). fold (preferredBrands user).
  fold (preferredRange user).
  destruct (category product) as [c|]; [|contradiction].
  rewrite someM_pure. cbn [bind].
  rewrite getCurrentSeason_season_of_month, Rgeb_Rleb.
  replace (existsb (fun cat => String.eqb cat c) (preferredCategories user))
    with (includes (preferredCategories user) c).
  2:{ unfold includes.
      induction (preferredCategories user) as [|a l IH]; simpl; auto.
      rewrite IH, (String.eqb_sym c a). reflexivity. }
  destruct (includes (preferredCategories user) c);
    destruct (Rleb (pr_min (preferredRange user)) (price product)
              && Rleb (price product) (pr_max (preferredRange user)));
    destruct (includes (preferredBrands user) (brand product));
    destruct (match attributes product with
              | Some attrs =>
                  match season attrs with
                  | Some seasons => includes seasons (season_of_month month)
                  | None => false
                  end
              | None => false
              end);
    f_equal; lra.
Qed.

Lemma boost_factor_bounds (user : User) (product : Product) (month : nat) :
  1 <= boost_factor user product month <= 1.3 * 1.2 * 1.4 * 1.1.
Proof.
  unfold boost_factor.
  destruct (categoryRule user product), (priceRule user product),
    (brandRule user product), (seasonRule month product); lra.
Qed.

Lemma Map_set_fresh {V : Type} (m : Map V) (k : string) (v : V) :
  ~ In k (Map_keys m) -> Map_set m k v = m ++ [(k, v)].
Proof.
  unfold Map_keys. induction m as [|[k0 v0] t IH]; simpl; intros Hk.
  - reflexivity.
  - destruct (String.eqb_spec k0 k) as [->|Hne]; [tauto|].
    rewrite IH by tauto. reflexivity.
Qed.

Lemma Map_of_from_NoDup {V : Type} (entries acc : list (string * V)) :
  NoDup (map fst (acc ++ entries)) ->
  fold_left (fun m kv => Map_set m (fst kv) (snd kv)) entries acc
  = acc ++ entries.
Proof.
  revert acc; induction entries as [|[k v] entries IH]; intros acc Hnd; simpl.
  - rewrite app_nil_r. reflexivity.
  - rewrite Map_set_fresh.
    + rewrite IH; rewrite <- app_assoc; [reflexivity|exact Hnd].
    + rewrite map_app in Hnd. simpl in Hnd.
      apply NoDup_remove_2 in Hnd. unfold Map_keys. intros Hin. apply Hnd.
      apply in_or_app. left. exact Hin.
Qed.

Lemma Map_of_NoDup {V : Type} (entries : list (string * V)) :
  NoDup (map fst entries) -> Map_of entries = entries.
Proof. intros Hnd. apply (Map_of_from_NoDup entries []). exact Hnd. Qed.

Lemma Map_get_products (products : list Product) (k : string) :
  Map_get (map (fun p => (p_id p, p)) products) k
  = find (fun p => String.eqb (p_id p) k) products.
Proof.
  induction products as [|p products IH]; simpl.
  - reflexivity.
  - destruct (String.eqb (p_id p) k); auto.
Qed.

Lemma boostAll_personalized (months : nat -> nat) (month : nat)
  (products : list Product) (user : User) (recs : list Ranked) (tick : nat) :
  (forall p, In p products -> category p <> None) ->
  (forall n, months n = month) ->
  boostAll months (map (fun p => (p_id p, p)) products) user recs tick
  = Ok (map (personalized user products month) recs).
Proof.
  intros Hcat Hmonth. revert tick; induction recs as [|rec rest IH];
    intros tick; simpl.
  - reflexivity.
  - unfold personalized at 1. rewrite Map_get_products.
    destruct (find (fun p => String.eqb (p_id p) (r_productId rec)) products)
      as [product|] eqn:E.
    + rewrite Hmonth, boostOf_boost_factor.
      * cbn [bind]. rewrite IH. reflexivity.
      * apply Hcat. apply find_some in E. tauto.
    + rewrite IH. reflexivity.
Qed.

(** C4. The boost of a candidate is the product of exactly those factors
    among 1.3 (category preferred), 1.2 (price in the preferred range),
    1.4 (brand preferred) and 1.1 (season list holds the current season,
    spring being months 2 to 4, summer 5 to 7, fall 8 to 10, winter
    otherwise) whose rule holds; the boosted score is the merged score
    times the boost; the boost is 1 when no rule holds and never more than
    1.3 * 1.2 * 1.4 * 1.1.  The store answers with products of distinct
    ids that have a category, and the month read is [month] throughout. *)
Theorem applyPersonalizationBoost_factors (store : Store)
  (months : nat -> nat) (month : nat) (recs : list Ranked) (user : User)
  (products : list Product) :
  Product_find_in store (map r_productId recs) = Ok products ->
  NoDup (map p_id products) ->
  (forall p, In p products -> category p <> None) ->
  (forall n, months n = month) ->
  exists out,
    applyPersonalizationBoost store months recs user = Ok out
    /\ Permutation out (map (personalized user products month) recs)
    /\ StronglySorted (descending r_score) out
    /\ (forall product,
          1 <= boost_factor user product month <= 1.3 * 1.2 * 1.4 * 1.1)
    /\ (forall product,
          categoryRule user product = false ->
          priceRule user product = false ->
          brandRule user product = false ->
          seasonRule month product = false ->
          boost_factor user product month = 1).
Proof.
  intros Hfind Hnd Hcat Hmonth. unfold applyPersonalizationBoost.
  rewrite Hfind. cbn [bind].
  rewrite Map_of_NoDup by (rewrite map_map; exact Hnd).
  rewrite (boostAll_personalized months month products user recs 0 Hcat Hmonth).
  cbn [bind]. eexists. split; [reflexivity|]. split; [|split; [|split]].
  - apply sort_desc_perm.
  - apply sort_desc_sorted.
  - intros product. apply boost_factor_bounds.
  - intros product H1 H2 H3 H4. unfold boost_factor.
    rewrite H1, H2, H3, H4. lra.
Qed.

Lemma applyPersonalizationBoost_factors_witness :
  exists out,
    applyPersonalizationBoost featuredStore (fun _ => 5%nat) [sampleRanked]
      (sampleUser "U") = Ok out
    /\ Permutation out
         (map (personalized (sampleUser "U") [sampleProduct "P1"] 5)
            [sampleRanked]).
Proof.
  destruct (applyPersonalizationBoost_factors featuredStore (fun _ => 5%nat)
              5 [sampleRanked] (sampleUser "U") [sampleProduct "P1"])
    as (out & Hout & Hperm & _).
  - reflexivity.
  - constructor; [intros []|constructor].
  - intros p [<-|[]]. discriminate.
  - reflexivity.
  - exists out. split; assumption.
Defined.

(** ** Feature encoders *)

(** C8. The encoders are not functions of the record alone: the category
    slots are filled by [Math.random()].  Two evaluations of the product
    embedding on the same product give vectors that differ in slot 3, and
    two evaluations of the user embedding on the same user differ in slot
    12; each evaluation advances the random generator, by three and by two
    draws. *)
Theorem embeddings_not_deterministic :
  (exists first second,
     createProductEmbedding sampleDraws 0 (sampleProduct "P1") = (first, 3%nat)
     /\ createProductEmbedding sampleDraws 3 (sampleProduct "P1")
        = (second, 6%nat)
     /\ nth 3 first 0 = 0.1 /\ nth 3 second 0 = 0.4
     /\ first <> second)
  /\ (exists first second,
        createUserEmbedding sampleDraws 0 (sampleUser "U") = (first, 2%nat)
        /\ createUserEmbedding sampleDraws 2 (sampleUser "U") = (second, 4%nat)
        /\ nth 12 first 0 = 0.1 /\ nth 12 second 0 = 0.3
        /\ first <> second).
Proof.
  split.
  - exists (fst (createProductEmbedding sampleDraws 0 (sampleProduct "P1"))),
      (fst (createProductEmbedding sampleDraws 3 (sampleProduct "P1"))).
    split; [reflexivity|]. split; [reflexivity|].
    assert (H1 : nth 3 (fst (createProductEmbedding sampleDraws 0
                               (sampleProduct "P1"))) 0 = 0.1)
      by reflexivity.
    assert (H2 : nth 3 (fst (createProductEmbedding sampleDraws 3
                               (sampleProduct "P1"))) 0 = 0.4)
      by reflexivity.
    split; [exact H1|]. split; [exact H2|].
    intros Heq. rewrite Heq in H1. rewrite H1 in H2. lra.
  - exists (fst (createUserEmbedding sampleDraws 0 (sampleUser "U"))),
      (fst (createUserEmbedding sampleDraws 2 (sampleUser "U"))).
    split; [reflexivity|]. split; [reflexivity|].
    assert (H1 : nth 12 (fst (createUserEmbedding sampleDraws 0
                                (sampleUser "U"))) 0 = 0.1)
      by reflexivity.
    assert (H2 : nth 12 (fst (createUserEmbedding sampleDraws 2
                                (sampleUser "U"))) 0 = 0.3)
      by reflexivity.
    split; [exact H1|]. split; [exact H2|].
    intros Heq. rewrite Heq in H1. rewrite H1 in H2. lra.
Qed.

(** ** Collaborative filter *)

Lemma similarityStep_keptNeighbour (m : list (list num)) (u : nat)
  (uv : list num) (acc : list Similar) (i : nat) :
  similarityStep m u uv acc i = acc ++ keptNeighbour m u uv i.
Proof.
  unfold similarityStep, keptNeighbour.
  destruct (Nat.eqb i u); [rewrite app_nil_r; reflexivity|].
  destruct (cosineSimilarity uv (rowOf m i)) as [|s];
    [rewrite app_nil_r; reflexivity|].
  destruct (Rgtb s 0.1); [reflexivity|rewrite app_nil_r; reflexivity].
Qed.

Lemma fold_left_append {A B : Type} (g : A -> list B) (l : list A)
  (acc : list B) :
  fold_left (fun acc a => acc ++ g a) l acc = acc ++ flat_map g l.
Proof.
  revert acc; induction l as [|a l IH]; intros acc; simpl.
  - rewrite app_nil_r. reflexivity.
  - rewrite IH, app_assoc. reflexivity.
Qed.

Lemma similarities_flat_map (m : list (list num)) (u : nat) (uv : list num)
  (l : list nat) :
  fold_left (similarityStep m u uv) l []
  = flat_map (keptNeighbour m u uv) l.
Proof.
  change (flat_map (keptNeighbour m u uv) l)
    with ([] ++ flat_map (keptNeighbour m u uv) l).
  rewrite <- (fold_left_append (keptNeighbour m u uv) l []).
  generalize (@nil Similar). induction l as [|i l IH]; intros acc; simpl.
  - reflexivity.
  - rewrite similarityStep_keptNeighbour. apply IH.
Qed.

Lemma keptNeighbour_In (m : list (list num)) (u : nat) (i : nat)
  (n : Similar) :
  In n (keptNeighbour m u (rowOf m u) i)
  <-> userIndex n = i /\ i <> u
      /\ cosineSimilarity (rowOf m u) (rowOf m i) = Fin (similarity n)
      /\ similarity n > 0.1.
Proof.
  unfold keptNeighbour.
  destruct (Nat.eqb_spec i u) as [->|Hne].
  - simpl. tauto.
  - destruct (cosineSimilarity (rowOf m u) (rowOf m i)) as [|s].
    + simpl. split; [tauto|]. intros (_ & _ & H & _). discriminate.
    + unfold Rgtb. destruct (Rgt_dec s 0.1) as [Hgt|Hngt]; simpl.
      * split.
        -- intros [<-|[]]. simpl. auto.
        -- intros (Hi & _ & Hs & _). left. destruct n as [i' s']. simpl in *.
           injection Hs as ->. subst. reflexivity.
      * split; [tauto|]. intros (_ & _ & Hs & Hgt). injection Hs as ->. lra.
Qed.

Lemma similarities_In (m : list (list num)) (u : nat) (n : Similar) :
  (forall i, (i < List.length m)%nat ->
     List.length (rowOf m u) = List.length (rowOf m i)) ->
  In n (flat_map (keptNeighbour m u (rowOf m u)) (seq 0 (List.length m)))
  <-> isNeighbour m u (userIndex n) (similarity n).
Proof.
  intros Hrect. rewrite in_flat_map. unfold isNeighbour. split.
  - intros (i & Hi & Hn). apply in_seq in Hi. apply keptNeighbour_In in Hn.
    destruct Hn as (-> & Hne & Hcos & Hs). split; [lia|].
    rewrite <- cosineSimilarity_cosine by (apply Hrect; lia). auto.
  - intros (Hlt & Hne & Hcos & Hs). exists (userIndex n). split.
    + apply in_seq. lia.
    + apply keptNeighbour_In.
      rewrite cosineSimilarity_cosine by (apply Hrect; exact Hlt). tauto.
Qed.

Lemma similarities_NoDup (m : list (list num)) (u : nat) (l : list nat) :
  NoDup l ->
  NoDup (map userIndex (flat_map (keptNeighbour m u (rowOf m u)) l)).
Proof.
  induction 1 as [|i l Hnotin Hnd IH]; simpl.
  - constructor.
  - rewrite map_app. apply NoDup_app; auto.
    + unfold keptNeighbour. destruct (Nat.eqb i u); [constructor|].
      destruct (cosineSimilarity _ _); [constructor|].
      destruct (Rgtb _ _); simpl; repeat constructor. intros [].
    + intros x Hx Hx'. apply in_map_iff in Hx. destruct Hx as (n & <- & Hn).
      apply keptNeighbour_In in Hn. destruct Hn as (Hi & _).
      apply in_map_iff in Hx'. destruct Hx' as (n' & Heq & Hn').
      apply in_flat_map in Hn'. destruct Hn' as (i' & Hi' & Hn').
      apply keptNeighbour_In in Hn'. destruct Hn' as (Hi'' & _).
      apply Hnotin. congruence.
Qed.

Lemma StronglySorted_app_order {A : Type} (R : A -> A -> Prop)
  (l1 l2 : list A) :
  StronglySorted R (l1 ++ l2) ->
  forall x y, In x l1 -> In y l2 -> R x y.
Proof.
  induction l1 as [|a l1 IH]; simpl; intros Hs x y Hx Hy.
  - destruct Hx.
  - inversion Hs as [|? ? Hs' Hall]; subst. destruct Hx as [<-|Hx].
    + rewrite Forall_forall in Hall. apply Hall. apply in_or_app. auto.
    + eapply IH; eauto.
Qed.

(** The first [k] of the neighbours sorted by similarity are the [k] most
    similar neighbours. *)
Lemma topSimilarUsers_mostSimilar (k : nat) (m : list (list num)) (u : nat) :
  (forall i, (i < List.length m)%nat ->
     List.length (rowOf m u) = List.length (rowOf m i)) ->
  mostSimilar k m u
    (slice0 k
       (sort_desc similarity
          (flat_map (keptNeighbour m u (rowOf m u))
             (seq 0 (List.length m))))).
Proof.
  intros Hrect.
  set (L := flat_map (keptNeighbour m u (rowOf m u)) (seq 0 (List.length m))).
  set (sorted := sort_desc similarity L).
  assert (Hperm : Permutation sorted L) by apply sort_desc_perm.
  unfold slice0, mostSimilar. split; [|split; [|split]].
  - rewrite <- firstn_map. apply NoDup_firstn.
    apply (Permutation_NoDup (l := map userIndex L)).
    + apply Permutation_map. symmetry. exact Hperm.
    + apply similarities_NoDup. apply seq_NoDup.
  - intros n Hn. apply In_firstn in Hn.
    apply (similarities_In m u n Hrect). eapply Permutation_in; eauto.
  - apply firstn_le_length.
  - intros i s Hnb Hnotin.
    assert (HinL : In {| userIndex := i; similarity := s |} L)
      by (apply (similarities_In m u _ Hrect); exact Hnb).
    assert (Hin : In {| userIndex := i; similarity := s |} sorted)
      by (eapply Permutation_in; [symmetry|]; eauto).
    rewrite <- (firstn_skipn k sorted) in Hin. apply in_app_or in Hin.
    destruct Hin as [Hin|Hin].
    { exfalso. apply Hnotin. apply in_map_iff. eexists. split; [|exact Hin].
      reflexivity. }
    split.
    + rewrite length_firstn. apply Nat.min_l.
      destruct (Nat.le_gt_cases k (List.length sorted)) as [Hle|Hgt]; auto.
      rewrite skipn_all2 in Hin by lia. destruct Hin.
    + intros n Hn.
      pose proof (sort_desc_sorted similarity L) as Hsorted.
      fold sorted in Hsorted. rewrite <- (firstn_skipn k sorted) in Hsorted.
      apply (StronglySorted_app_order _ _ _ Hsorted n _ Hn Hin).
Qed.

Lemma Map_entries_keys {V : Type} (m : Map V) (d : V) :
  NoDup (Map_keys m) ->
  m = map (fun k => (k, match Map_get m k with Some v => v | None => d end))
        (Map_keys m).
Proof.
  unfold Map_keys. induction m as [|[k0 v0] t IH]; simpl; intros Hnd.
  - reflexivity.
  - rewrite String.eqb_refl. f_equal.
    inversion Hnd as [|? ? Hnotin Hnd']; subst.
    rewrite (IH Hnd') at 1. apply map_ext_in. intros k Hk.
    destruct (String.eqb_spec k0 k) as [->|Hne]; [contradiction|reflexivity].
Qed.

Lemma upsert_fold_entries {C V : Type} (key : C -> string) (init : C -> V)
  (merge : V -> C -> V) (cs : list C) (d : V) :
  fold_left (upsert key init merge) cs []
  = map (fun k => (k, match aggregate key init merge k cs None with
                      | Some v => v
                      | None => d
                      end))
      (first_seen (map key cs)).
Proof.
  rewrite (Map_entries_keys (fold_left (upsert key init merge) cs []) d) at 1.
  - rewrite upsert_fold_keys. simpl. fold (first_seen (map key cs)).
    apply map_ext. intros k. rewrite upsert_fold_get. reflexivity.
  - rewrite upsert_fold_keys. simpl. apply first_seen_NoDup.
Qed.

Lemma contributionStep_upserts (pids : list string) (uv sv : list num)
  (s : R) (recs : Map R) (j : nat) :
  contributionStep pids uv sv s recs j
  = fold_left (upsert fst snd addScore) (addedScore pids uv sv s j) recs.
Proof.
  unfold contributionStep, addedScore.
  destruct (at_num sv j) as [|cell]; [reflexivity|].
  destruct (strict_eq (at_num uv j) (Fin 0) && Rgtb cell 0); reflexivity.
Qed.

Lemma fold_left_steps {A B S : Type} (step : S -> A -> S) (f : S -> B -> S)
  (g : A -> list B) (l : list A) (s : S) :
  (forall s a, step s a = fold_left f (g a) s) ->
  fold_left step l s = fold_left f (flat_map g l) s.
Proof.
  intros Hstep. revert s; induction l as [|a l IH]; intros s; simpl.
  - reflexivity.
  - rewrite fold_left_app, <- Hstep. apply IH.
Qed.

Lemma recommendations_upserts (m : list (list num)) (pids : list string)
  (uv : list num) (N : list Similar) :
  fold_left (neighbourStep m pids uv) N []
  = fold_left (upsert fst snd addScore) (addedScores m pids uv N) [].
Proof.
  unfold addedScores. apply fold_left_steps. intros recs n.
  unfold neighbourStep. apply fold_left_steps. intros recs' j.
  apply contributionStep_upserts.
Qed.

Lemma aggregate_score_some (k : string) (cs : list (string * R)) (v : R) :
  aggregate fst snd addScore k cs (Some v)
  = Some (v + Rsum (map snd (withKey k cs))).
Proof.
  revert v; induction cs as [|c cs IH]; intros v.
  - simpl. f_equal. lra.
  - rewrite aggregate_cons. unfold withKey. cbn [filter]. fold (withKey k cs).
    destruct (String.eqb (fst c) k); cbv iota.
    + rewrite IH. unfold addScore. simpl. f_equal. lra.
    + apply IH.
Qed.

Lemma aggregate_score_none (k : string) (cs : list (string * R)) :
  aggregate fst snd addScore k cs None
  = match withKey k cs with
    | [] => None
    | _ :: _ => Some (Rsum (map snd (withKey k cs)))
    end.
Proof.
  induction cs as [|c cs IH].
  - reflexivity.
  - rewrite aggregate_cons. unfold withKey. cbn [filter]. fold (withKey k cs).
    destruct (String.eqb (fst c) k); cbv iota.
    + rewrite aggregate_score_some. simpl. reflexivity.
    + apply IH.
Qed.

(** The map of recommendations holds, for each product that received a
    score, the sum of the scores it received, in the order in which the
    products first received one. *)
Lemma recommendations_entries (m : list (list num)) (pids : list string)
  (uv : list num) (N : list Similar) :
  fold_left (neighbourStep m pids uv) N []
  = map (fun k => (k, Rsum (map snd (withKey k (addedScores m pids uv N)))))
      (first_seen (map fst (addedScores m pids uv N))).
Proof.
  rewrite recommendations_upserts.
  rewrite (upsert_fold_entries fst snd addScore _ 0).
  apply map_ext_in. intros k Hk. f_equal.
  apply (proj1 (first_seen_In _ _)) in Hk.
  rewrite aggregate_score_none.
  destruct (withKey k (addedScores m pids uv N)) eqn:E; [|reflexivity].
  exfalso. apply in_map_iff in Hk. destruct Hk as (c & Hc & Hin).
  assert (H : In c (withKey k (addedScores m pids uv N))).
  { apply filter_In. split; [exact Hin|]. apply String.eqb_eq. exact Hc. }
  rewrite E in H. destruct H.
Qed.

Lemma addedScore_In (pids : list string) (uv sv : list num) (s : R) (j : nat)
  (c : string * R) :
  In c (addedScore pids uv sv s j)
  <-> exists cell,
        at_num sv j = Fin cell
        /\ strict_eq (at_num uv j) (Fin 0) = true /\ cell > 0
        /\ c = (nth j pids "undefined", cell * s).
Proof.
  unfold addedScore. destruct (at_num sv j) as [|cell].
  - simpl. split; [tauto|]. intros (cell & H & _). discriminate.
  - unfold Rgtb. destruct (strict_eq (at_num uv j) (Fin 0));
      destruct (Rgt_dec cell 0) as [Hgt|Hngt]; simpl.
    + split.
      * intros [<-|[]]. exists cell. auto.
      * intros (cell' & [= <-] & _ & _ & ->). auto.
    + split; [tauto|]. intros (cell' & [= <-] & _ & Hgt & _). lra.
    + split; [tauto|]. intros (cell' & _ & H & _). discriminate.
    + split; [tauto|]. intros (cell' & _ & H & _). discriminate.
Qed.

Lemma withKey_app (k : string) (l1 l2 : list (string * R)) :
  withKey k (l1 ++ l2) = withKey k l1 ++ withKey k l2.
Proof. apply filter_app. Qed.

Lemma withKey_own_column (pids : list string) (uv sv : list num) (s : R)
  (j : nat) :
  withKey (nth j pids "undefined") (addedScore pids uv sv s j)
  = addedScore pids uv sv s j.
Proof.
  unfold addedScore. destruct (at_num sv j) as [|cell]; [reflexivity|].
  destruct (strict_eq (at_num uv j) (Fin 0) && Rgtb cell 0); [|reflexivity].
  unfold withKey. simpl. rewrite String.eqb_refl. reflexivity.
Qed.

Lemma withKey_other_column (pids : list string) (uv sv : list num) (s : R)
  (j j' : nat) :
  NoDup pids -> (j < List.length pids)%nat -> (j' < List.length pids)%nat ->
  j' <> j ->
  withKey (nth j pids "undefined") (addedScore pids uv sv s j') = [].
Proof.
  intros Hnd Hj Hj' Hne. unfold addedScore.
  destruct (at_num sv j') as [|cell]; [reflexivity|].
  destruct (strict_eq (at_num uv j') (Fin 0) && Rgtb cell 0); [|reflexivity].
  unfold withKey. simpl.
  destruct (String.eqb_spec (nth j' pids "undefined") (nth j pids "undefined"))
    as [Heq|_]; [|reflexivity].
  exfalso. apply Hne. revert Heq. apply NoDup_nth; assumption.
Qed.

Lemma withKey_other_columns (pids : list string) (uv sv : list num) (s : R)
  (j : nat) (l : list nat) :
  NoDup pids -> (j < List.length pids)%nat ->
  (forall j', In j' l -> (j' < List.length pids)%nat /\ j' <> j) ->
  withKey (nth j pids "undefined") (flat_map (addedScore pids uv sv s) l) = [].
Proof.
  intros Hnd Hj. induction l as [|j' l IH]; intros Hl; simpl.
  - reflexivity.
  - rewrite withKey_app, IH by (intros x Hx; apply Hl; right; exact Hx).
    rewrite withKey_other_column; auto; apply Hl; left; reflexivity.
Qed.

(** Among the scores added for one neighbour, those of the product of
    column [j] are the ones added at column [j]. *)
Lemma withKey_row (pids : list string) (uv sv : list num) (s : R) (j : nat) :
  NoDup pids -> (j < List.length pids)%nat ->
  withKey (nth j pids "undefined")
    (flat_map (addedScore pids uv sv s) (seq 0 (List.length pids)))
  = addedScore pids uv sv s j.
Proof.
  intros Hnd Hj.
  replace (List.length pids) with (j + S (List.length pids - S j))%nat at 1
    by lia.
  rewrite seq_app. simpl. rewrite flat_map_app. simpl.
  rewrite !withKey_app, withKey_own_column.
  rewrite !withKey_other_columns; auto.
  - rewrite app_nil_r. reflexivity.
  - intros j' Hj'. apply in_seq in Hj'. lia.
  - intros j' Hj'. apply in_seq in Hj'. lia.
Qed.

Lemma withKey_addedScores (m : list (list num)) (pids : list string)
  (uv : list num) (N : list Similar) (j : nat) :
  NoDup pids -> (j < List.length pids)%nat ->
  (forall n, In n N ->
     List.length (rowOf m (userIndex n)) = List.length pids) ->
  withKey (nth j pids "undefined") (addedScores m pids uv N)
  = flat_map
      (fun n => addedScore pids uv (rowOf m (userIndex n)) (similarity n) j) N.
Proof.
  intros Hnd Hj. unfold addedScores.
  induction N as [|n N IH]; intros Hrows; simpl.
  - reflexivity.
  - rewrite withKey_app, IH by (intros x Hx; apply Hrows; right; exact Hx).
    rewrite (Hrows n (or_introl eq_refl)), withKey_row by assumption.
    reflexivity.
Qed.

Lemma addedScore_sum (m : list (list num)) (pids : list string) (u : nat)
  (n : Similar) (j : nat) :
  strict_eq (at_num (rowOf m u) j) (Fin 0) = true ->
  Rsum (map snd (addedScore pids (rowOf m u) (rowOf m (userIndex n))
                   (similarity n) j))
  = contribution m j n.
Proof.
  intros Hzero. unfold addedScore, contribution. rewrite Hzero.
  destruct (at_num (rowOf m (userIndex n)) j) as [|cell]; [reflexivity|].
  simpl. destruct (Rgtb cell 0); simpl; lra.
Qed.

Lemma Rsum_app (l1 l2 : list R) : Rsum (l1 ++ l2) = Rsum l1 + Rsum l2.
Proof.
  unfold Rsum. induction l1 as [|x l1 IH]; simpl; [lra|]. rewrite IH. lra.
Qed.

(** The accumulated score of a recommended column is the sum of the
    specification. *)
Lemma column_score (m : list (list num)) (pids : list string) (u : nat)
  (N : list Similar) (j : nat) :
  NoDup pids -> (j < List.length pids)%nat ->
  (forall n, In n N ->
     List.length (rowOf m (userIndex n)) = List.length pids) ->
  strict_eq (at_num (rowOf m u) j) (Fin 0) = true ->
  Rsum (map snd (withKey (nth j pids "undefined")
                   (addedScores m pids (rowOf m u) N)))
  = neighbourScore m N j.
Proof.
  intros Hnd Hj Hrows Hzero. rewrite withKey_addedScores by assumption.
  unfold neighbourScore. clear Hrows.
  induction N as [|n N IH]; simpl.
  - reflexivity.
  - rewrite map_app, Rsum_app, IH, addedScore_sum by assumption.
    reflexivity.
Qed.

(** The products that receive a score are the recommended columns. *)
Lemma scored_products (m : list (list num)) (pids : list string) (u : nat)
  (N : list Similar) (k : string) :
  (forall n, In n N ->
     List.length (rowOf m (userIndex n)) = List.length pids) ->
  In k (map fst (addedScores m pids (rowOf m u) N))
  <-> exists j, (j < List.length pids)%nat /\ isCandidate m u N j
                /\ k = nth j pids "undefined".
Proof.
  intros Hrows. unfold addedScores, isCandidate. rewrite in_map_iff. split.
  - intros (c & <- & Hc). apply in_flat_map in Hc. destruct Hc as (n & Hn & Hc).
    apply in_flat_map in Hc. destruct Hc as (j & Hj & Hc).
    apply in_seq in Hj. rewrite (Hrows n Hn) in Hj.
    apply addedScore_In in Hc. destruct Hc as (cell & Hcell & Hz & Hpos & ->).
    exists j. split; [lia|]. split; [|reflexivity].
    split; [exact Hz|]. exists n, cell. auto.
  - intros (j & Hj & (Hz & n & cell & Hn & Hcell & Hpos) & ->).
    exists (nth j pids "undefined", cell * similarity n).
    split; [reflexivity|]. apply in_flat_map. exists n. split; [exact Hn|].
    apply in_flat_map. exists j. split.
    + apply in_seq. rewrite (Hrows n Hn). lia.
    + apply addedScore_In. exists cell. auto.
Qed.

Lemma getRow_rowOf (m : list (list num)) (u : nat) :
  (u < List.length m)%nat -> getRow m u = Ok (rowOf m u).
Proof.
  intros Hu. unfold getRow, rowOf.
  destruct (nth_error m u) as [row|] eqn:E.
  - rewrite (nth_error_nth _ _ _ E). reflexivity.
  - apply nth_error_None in E. lia.
Qed.

(** C2. For a user that is absent from the matrix the collaborative
    recommendations are the empty list.  Otherwise they are the first
    [limit] of a list, sorted by score descending, that holds exactly one
    candidate for each product whose target-row cell is 0 and whose cell is
    > 0 in the row of one of the neighbours, the score being the sum over
    the neighbours of neighbour cell times neighbour similarity; the
    neighbours are the 10 most similar of the other users whose row has
    cosine similarity > 0.1 with the target row, the cosine similarity
    being [cosine]: the dot product over the product of the L2 norms, and
    0 when one of the norms is 0.  The matrix has one row for each user id
    and one column for each product id. *)
Theorem getCollaborativeRecommendations_reference (this : Engine)
  (uim : UserItemMatrix) (userId : string) (limit : nat) :
  userItemMatrix this = Some uim ->
  wellFormed uim ->
  (indexOf (userIds uim) userId = None ->
   getCollaborativeRecommendations this userId limit = Ok [])
  /\ (forall u,
        indexOf (userIds uim) userId = Some u ->
        exists N full,
          mostSimilar 10 (matrix uim) u N
          /\ getCollaborativeRecommendations this userId limit
             = Ok (firstn limit full)
          /\ StronglySorted (descending score) full
          /\ NoDup (map productId full)
          /\ forall r,
               In r full
               <-> exists j p,
                     nth_error (productIds uim) j = Some p
                     /\ isCandidate (matrix uim) u N j
                     /\ r = {| productId := p;
                               score := neighbourScore (matrix uim) N j;
                               type := collaborative |}).
Proof.
  intros Hm (Hlen & Hrow & Hnd).
  unfold getCollaborativeRecommendations. rewrite Hm. split.
  - intros ->. reflexivity.
  - intros u Hu. rewrite Hu.
    assert (Hlt : (u < List.length (matrix uim))%nat).
    { rewrite Hlen. eapply indexOf_lt; eauto. }
    rewrite (getRow_rowOf _ _ Hlt). cbn [bind].
    rewrite similarities_flat_map.
    set (N := slice0 10 _).
    assert (HN : mostSimilar 10 (matrix uim) u N).
    { apply topSimilarUsers_mostSimilar. intros i Hi.
      rewrite !Hrow by (apply nth_In; assumption). reflexivity. }
    assert (Hrows : forall n, In n N ->
              List.length (rowOf (matrix uim) (userIndex n))
              = List.length (productIds uim)).
    { intros n Hn. destruct HN as (_ & Hnb & _).
      destruct (Hnb n Hn) as (Hi & _). apply Hrow. apply nth_In. exact Hi. }
    rewrite recommendations_entries.
    set (added := addedScores (matrix uim) (productIds uim)
                    (rowOf (matrix uim) u) N).
    set (entries := map (fun k => (k, Rsum (map snd (withKey k added))))
                      (first_seen (map fst added))).
    exists N, (sort_desc score (map collaborativeRec entries)).
    split; [exact HN|]. split; [reflexivity|].
    split; [apply sort_desc_sorted|]. split.
    + apply (Permutation_NoDup
               (l := map productId (map collaborativeRec entries))).
      * apply Permutation_map. symmetry. apply sort_desc_perm.
      * unfold entries. rewrite !map_map. simpl. rewrite map_id.
        apply first_seen_NoDup.
    + intros r. rewrite sort_desc_In. unfold entries. rewrite map_map.
      rewrite in_map_iff. split.
      * intros (k & <- & Hk). apply (proj1 (first_seen_In _ _)) in Hk.
        apply (scored_products _ _ _ _ _ Hrows) in Hk.
        destruct Hk as (j & Hj & Hcand & ->).
        exists j, (nth j (productIds uim) "undefined").
        split; [apply nth_error_nth'; exact Hj|]. split; [exact Hcand|].
        unfold collaborativeRec. simpl. f_equal.
        apply column_score; auto. apply Hcand.
      * intros (j & p & Hp & Hcand & ->).
        assert (Hj : (j < List.length (productIds uim))%nat)
          by (apply nth_error_Some; congruence).
        assert (Hpj : p = nth j (productIds uim) "undefined")
          by (symmetry; apply nth_error_nth; exact Hp).
        exists p. split.
        -- unfold collaborativeRec. simpl. f_equal. subst p.
           apply column_score; auto. apply Hcand.
        -- apply (proj2 (first_seen_In _ _)).
           apply (scored_products _ _ _ _ _ Hrows). exists j. auto.
Qed.

Lemma getCollaborativeRecommendations_reference_witness :
  exists N full,
    mostSimilar 10 (matrix sampleMatrix) 0 N
    /\ getCollaborativeRecommendations sampleEngine "U1" 5
       = Ok (firstn 5 full)
    /\ StronglySorted (descending score) full.
Proof.
  destruct (getCollaborativeRecommendations_reference sampleEngine
              sampleMatrix "U1" 5) as (_ & H).
  - reflexivity.
  - split; [reflexivity|]. split.
    + intros row [<-|[<-|[]]]; reflexivity.
    + constructor; [intros [H|[]]; discriminate H|].
      constructor; [intros []|constructor].
  - destruct (H 0%nat eq_refl) as (N & full & HN & Hout & Hsorted & _).
    exists N, full. auto.
Defined.

(** The matrix that [loadUserItemMatrix] builds is well formed when the
    active products have distinct ids. *)
Lemma filledMatrix_wellFormed (clock : nat -> R) (users : list User)
  (products : list Product) :
  NoDup (map p_id products) ->
  wellFormed {| matrix := filledMatrix clock users (map p_id products);
                userIds := map u_id users;
                productIds := map p_id products |}.
Proof.
  intros Hnd. unfold wellFormed, filledMatrix, reduce.
  cbn [matrix userIds productIds].
  destruct (users_loop_frame clock (map p_id products) users 0
              (repeat (repeat (Fin 0) (List.length (map p_id products)))
                 (List.length users)) 0) as (H1 & H2 & _).
  split; [|split; [|exact Hnd]].
  - rewrite H1, repeat_length, length_map. reflexivity.
  - intros row Hin. apply (In_nth _ _ []) in Hin.
    destruct Hin as (k & Hk & <-). rewrite H2.
    rewrite H1, repeat_length in Hk.
    rewrite (nth_indep _ [] (repeat (Fin 0) (List.length (map p_id products))))
      by (rewrite repeat_length; exact Hk).
    rewrite nth_repeat. apply repeat_length.
Qed.

(** ** Worked examples *)

(** Merging [([P1: 0.5], 0.4); ([P1: 0.8], 0.4); ([P2: 0.8], 0.2)] gives P1
    with 0.5 * 0.4 + 0.8 * 0.4 = 0.52 and then P2 with 0.8 * 0.2 = 0.16. *)
Example combineRecommendations_scenario :
  combineRecommendations scenarioSources
  = [ {| r_productId := "P1"; r_score := 0.5 * 0.4 + 0.8 * 0.4;
         sources := [collaborative; content_based]; boost := None |};
      {| r_productId := "P2"; r_score := 0.8 * 0.2;
         sources := [trending]; boost := None |} ].
Proof.
  unfold combineRecommendations, scenarioSources, combineStep. simpl.
  destruct (Rgt_dec (0.8 * 0.2) (0.5 * 0.4 + 0.8 * 0.4)) as [Hgt|_]; [lra|].
  reflexivity.
Qed.

Lemma l2_norm_3_4_0 : l2_norm [Fin 3; Fin 4; Fin 0] = Fin 5.
Proof.
  unfold l2_norm. simpl.
  replace (3 * 3 + (4 * 4 + (0 * 0 + 0))) with (5 * 5) by lra.
  destruct (Rlt_dec (5 * 5) 0) as [Hlt|_]; [lra|].
  rewrite sqrt_square by lra. reflexivity.
Qed.

Lemma l2_norm_1_2_2 : l2_norm [Fin 1; Fin 2; Fin 2] = Fin 3.
Proof.
  unfold l2_norm. simpl.
  replace (1 * 1 + (2 * 2 + (2 * 2 + 0))) with (3 * 3) by lra.
  destruct (Rlt_dec (3 * 3) 0) as [Hlt|_]; [lra|].
  rewrite sqrt_square by lra. reflexivity.
Qed.

Lemma cosineSimilarity_exact :
  cosineSimilarity [Fin 3; Fin 4; Fin 0] [Fin 1; Fin 2; Fin 2]
  = Fin ((0 + 3 * 1 + 4 * 2 + 0 * 2) / (5 * 3)).
Proof.
  rewrite cosineSimilarity_eq, l2_norm_3_4_0, l2_norm_1_2_2. simpl.
  destruct (Req_dec_T 5 0) as [H|_]; [lra|].
  destruct (Req_dec_T 3 0) as [H|_]; [lra|]. simpl.
  destruct (Req_dec_T (5 * 3) 0) as [H|_]; [lra|]. reflexivity.
Qed.

(** U1 is recommended P3, which only U2 has, with U2's cell times the
    similarity 11/15 of the two rows. *)
Example getCollaborativeRecommendations_exact :
  getCollaborativeRecommendations exactEngine "U1" 5
  = Ok [ {| productId := "P3";
            score := 2 * ((0 + 3 * 1 + 4 * 2 + 0 * 2) / (5 * 3));
            type := collaborative |} ].
Proof.
  unfold getCollaborativeRecommendations, exactEngine.
  cbn [userItemMatrix userIds matrix productIds indexOf indexOf_from
       String.eqb Ascii.eqb Bool.eqb getRow nth_error bind List.length seq
       fold_left].
  unfold similarityStep at 2. cbn [Nat.eqb].
  unfold similarityStep. cbn [Nat.eqb rowOf nth].
  rewrite cosineSimilarity_exact. unfold Rgtb.
  destruct (Rgt_dec ((0 + 3 * 1 + 4 * 2 + 0 * 2) / (5 * 3)) 0.1) as [_|H];
    [|exfalso; apply H; lra].
  cbn [app sort_desc fold_right insert_desc slice0 firstn fold_left].
  unfold neighbourStep.
  cbn [userIndex similarity rowOf nth List.length seq fold_left].
  unfold contributionStep.
  cbn [at_num nth strict_eq Rgtb].
  destruct (Req_dec_T 3 0) as [H|_]; [lra|].
  destruct (Req_dec_T 4 0) as [H|_]; [lra|].
  destruct (Req_dec_T 0 0) as [_|H]; [|congruence].
  unfold Rgtb.
  destruct (Rgt_dec 1 0) as [_|H]; [|exfalso; lra].
  destruct (Rgt_dec 2 0) as [_|H]; [|exfalso; lra].
  reflexivity.
Qed.

(** * Further properties of the engine *)

(** ** Recency *)

(** X1. The recency score of an event that is not in the future lies in
    (0,1], and of two such events the more recent one scores strictly
    more. *)
Theorem calculateRecencyScore_monotone (now older newer : R) :
  older < newer -> newer <= now ->
  0 < calculateRecencyScore now older
  /\ calculateRecencyScore now older < calculateRecencyScore now newer
  /\ calculateRecencyScore now newer <= 1.
Proof.
  intros Hlt Hle. split; [|split].
  - rewrite calculateRecencyScore_days. apply exp_pos.
  - rewrite !calculateRecencyScore_days. apply exp_increasing.
    unfold days_since. lra.
  - apply calculateRecencyScore_le_1. exact Hle.
Qed.

Lemma calculateRecencyScore_monotone_witness :
  calculateRecencyScore 1000 0 < calculateRecencyScore 1000 1000.
Proof.
  apply (calculateRecencyScore_monotone 1000 0 1000); lra.
Defined.

(** ** Interaction matrix *)

Lemma filledMatrix_shape (clock : nat -> R) (users : list User)
  (pids : list string) :
  List.length (filledMatrix clock users pids) = List.length users
  /\ forall i, (i < List.length users)%nat ->
       List.length (nth i (filledMatrix clock users pids) [])
       = List.length pids.
Proof.
  unfold filledMatrix, reduce.
  destruct (users_loop_frame clock pids users 0
              (repeat (repeat (Fin 0) (List.length pids)) (List.length users))
              0) as (H1 & H2 & _).
  split.
  - rewrite H1. apply repeat_length.
  - intros i Hi. rewrite H2.
    rewrite (nth_indep _ [] (repeat (Fin 0) (List.length pids)))
      by (rewrite repeat_length; exact Hi).
    rewrite nth_repeat. apply repeat_length.
Qed.

(** X2. When every stored event carries a productId and a duration and
    none is stamped later than the clock reads during the build,
    [loadUserItemMatrix] stores a number of [0,1] in every cell of the
    matrix. *)
Theorem loadUserItemMatrix_unit_interval (store : Store) (clock : nat -> R)
  (this : Engine) (users : list User) (products : list Product) :
  User_find_active store = Ok users ->
  Product_find_active store = Ok products ->
  (forall u e, In u users -> In e (historyOf u) -> identified e) ->
  (forall u e, In u users -> In e (historyOf u) ->
     (exists d, i_duration e = Some d) /\ forall n, i_timestamp e <= clock n) ->
  exists this' M,
    loadUserItemMatrix store clock this = Ok this'
    /\ userItemMatrix this' = Some M
    /\ forall i j,
         (i < List.length users)%nat -> (j < List.length products)%nat ->
         unit_cell (get2 (matrix M) i j).
Proof.
  intros Hus Hps Hid Hev.
  rewrite (loadUserItemMatrix_identified store clock this users products)
    by assumption.
  eexists; eexists. split; [reflexivity|].
  cbn [userItemMatrix]. split; [reflexivity|]. cbn [matrix].
  intros i j Hi Hj.
  pose proof (filledMatrix_unit_interval clock users (map p_id products)
                Hev) as Hunit.
  destruct (filledMatrix_shape clock users (map p_id products))
    as (Hrows & Hcols).
  unfold get2, at_num. apply Forall_nth_default.
  - apply Forall_nth_default; [exact Hunit|]. rewrite Hrows. exact Hi.
  - rewrite (Hcols i Hi), length_map. exact Hj.
Qed.

Lemma loadUserItemMatrix_unit_interval_witness :
  exists this' M,
    loadUserItemMatrix
      (memoryStore [userWithHistory "U" [viewOf "P1" 1000 120]]
         [sampleProduct "P1"] [])
      (fun _ => 1000) newEngine = Ok this'
    /\ userItemMatrix this' = Some M
    /\ unit_cell (get2 (matrix M) 0 0).
Proof.
  destruct (loadUserItemMatrix_unit_interval
              (memoryStore [userWithHistory "U" [viewOf "P1" 1000 120]]
                 [sampleProduct "P1"] [])
              (fun _ => 1000) newEngine
              [userWithHistory "U" [viewOf "P1" 1000 120]]
              [sampleProduct "P1"])
    as (this' & M & H1 & H2 & H3).
  - reflexivity.
  - reflexivity.
  - intros u e [<-|[]] [<-|[]]. discriminate.
  - intros u e [<-|[]] [<-|[]]. simpl. split.
    + exists 120. reflexivity.
    + intros _. lra.
  - exists this', M. split; [exact H1|]. split; [exact H2|].
    apply H3; simpl; lia.
Defined.

(** X3. [loadUserItemMatrix] never throws and never touches the
    embeddings or the flag.  The engine is left exactly as it was when one
    of the two queries fails, and also when both succeed but an entry of
    an active user's history carries no productId, the loops then throwing
    into the [catch].  When both queries succeed and every entry carries a
    productId, the engine holds a matrix with one row for each active user
    and one column for each active product, beside the ids of both in the
    order of the rows and columns. *)
Theorem loadUserItemMatrix_outcome (store : Store) (clock : nat -> R)
  (this : Engine) :
  exists this',
    loadUserItemMatrix store clock this = Ok this'
    /\ productEmbeddings this' = productEmbeddings this
    /\ userEmbeddings this' = userEmbeddings this
    /\ isInitialized this' = isInitialized this
    /\ ((forall e, User_find_active store = Throw e -> this' = this)
        /\ (forall e, Product_find_active store = Throw e -> this' = this)
        /\ (forall users products,
              User_find_active store = Ok users ->
              Product_find_active store = Ok products ->
              ((exists u e, In u users /\ In e (historyOf u)
                            /\ i_productId e = None) ->
               this' = this)
              /\ ((forall u e, In u users -> In e (historyOf u) ->
                     identified e) ->
                  exists M,
                    userItemMatrix this' = Some M
                    /\ userIds M = map u_id users
                    /\ productIds M = map p_id products
                    /\ List.length (matrix M) = List.length users
                    /\ forall row, In row (matrix M) ->
                         List.length row = List.length products))).
Proof.
  unfold loadUserItemMatrix.
  destruct (User_find_active store) as [users|e1].
  - destruct (Product_find_active store) as [products|e2]; cbn [bind].
    + destruct (interactionMatrix_outcome clock users (map p_id products))
        as [(Hid & ->)|((u & e & Hu & He & Hnone) & ->)];
        cbn [bind try_catch].
      * eexists. split; [reflexivity|].
        cbn [productEmbeddings userEmbeddings isInitialized userItemMatrix].
        do 3 (split; [reflexivity|]).
        split; [intros e [=]|]. split; [intros e [=]|].
        intros users' products' [= <-] [= <-]. split.
        -- intros (u & e & Hu & He & Hnone). exfalso.
           apply (Hid u e Hu He). exact Hnone.
        -- intros _. eexists. split; [reflexivity|].
           cbn [userIds productIds matrix].
           split; [reflexivity|]. split; [reflexivity|].
           destruct (filledMatrix_shape clock users (map p_id products))
             as (Hrows & Hcols).
           split; [exact Hrows|].
           intros row Hin. apply (In_nth _ _ []) in Hin.
           destruct Hin as (i & Hi & <-). rewrite Hrows in Hi.
           rewrite (Hcols i Hi). apply length_map.
      * exists this. split; [reflexivity|]. do 3 (split; [reflexivity|]).
        split; [intros e' [=]|]. split; [intros e' [=]|].
        intros users' products' [= <-] [= <-]. split; [reflexivity|].
        intros Hid. exfalso. apply (Hid u e Hu He). exact Hnone.
    + cbn [try_catch]. exists this. split; [reflexivity|].
      do 3 (split; [reflexivity|]).
      split; [reflexivity|]. split; [reflexivity|].
      intros users' products' _ [=].
  - cbn [bind try_catch]. exists this. split; [reflexivity|].
    do 3 (split; [reflexivity|]).
    split; [reflexivity|]. split; [reflexivity|].
    intros users' products' [=].
Qed.

Lemma loadUserItemMatrix_outcome_witness :
  loadUserItemMatrix downStore (fun _ => 1000) sampleEngine = Ok sampleEngine
  /\ loadUserItemMatrix
       (memoryStore
          [userWithHistory "U" [viewOf "P1" 1000 120; anonymousView 1000]]
          [sampleProduct "P1"] [])
       (fun _ => 1000) sampleEngine
     = Ok sampleEngine.
Proof.
  split.
  - destruct (loadUserItemMatrix_outcome downStore (fun _ => 1000)
                sampleEngine)
      as (this' & Hload & _ & _ & _ & Hfail & _).
    rewrite Hload. f_equal. apply (Hfail StoreError). reflexivity.
  - destruct (loadUserItemMatrix_outcome
                (memoryStore
                   [userWithHistory "U"
                      [viewOf "P1" 1000 120; anonymousView 1000]]
                   [sampleProduct "P1"] [])
                (fun _ => 1000) sampleEngine)
      as (this' & Hload & _ & _ & _ & _ & _ & Hbuild).
    rewrite Hload. f_equal.
    apply (Hbuild
             [userWithHistory "U" [viewOf "P1" 1000 120; anonymousView 1000]]
             [sampleProduct "P1"] eq_refl eq_refl).
    exists (userWithHistory "U" [viewOf "P1" 1000 120; anonymousView 1000]),
      (anonymousView 1000).
    split; [left; reflexivity|]. split; [right; left; reflexivity|].
    reflexivity.
Defined.

(** ** Collaborative filter *)

Lemma getCollaborativeRecommendations_unfolded (this : Engine)
  (uim : UserItemMatrix) (userId : string) (limit u : nat) :
  userItemMatrix this = Some uim ->
  indexOf (userIds uim) userId = Some u ->
  (u < List.length (matrix uim))%nat ->
  getCollaborativeRecommendations this userId limit
  = Ok (slice0 limit
          (sort_desc score
             (map collaborativeRec
                (fold_left
                   (neighbourStep (matrix uim) (productIds uim)
                      (rowOf (matrix uim) u))
                   (neighboursOf (matrix uim) u) [])))).
Proof.
  intros Hm Hu Hlt. unfold getCollaborativeRecommendations.
  rewrite Hm, Hu, (getRow_rowOf _ _ Hlt). cbn [bind].
  rewrite similarities_flat_map. reflexivity.
Qed.

Lemma neighboursOf_similar (m : list (list num)) (u : nat) (n : Similar) :
  In n (neighboursOf m u) ->
  (userIndex n < List.length m)%nat /\ similarity n > 0.1.
Proof.
  intros Hn. unfold neighboursOf, slice0 in Hn. apply In_firstn in Hn.
  apply sort_desc_In in Hn. apply in_flat_map in Hn.
  destruct Hn as (i & Hi & Hn). apply in_seq in Hi.
  apply keptNeighbour_In in Hn. destruct Hn as (-> & _ & _ & Hs).
  split; [lia|exact Hs].
Qed.

Lemma Rsum_pos (l : list R) :
  l <> [] -> (forall x, In x l -> x > 0) -> Rsum l > 0.
Proof.
  unfold Rsum. induction l as [|x l IH]; intros Hne Hpos; [contradiction|].
  simpl. pose proof (Hpos x (or_introl eq_refl)) as Hx.
  destruct l as [|y l].
  - simpl. lra.
  - assert (Rsum (y :: l) > 0).
    { apply IH; [discriminate|]. intros z Hz. apply Hpos. right. exact Hz. }
    unfold Rsum in *. lra.
Qed.

Lemma addedScores_pos (m : list (list num)) (pids : list string)
  (uv : list num) (N : list Similar) (c : string * R) :
  (forall n, In n N -> similarity n > 0) ->
  In c (addedScores m pids uv N) -> snd c > 0.
Proof.
  intros Hsim Hc. unfold addedScores in Hc. apply in_flat_map in Hc.
  destruct Hc as (n & Hn & Hc). apply in_flat_map in Hc.
  destruct Hc as (j & _ & Hc). apply addedScore_In in Hc.
  destruct Hc as (cell & _ & _ & Hcell & ->). simpl.
  specialize (Hsim n Hn). apply Rmult_gt_0_compat; assumption.
Qed.

Lemma strict_eq_true (a b : num) : strict_eq a b = true -> a = b.
Proof.
  destruct a as [|x], b as [|y]; simpl; try discriminate.
  destruct (Req_dec_T x y); [congruence|discriminate].
Qed.

(** X4. For a well-formed matrix the collaborative filter does not throw
    and returns at most [limit] candidates, for distinct products, each of
    type collaborative with a score > 0 and each for a product whose cell
    in the row of the user is 0: it never recommends a product the user has
    a score for already. *)
Theorem getCollaborativeRecommendations_safe (this : Engine)
  (uim : UserItemMatrix) (userId : string) (limit u : nat) :
  userItemMatrix this = Some uim ->
  wellFormed uim ->
  indexOf (userIds uim) userId = Some u ->
  exists recs,
    getCollaborativeRecommendations this userId limit = Ok recs
    /\ (List.length recs <= limit)%nat
    /\ NoDup (map productId recs)
    /\ forall r, In r recs ->
         type r = collaborative /\ score r > 0
         /\ exists j,
              nth_error (productIds uim) j = Some (productId r)
              /\ get2 (matrix uim) u j = Fin 0.
Proof.
  intros Hm (Hlen & Hrow & Hnd) Hu.
  assert (Hlt : (u < List.length (matrix uim))%nat).
  { rewrite Hlen. eapply indexOf_lt; eauto. }
  rewrite (getCollaborativeRecommendations_unfolded this uim userId limit u)
    by assumption.
  set (N := neighboursOf (matrix uim) u).
  assert (Hrows : forall n, In n N ->
            List.length (rowOf (matrix uim) (userIndex n))
            = List.length (productIds uim)).
  { intros n Hn. apply Hrow. apply nth_In.
    apply (neighboursOf_similar _ _ _ Hn). }
  assert (Hsim : forall n, In n N -> similarity n > 0).
  { intros n Hn. pose proof (neighboursOf_similar _ _ _ Hn). lra. }
  rewrite recommendations_entries.
  set (added := addedScores (matrix uim) (productIds uim)
                  (rowOf (matrix uim) u) N).
  eexists. split; [reflexivity|]. unfold slice0.
  split; [apply firstn_le_length|]. split.
  - rewrite <- firstn_map. apply NoDup_firstn.
    apply (Permutation_NoDup
             (l := map productId
                     (map collaborativeRec
                        (map (fun k => (k, Rsum (map snd (withKey k added))))
                           (first_seen (map fst added)))))).
    + apply Permutation_map. symmetry. apply sort_desc_perm.
    + rewrite !map_map. simpl. rewrite map_id. apply first_seen_NoDup.
  - intros r Hr. apply In_firstn in Hr. apply sort_desc_In in Hr.
    rewrite map_map in Hr. apply in_map_iff in Hr.
    destruct Hr as (k & <- & Hk). apply (proj1 (first_seen_In _ _)) in Hk.
    unfold collaborativeRec. simpl. split; [reflexivity|]. split.
    + apply Rsum_pos.
      * apply in_map_iff in Hk. destruct Hk as (c & Hc & Hin).
        assert (H : In (snd c) (map snd (withKey k added))).
        { apply in_map. apply filter_In. split; [exact Hin|].
          apply String.eqb_eq. exact Hc. }
        intros Hnil. rewrite Hnil in H. destruct H.
      * intros x Hx. apply in_map_iff in Hx. destruct Hx as (c & <- & Hc).
        apply filter_In in Hc. destruct Hc as (Hc & _).
        eapply addedScores_pos; eauto.
    + apply (scored_products _ _ _ _ _ Hrows) in Hk.
      destruct Hk as (j & Hj & (Hzero & _) & ->).
      exists j. split; [apply nth_error_nth'; exact Hj|].
      apply strict_eq_true in Hzero. exact Hzero.
Qed.

Lemma getCollaborativeRecommendations_safe_witness :
  exists recs,
    getCollaborativeRecommendations exactEngine "U1" 5 = Ok recs
    /\ (List.length recs <= 5)%nat
    /\ NoDup (map productId recs).
Proof.
  destruct (getCollaborativeRecommendations_safe exactEngine
              {| matrix := [ [Fin 3; Fin 4; Fin 0]; [Fin 1; Fin 2; Fin 2] ];
                 userIds := ["U1"; "U2"];
                 productIds := ["P1"; "P2"; "P3"] |} "U1" 5 0)
    as (recs & H1 & H2 & H3 & _).
  - reflexivity.
  - split; [reflexivity|]. split.
    + intros row [<-|[<-|[]]]; reflexivity.
    + constructor; [intros [H|[H|[]]]; discriminate H|].
      constructor; [intros [H|[]]; discriminate H|].
      constructor; [intros []|constructor].
  - reflexivity.
  - exists recs. auto.
Defined.

Lemma l2_norm_zeros (row : list num) :
  Forall (eq (Fin 0)) row -> l2_norm row = Fin 0.
Proof.
  intros Hrow. unfold l2_norm.
  assert (H : fold_right (fun x s => add (mul x x) s) (Fin 0) row = Fin 0).
  { induction Hrow as [|x row <- _ IH]; simpl; [reflexivity|].
    rewrite IH. simpl. f_equal. lra. }
  rewrite H. simpl. destruct (Rlt_dec 0 0); [lra|]. rewrite sqrt_0.
  reflexivity.
Qed.

(** X5. Cold start inside the matrix: a user whose row holds only zeros
    has no neighbour, and the collaborative filter returns the empty list
    for that user, whatever the other rows hold. *)
Theorem getCollaborativeRecommendations_zero_row (this : Engine)
  (uim : UserItemMatrix) (userId : string) (limit u : nat) (row : list num) :
  userItemMatrix this = Some uim ->
  indexOf (userIds uim) userId = Some u ->
  nth_error (matrix uim) u = Some row ->
  Forall (eq (Fin 0)) row ->
  getCollaborativeRecommendations this userId limit = Ok [].
Proof.
  intros Hm Hu Hrow Hzero.
  assert (Hlt : (u < List.length (matrix uim))%nat)
    by (apply nth_error_Some; congruence).
  rewrite (getCollaborativeRecommendations_unfolded this uim userId limit u)
    by assumption.
  assert (Hrow' : rowOf (matrix uim) u = row)
    by (apply nth_error_nth; exact Hrow).
  assert (Hnone : forall l,
            flat_map (keptNeighbour (matrix uim) u (rowOf (matrix uim) u)) l
            = []).
  { induction l as [|i l IH]; simpl; [reflexivity|]. rewrite IH, app_nil_r.
    unfold keptNeighbour. destruct (Nat.eqb i u); [reflexivity|].
    rewrite cosineSimilarity_eq, Hrow', (l2_norm_zeros row Hzero).
    rewrite strict_eq_refl. simpl. unfold Rgtb.
    destruct (Rgt_dec 0 0.1); [lra|reflexivity]. }
  unfold neighboursOf. rewrite Hnone. cbn. unfold slice0.
  rewrite firstn_nil. reflexivity.
Qed.

Lemma getCollaborativeRecommendations_zero_row_witness :
  getCollaborativeRecommendations
    {| userItemMatrix :=
         Some {| matrix := [ [Fin 0; Fin 0]; [Fin 1; Fin 1] ];
                 userIds := ["U1"; "U2"];
                 productIds := ["P1"; "P2"] |};
       productEmbeddings := [];
       userEmbeddings := [];
       isInitialized := true |} "U1" 5 = Ok [].
Proof.
  apply (getCollaborativeRecommendations_zero_row _
           {| matrix := [ [Fin 0; Fin 0]; [Fin 1; Fin 1] ];
              userIds := ["U1"; "U2"];
              productIds := ["P1"; "P2"] |} "U1" 5 0 [Fin 0; Fin 0]).
  - reflexivity.
  - reflexivity.
  - reflexivity.
  - repeat constructor.
Defined.

Lemma queryable_collaborative (this : Engine) (userId : string) (limit : nat) :
  queryable this ->
  exists recs,
    getCollaborativeRecommendations this userId limit = Ok recs
    /\ (List.length recs <= limit)%nat.
Proof.
  unfold queryable. intros Hq.
  destruct (userItemMatrix this) as [uim|] eqn:Hm.
  - destruct (indexOf (userIds uim) userId) as [u|] eqn:Hu.
    + assert (Hlt : (u < List.length (matrix uim))%nat).
      { rewrite Hq. eapply indexOf_lt; eauto. }
      eexists.
      rewrite (getCollaborativeRecommendations_unfolded _ uim userId limit u);
        auto.
      split; [reflexivity|]. apply firstn_le_length.
    + exists []. unfold getCollaborativeRecommendations. rewrite Hm, Hu.
      split; [reflexivity|]. simpl. lia.
  - exists []. unfold getCollaborativeRecommendations. rewrite Hm.
    split; [reflexivity|]. simpl. lia.
Qed.

(** X6. The state that [loadUserItemMatrix] leaves can always be queried:
    whenever both queries of the build succeed, the collaborative filter
    on the state after the build returns a list of at most [limit]
    candidates, for every user id, known or not, and never throws.  Either
    every stored entry carries a productId, so that the build stores its
    matrix, or the engine held no matrix or a matrix with one row for each
    of its user ids before, which is then the state the failed build
    leaves; in both cases the state after the build holds no matrix or one
    with a row for each of its user ids. *)
Theorem loadUserItemMatrix_then_collaborative (store : Store)
  (clock : nat -> R) (this : Engine) (users : list User)
  (products : list Product) (userId : string) (limit : nat) :
  User_find_active store = Ok users ->
  Product_find_active store = Ok products ->
  (forall u e, In u users -> In e (historyOf u) -> identified e)
  \/ queryable this ->
  exists this' recs,
    loadUserItemMatrix store clock this = Ok this'
    /\ getCollaborativeRecommendations this' userId limit = Ok recs
    /\ (List.length recs <= limit)%nat
    /\ queryable this'.
Proof.
  intros Hus Hps Hcase. unfold loadUserItemMatrix. rewrite Hus, Hps.
  cbn [bind].
  assert (Hnew : queryable
                   {| userItemMatrix :=
                        Some {| matrix :=
                                  filledMatrix clock users (map p_id products);
                                userIds := map u_id users;
                                productIds := map p_id products |};
                      productEmbeddings := productEmbeddings this;
                      userEmbeddings := userEmbeddings this;
                      isInitialized := isInitialized this |}).
  { unfold queryable. cbn [userItemMatrix matrix userIds].
    rewrite (proj1 (filledMatrix_shape _ _ _)), length_map. reflexivity. }
  destruct (interactionMatrix_outcome clock users (map p_id products))
    as [(_ & ->)|((u & e & Hu & He & Hnone) & ->)]; cbn [bind try_catch].
  - destruct (queryable_collaborative _ userId limit Hnew) as (recs & H1 & H2).
    eexists _, recs. split; [reflexivity|]. auto.
  - assert (Hq : queryable this).
    { destruct Hcase as [Hid|Hq]; [|exact Hq].
      exfalso. apply (Hid u e Hu He). exact Hnone. }
    destruct (queryable_collaborative this userId limit Hq) as (recs & H1 & H2).
    exists this, recs. auto.
Qed.

Lemma loadUserItemMatrix_then_collaborative_witness :
  exists this' recs,
    loadUserItemMatrix unfeaturedStore (fun _ => 1000) newEngine = Ok this'
    /\ getCollaborativeRecommendations this' "U" 3 = Ok recs
    /\ (List.length recs <= 3)%nat.
Proof.
  destruct (loadUserItemMatrix_then_collaborative unfeaturedStore
              (fun _ => 1000) newEngine
              [userWithHistory "U" [viewOf "P1" 1000 120]]
              [sampleProduct "P1"] "U" 3 eq_refl eq_refl)
    as (this' & recs & H1 & H2 & H3 & _).
  - left. intros u e [<-|[]] [<-|[]]. discriminate.
  - exists this', recs. auto.
Defined.

(** ** Cosine similarity *)









(** ** Hybrid ranker *)








(** ** Personalization boost *)

Lemma someM_category_throw (cats : list string) (e : exn) :
  someM (fun cat : string => @Throw bool TypeError) cats = Throw e ->
  e = TypeError.
Proof.
  destruct cats as [|c cats]; simpl; [discriminate|]. intros [= <-].
  reflexivity.
Qed.

Lemma boostOf_outcome (user : User) (product : Product) (month : nat) :
  (exists b, boostOf user product month = Ok b
             /\ 1 <= b <= 1.3 * 1.2 * 1.4 * 1.1)
  \/ (boostOf user product month = Throw TypeError
      /\ category product = None /\ preferredCategories user <> []).
Proof.
  unfold boostOf. fold (preferredCategories user).
  destruct (category product) as [c|].
  - left. rewrite someM_pure. cbn [bind]. eexists. split; [reflexivity|].
    destruct (existsb _ _), (_ && _), (includes _ _),
      (match attributes product with Some _ => _ | None => _ end); lra.
  - destruct (preferredCategories user) as [|cat cats].
    + left. cbn [someM bind]. eexists. split; [reflexivity|].
      destruct (_ && _), (includes _ _),
        (match attributes product with Some _ => _ | None => _ end); lra.
    + right. cbn [someM bind]. repeat split. discriminate.
Qed.

Lemma boostAll_scores (months : nat -> nat) (productMap : Map Product)
  (user : User) (recs out : list Ranked) (tick : nat) :
  boostAll months productMap user recs tick = Ok out ->
  Forall2 (fun rec o =>
             r_productId o = r_productId rec /\ sources o = sources rec
             /\ exists b, 1 <= b <= 1.3 * 1.2 * 1.4 * 1.1
                          /\ r_score o = r_score rec * b)
    recs out.
Proof.
  revert out tick; induction recs as [|rec rest IH]; intros out tick; simpl.
  - intros [= <-]. constructor.
  - destruct (Map_get productMap (r_productId rec)) as [product|].
    + destruct (boostOf_outcome user product (months tick))
        as [(b & -> & Hb)|(-> & _)]; simpl; [|discriminate].
      destruct (boostAll months productMap user rest (S tick)) as [rest'|e]
        eqn:E; simpl; [|discriminate].
      intros [= <-]. constructor; [|eapply IH; eauto].
      simpl. repeat split. exists b. split; [exact Hb|reflexivity].
    + destruct (boostAll months productMap user rest tick) as [rest'|e]
        eqn:E; simpl; [|discriminate].
      intros [= <-]. constructor; [|eapply IH; eauto].
      repeat split. exists 1. split; lra.
Qed.

(** X10. Whatever the store answers and whatever month each candidate
    reads, a boost that succeeds returns every candidate with its
    productId and sources, sorted by score in descending order, and each
    score multiplied by a factor between 1 and 1.3 * 1.2 * 1.4 * 1.1: a
    score that is not negative is never lowered. *)
Theorem applyPersonalizationBoost_never_lowers (store : Store)
  (months : nat -> nat) (recs out : list Ranked) (user : User) :
  applyPersonalizationBoost store months recs user = Ok out ->
  StronglySorted (descending r_score) out
  /\ List.length out = List.length recs
  /\ forall o, In o out ->
       exists rec b,
         In rec recs /\ r_productId o = r_productId rec
         /\ sources o = sources rec
         /\ 1 <= b <= 1.3 * 1.2 * 1.4 * 1.1
         /\ r_score o = r_score rec * b
         /\ (0 <= r_score rec -> r_score rec <= r_score o).
Proof.
  unfold applyPersonalizationBoost.
  destruct (Product_find_in store (map r_productId recs)) as [products|e];
    simpl; [|discriminate].
  destruct (boostAll months _ user recs 0) as [boosted|e] eqn:E; simpl;
    [|discriminate].
  intros [= <-]. apply boostAll_scores in E. split; [apply sort_desc_sorted|].
  split.
  - rewrite (Permutation_length (sort_desc_perm r_score boosted)).
    symmetry. eapply Forall2_length; eauto.
  - intros o Ho. apply sort_desc_In in Ho.
    induction E as [|rec o' recs' boosted' (Hid & Hsrc & b & Hb & Hs) _ IH].
    + destruct Ho.
    + destruct Ho as [<-|Ho].
      * exists rec, b. split; [left; reflexivity|]. repeat split; auto; try lra.
        intros Hpos. rewrite Hs. nra.
      * destruct (IH Ho) as (rec' & b' & Hin & H). exists rec', b'.
        split; [right; exact Hin|exact H].
Qed.

Lemma applyPersonalizationBoost_never_lowers_witness :
  exists out,
    applyPersonalizationBoost featuredStore (fun _ => 5%nat) [sampleRanked]
      (sampleUser "U") = Ok out
    /\ StronglySorted (descending r_score) out
    /\ List.length out = 1%nat.
Proof.
  eexists. split; [reflexivity|].
  destruct (applyPersonalizationBoost_never_lowers featuredStore
              (fun _ => 5%nat) [sampleRanked] _ (sampleUser "U") eq_refl)
    as (Hsorted & Hlen & _).
  split; [exact Hsorted|exact Hlen].
Defined.

Lemma boostOf_uncategorised (user : User) (product : Product) (month : nat) :
  category product = None ->
  preferredCategories user <> [] ->
  boostOf user product month = Throw TypeError.
Proof.
  intros Hcat Hprefs. unfold boostOf. fold (preferredCategories user).
  rewrite Hcat. destruct (preferredCategories user); [contradiction|].
  reflexivity.
Qed.

Lemma boostAll_throw (months : nat -> nat) (productMap : Map Product)
  (user : User) (recs : list Ranked) (tick : nat) (rec : Ranked)
  (product : Product) :
  In rec recs ->
  Map_get productMap (r_productId rec) = Some product ->
  category product = None ->
  preferredCategories user <> [] ->
  boostAll months productMap user recs tick = Throw TypeError.
Proof.
  intros Hin Hget Hcat Hprefs. revert tick.
  induction recs as [|rec0 rest IH]; intros tick; [destruct Hin|]. simpl.
  destruct (Map_get productMap (r_productId rec0)) as [product0|] eqn:E0.
  - destruct (boostOf_outcome user product0 (months tick))
      as [(b & Hok & _)|(-> & _)]; [|reflexivity].
    destruct Hin as [->|Hin].
    + rewrite Hget in E0. injection E0 as <-.
      rewrite (boostOf_uncategorised user product _ Hcat Hprefs) in Hok.
      discriminate.
    + rewrite Hok. cbn [bind]. rewrite (IH Hin). reflexivity.
  - destruct Hin as [->|Hin]; [congruence|]. rewrite (IH Hin). reflexivity.
Qed.

(** X11. When the store returns, for one of the candidates, a product
    without category document and the user has a preferred category, the
    boost throws a TypeError: it returns no candidate at all, not even
    those whose products are complete.  (The ids of the products returned
    are distinct.) *)
Theorem applyPersonalizationBoost_missing_category (store : Store)
  (months : nat -> nat) (recs : list Ranked) (user : User)
  (products : list Product) (rec : Ranked) (product : Product) :
  Product_find_in store (map r_productId recs) = Ok products ->
  NoDup (map p_id products) ->
  In rec recs -> In product products ->
  p_id product = r_productId rec ->
  category product = None ->
  preferredCategories user <> [] ->
  applyPersonalizationBoost store months recs user = Throw TypeError.
Proof.
  intros Hfind Hnd Hrec Hprod Hid Hcat Hprefs.
  unfold applyPersonalizationBoost. rewrite Hfind. cbn [bind].
  rewrite Map_of_NoDup by (rewrite map_map; exact Hnd).
  rewrite (boostAll_throw months _ user recs 0 rec product); auto.
  rewrite Map_get_products. rewrite <- Hid. clear Hfind Hrec Hid.
  induction products as [|p products IH]; [destruct Hprod|]. simpl.
  destruct (String.eqb_spec (p_id p) (p_id product)) as [Heq|Hne].
  - destruct Hprod as [->|Hprod]; [reflexivity|]. exfalso.
    inversion Hnd as [|? ? Hnotin _]; subst. apply Hnotin. rewrite Heq.
    apply in_map. exact Hprod.
  - destruct Hprod as [->|Hprod]; [contradiction|]. apply IH; auto.
    inversion Hnd; assumption.
Qed.

Lemma applyPersonalizationBoost_missing_category_witness :
  applyPersonalizationBoost
    (memoryStore [] [sampleProduct "P2"; uncategorised "P1"] [])
    (fun _ => 5%nat)
    [ {| r_productId := "P2"; r_score := 0.9; sources := [trending];
         boost := None |};
      sampleRanked ]
    (sampleUser "U")
  = Throw TypeError.
Proof.
  apply (applyPersonalizationBoost_missing_category _ _ _ _
           [sampleProduct "P2"; uncategorised "P1"] sampleRanked
           (uncategorised "P1")).
  - reflexivity.
  - constructor; [intros [H|[]]; discriminate H|].
    constructor; [intros []|constructor].
  - right. left. reflexivity.
  - right. left. reflexivity.
  - reflexivity.
  - reflexivity.
  - discriminate.
Defined.

(** ** Initialisation *)

Lemma loadUserItemMatrix_Ok (store : Store) (clock : nat -> R) (this : Engine) :
  exists this',
    loadUserItemMatrix store clock this = Ok this'
    /\ productEmbeddings this' = productEmbeddings this
    /\ userEmbeddings this' = userEmbeddings this
    /\ isInitialized this' = isInitialized this
    /\ (forall e, User_find_active store = Throw e -> this' = this).
Proof.
  unfold loadUserItemMatrix.
  destruct (User_find_active store) as [users|e]; cbn [bind].
  - destruct (Product_find_active store) as [products|e]; cbn [bind].
    + destruct (interactionMatrix clock users (map p_id products));
        cbn [bind try_catch]; eexists; (split; [reflexivity|]);
        repeat split; intros e' [=].
    + cbn [try_catch]. eexists. split; [reflexivity|]. repeat split.
  - cbn [try_catch]. eexists. split; [reflexivity|]. repeat split.
Qed.

Lemma computeProductEmbeddings_Ok (store : Store) (random : nat -> R)
  (draws : nat) (this : Engine) :
  exists this' draws',
    computeProductEmbeddings store random draws this = Ok (this', draws')
    /\ userItemMatrix this' = userItemMatrix this
    /\ userEmbeddings this' = userEmbeddings this
    /\ isInitialized this' = isInitialized this
    /\ (forall e, Product_find_active store = Throw e -> this' = this).
Proof.
  unfold computeProductEmbeddings.
  destruct (Product_find_active store) as [products|e]; simpl.
  - destruct (embedAll _ _ _ products) as [embeddings draws'].
    do 2 eexists. split; [reflexivity|]. repeat split. intros e [=].
  - do 2 eexists. split; [reflexivity|]. repeat split.
Qed.

Lemma computeUserEmbeddings_Ok (store : Store) (random : nat -> R)
  (draws : nat) (this : Engine) :
  exists this' draws',
    computeUserEmbeddings store random draws this = Ok (this', draws')
    /\ userItemMatrix this' = userItemMatrix this
    /\ productEmbeddings this' = productEmbeddings this
    /\ isInitialized this' = isInitialized this
    /\ (forall e, User_find_active store = Throw e -> this' = this).
Proof.
  unfold computeUserEmbeddings.
  destruct (User_find_active store) as [users|e]; simpl.
  - destruct (embedAll _ _ _ users) as [embeddings draws'].
    do 2 eexists. split; [reflexivity|]. repeat split. intros e [=].
  - do 2 eexists. split; [reflexivity|]. repeat split.
Qed.

(** X12. [initialize] never throws and always leaves the engine marked as
    initialized, because each of its three steps catches its own errors:
    when the store rejects the queries for the users and for the products,
    the engine is marked initialized with the matrix and the embeddings it
    had before, so that later requests do not load them again. *)
Theorem initialize_always_initialized (store : Store) (env : Readings)
  (this : Engine) :
  exists this',
    initialize store env this = Ok this'
    /\ isInitialized this' = true
    /\ forall e1 e2,
         User_find_active store = Throw e1 ->
         Product_find_active store = Throw e2 ->
         userItemMatrix this' = userItemMatrix this
         /\ productEmbeddings this' = productEmbeddings this
         /\ userEmbeddings this' = userEmbeddings this.
Proof.
  unfold initialize.
  destruct (loadUserItemMatrix_Ok store (clock env) this)
    as (t1 & -> & _ & _ & _ & H1). cbn [bind].
  destruct (computeProductEmbeddings_Ok store (random env) 0 t1)
    as (t2 & d2 & -> & _ & _ & _ & H2). cbn [bind fst snd].
  destruct (computeUserEmbeddings_Ok store (random env) d2 t2)
    as (t3 & d3 & -> & _ & _ & _ & H3). cbn [bind fst snd try_catch].
  eexists. split; [reflexivity|]. split; [reflexivity|].
  intros e1 e2 Hu Hp. cbn.
  rewrite (H3 e1 Hu), (H2 e2 Hp), (H1 e1 Hu). repeat split.
Qed.

Lemma initialize_always_initialized_witness :
  exists this',
    initialize downStore stillReadings sampleEngine = Ok this'
    /\ isInitialized this' = true
    /\ userItemMatrix this' = Some sampleMatrix.
Proof.
  destruct (initialize_always_initialized downStore stillReadings sampleEngine)
    as (this' & Hinit & Hflag & Hkept).
  destruct (Hkept StoreError StoreError eq_refl eq_refl) as (Hmatrix & _).
  exists this'. split; [exact Hinit|]. split; [exact Hflag|exact Hmatrix].
Defined.

(** ** Request pipeline *)

Lemma initialize_Ok (store : Store) (env : Readings) (this : Engine) :
  exists this', initialize store env this = Ok this'.
Proof.
  unfold initialize.
  destruct (loadUserItemMatrix_Ok store (clock env) this) as (t1 & -> & _).
  cbn [bind].
  destruct (computeProductEmbeddings_Ok store (random env) 0 t1)
    as (t2 & d2 & -> & _). cbn [bind fst snd].
  destruct (computeUserEmbeddings_Ok store (random env) d2 t2)
    as (t3 & d3 & -> & _). cbn [bind fst snd try_catch].
  eexists. reflexivity.
Qed.

Lemma viewedIds_In (viewed : list Viewed) (ids : list string) (p : string) :
  mapM (fun item => match v_product item with
                    | Some p => Ok p
                    | None => Throw TypeError
                    end) viewed = Ok ids ->
  In {| v_product := Some p |} viewed -> In p ids.
Proof.
  revert ids; induction viewed as [|[[q|]] viewed IH]; intros ids; simpl;
    try discriminate.
  - intros _ [].
  - destruct (mapM _ viewed) as [ids'|e]; simpl; [|discriminate].
    intros [= <-] [[= ->]|Hin]; [left; reflexivity|right; auto].
Qed.

Lemma includes_false (l : list string) (x : string) :
  includes l x = false -> ~ In x l.
Proof.
  intros H Hin. apply includes_In in Hin. congruence.
Qed.

(** What a successful run of the [try] block went through. *)
Lemma getRecommendations_try_inv (store : Store) (env : Readings)
  (contentBased : string -> nat -> Result (list Rec))
  (this : Engine) (userId : string) (limit : nat) (excludeViewed : bool)
  (recs : list Ranked) :
  getRecommendations_try store env contentBased this userId limit excludeViewed
  = Ok recs ->
  exists user filtered boosted,
    User_findById store userId = Ok (Some user)
    /\ applyPersonalizationBoost store (months env) filtered user = Ok boosted
    /\ recs = slice0 limit boosted
    /\ (excludeViewed = true ->
        forall r p, In r filtered ->
          In {| v_product := Some p |} (recentlyViewed user) ->
          r_productId r <> p).
Proof.
  unfold getRecommendations_try.
  destruct (if isInitialized this then Ok this else initialize store env this)
    as [this'|e]; simpl; [|discriminate].
  destruct (User_findById store userId) as [[user|]|e]; simpl;
    try discriminate.
  destruct (getCollaborativeRecommendations this' userId (limit * 2))
    as [collaborativeRecs|e]; simpl; [|discriminate].
  destruct (contentBased userId (limit * 2)%nat) as [contentBasedRecs|e];
    simpl; [|discriminate].
  destruct (getTrendingRecommendations store limit) as [trendingRecs|e];
    simpl; [|discriminate].
  set (combinedRecs := combineRecommendations _).
  destruct excludeViewed.
  - destruct (mapM _ (recentlyViewed user)) as [viewedIds|e] eqn:Eviewed;
      simpl; [|discriminate].
    destruct (applyPersonalizationBoost store (months env) _ user)
      as [boosted|e] eqn:E; simpl; [|discriminate].
    intros [= <-]. do 3 eexists. split; [reflexivity|].
    split; [exact E|]. split; [reflexivity|].
    intros _ r p Hr Hp Heq. apply filter_In in Hr. destruct Hr as (_ & Hr).
    apply negb_true_iff in Hr. apply includes_false in Hr. apply Hr.
    rewrite Heq. eapply viewedIds_In; eauto.
  - simpl.
    destruct (applyPersonalizationBoost store (months env) combinedRecs user)
      as [boosted|e] eqn:E; simpl; [|discriminate].
    intros [= <-]. do 3 eexists. split; [reflexivity|].
    split; [exact E|]. split; [reflexivity|]. discriminate.
Qed.

Lemma getRecommendations_Personalized (store : Store) (env : Readings)
  (contentBased : string -> nat -> Result (list Rec))
  (this : Engine) (userId : string) (limit : nat) (excludeViewed : bool)
  (recs : list Ranked) :
  getRecommendations store env contentBased this userId limit excludeViewed
  = Ok (Personalized recs) ->
  getRecommendations_try store env contentBased this userId limit excludeViewed
  = Ok recs.
Proof.
  unfold getRecommendations.
  destruct (getRecommendations_try store env contentBased this userId limit
              excludeViewed) as [recs'|e]; simpl.
  - intros [= <-]. reflexivity.
  - destruct (getFallbackRecommendations store limit); simpl; discriminate.
Qed.

Lemma StronglySorted_firstn {A : Type} (R : A -> A -> Prop) (n : nat)
  (l : list A) :
  StronglySorted R l -> StronglySorted R (firstn n l).
Proof.
  intros Hs. revert n; induction Hs as [|x l Hs IH Hx]; intros [|n]; simpl;
    try constructor; auto.
  rewrite Forall_forall in *. intros y Hy. apply Hx.
  eapply In_firstn; eauto.
Qed.

(** X13. With [excludeViewed] set, a personalized result holds no product
    of the user's recently viewed list. *)
Theorem getRecommendations_excludes_viewed (store : Store) (env : Readings)
  (contentBased : string -> nat -> Result (list Rec))
  (this : Engine) (userId : string) (limit : nat) (recs : list Ranked)
  (user : User) :
  getRecommendations store env contentBased this userId limit true
  = Ok (Personalized recs) ->
  User_findById store userId = Ok (Some user) ->
  forall r p,
    In r recs -> In {| v_product := Some p |} (recentlyViewed user) ->
    r_productId r <> p.
Proof.
  intros Hrecs Huser r p Hr Hp.
  apply getRecommendations_Personalized in Hrecs.
  apply getRecommendations_try_inv in Hrecs.
  destruct Hrecs as (user' & filtered & boosted & Huser' & Hboost & -> & Hex).
  rewrite Huser in Huser'. injection Huser' as <-.
  apply In_firstn in Hr.
  apply applyPersonalizationBoost_ids in Hboost.
  assert (Hin : In (r_productId r) (map r_productId filtered)).
  { eapply Permutation_in; [exact Hboost|]. apply in_map. exact Hr. }
  apply in_map_iff in Hin. destruct Hin as (r' & Heq & Hr').
  rewrite <- Heq. apply (Hex eq_refl r' p Hr' Hp).
Qed.

Lemma getRecommendations_excludes_viewed_witness :
  exists recs,
    getRecommendations viewerStore stillReadings noContent newEngine "U" 1 true
    = Ok (Personalized recs)
    /\ forall r, In r recs -> r_productId r <> "P1".
Proof.
  eexists. split; [reflexivity|]. intros r Hr.
  apply (getRecommendations_excludes_viewed viewerStore stillReadings
           noContent newEngine "U" 1 _ (viewerOf "U" "P1") eq_refl eq_refl
           r "P1" Hr).
  left. reflexivity.
Defined.

(** X14. A personalized result is sorted by boosted score in descending
    order: cutting the boosted list to [limit] keeps its best candidates. *)
Theorem getRecommendations_sorted (store : Store) (env : Readings)
  (contentBased : string -> nat -> Result (list Rec))
  (this : Engine) (userId : string) (limit : nat) (excludeViewed : bool)
  (recs : list Ranked) :
  getRecommendations store env contentBased this userId limit excludeViewed
  = Ok (Personalized recs) ->
  StronglySorted (descending r_score) recs.
Proof.
  intros Hrecs. apply getRecommendations_Personalized in Hrecs.
  apply getRecommendations_try_inv in Hrecs.
  destruct Hrecs as (user & filtered & boosted & _ & Hboost & -> & _).
  apply StronglySorted_firstn.
  unfold applyPersonalizationBoost in Hboost.
  destruct (Product_find_in store _) as [products|e]; simpl in Hboost;
    [|discriminate].
  destruct (boostAll _ _ user filtered 0) as [b|e]; simpl in Hboost;
    [|discriminate].
  injection Hboost as <-. apply sort_desc_sorted.
Qed.

Lemma getRecommendations_two_candidates :
  getRecommendations twoStore stillReadings likesP2 idleEngine "U" 2 true
  = Ok (Personalized
          [ {| r_productId := "P2";
               r_score := (0.9 * 0.4 + 0.8 * 0.2) * (1 * 1.2 * 1.1);
               sources := [content_based; trending];
               boost := Some (1 * 1.2 * 1.1) |};
            {| r_productId := "P1";
               r_score := 0.8 * 0.2 * (1 * 1.2 * 1.1);
               sources := [trending];
               boost := Some (1 * 1.2 * 1.1) |} ]).
Proof.
  unfold getRecommendations, getRecommendations_try.
  cbn. repeat decide_real.
  reflexivity.
Qed.

Lemma getRecommendations_sorted_witness :
  exists first second,
    getRecommendations twoStore stillReadings likesP2 idleEngine "U" 2 true
    = Ok (Personalized [first; second])
    /\ r_productId first <> r_productId second
    /\ r_score first > r_score second
    /\ StronglySorted (descending r_score) [first; second].
Proof.
  do 2 eexists. split; [exact getRecommendations_two_candidates|].
  split; [discriminate|]. split; [cbn; lra|].
  apply (getRecommendations_sorted twoStore stillReadings likesP2 idleEngine
           "U" 2 true _ getRecommendations_two_candidates).
Defined.

(** X15. A request for a user the store does not know, or whose lookup
    the store rejects, is answered by the fallback generator, whatever
    state the engine is in: a personalized result needs a stored user. *)
Theorem getRecommendations_unknown_user (store : Store) (env : Readings)
  (contentBased : string -> nat -> Result (list Rec))
  (this : Engine) (userId : string) (limit : nat) (excludeViewed : bool) :
  (forall user, User_findById store userId <> Ok (Some user)) ->
  exists recs,
    getRecommendations store env contentBased this userId limit excludeViewed
    = Ok (Fallback recs)
    /\ getFallbackRecommendations store limit = Ok recs.
Proof.
  intros Hunknown. unfold getRecommendations, getRecommendations_try.
  assert (Hinit : exists this',
            (if isInitialized this then Ok this
             else initialize store env this) = Ok this').
  { destruct (isInitialized this); [eexists; reflexivity|].
    apply initialize_Ok. }
  destruct Hinit as (this' & ->). cbn [bind].
  assert (Hfb : exists recs, getFallbackRecommendations store limit = Ok recs).
  { unfold getFallbackRecommendations.
    destruct (Product_find_featured store limit); simpl; eexists; reflexivity. }
  destruct Hfb as (recs & Hfb).
  destruct (User_findById store userId) as [[user|]|e]; cbn [bind try_catch].
  - exfalso. apply (Hunknown user). reflexivity.
  - rewrite Hfb. exists recs. split; reflexivity.
  - rewrite Hfb. exists recs. split; reflexivity.
Qed.

Lemma getRecommendations_unknown_user_witness :
  exists recs,
    getRecommendations featuredStore stillReadings noContent newEngine "V" 2
      true = Ok (Fallback recs)
    /\ getFallbackRecommendations featuredStore 2 = Ok recs.
Proof.
  apply (getRecommendations_unknown_user featuredStore stillReadings noContent
           newEngine "V" 2 true).
  intros user. simpl. discriminate.
Defined.

(** ** Embeddings *)

Lemma encodeSeasonalFeatures_from (seasons : list string) (a b c d : R) :
  fold_left
    (fun features season =>
       match (if String.eqb season "spring" then Some 0%nat
              else if String.eqb season "summer" then Some 1%nat
              else if String.eqb season "fall" then Some 2%nat
              else if String.eqb season "winter" then Some 3%nat
              else None) with
       | Some k => set_nth features k 1
       | None => features
       end)
    seasons [a; b; c; d]
  = [ if includes seasons "spring" then 1 else a;
      if includes seasons "summer" then 1 else b;
      if includes seasons "fall" then 1 else c;
      if includes seasons "winter" then 1 else d ].
Proof.
  revert a b c d; induction seasons as [|s seasons IH]; intros a b c d.
  - reflexivity.
  - unfold includes in *. cbn [fold_left existsb].
    rewrite (String.eqb_sym "spring" s), (String.eqb_sym "summer" s),
      (String.eqb_sym "fall" s), (String.eqb_sym "winter" s).
    destruct (String.eqb_spec s "spring") as [->|_].
    { cbn. rewrite IH. destruct (existsb _ seasons); reflexivity. }
    destruct (String.eqb_spec s "summer") as [->|_].
    { cbn. rewrite IH. destruct (existsb (String.eqb "summer") seasons);
        reflexivity. }
    destruct (String.eqb_spec s "fall") as [->|_].
    { cbn. rewrite IH. destruct (existsb (String.eqb "fall") seasons);
        reflexivity. }
    destruct (String.eqb_spec s "winter") as [->|_].
    { cbn. rewrite IH. destruct (existsb (String.eqb "winter") seasons);
        reflexivity. }
    cbn [orb]. apply IH.
Qed.

(** X16. The seasonal features are the indicators of spring, summer, fall
    and winter, in this order: a slot is 1 exactly when the season is
    listed, whatever the order of the list, how often a season is repeated
    and whatever other names the list holds. *)
Theorem encodeSeasonalFeatures_indicators (seasons : list string) :
  encodeSeasonalFeatures seasons
  = map (fun s => if includes seasons s then 1 else 0)
      ["spring"; "summer"; "fall"; "winter"].
Proof.
  unfold encodeSeasonalFeatures. apply encodeSeasonalFeatures_from.
Qed.

Lemma createProductEmbedding_eq (random : nat -> R) (draws : nat)
  (product : Product) :
  createProductEmbedding random draws product
  = ([ Rmin (price product / 1000) 1;
       Rmin (match analytics product with
             | Some a => or_num (views a) 0
             | None => 0
             end / 10000) 1;
       match analytics product with
       | Some a => or_num (averageRating a) 0
       | None => 0
       end / 5;
       random draws; random (S draws); random (S (S draws)) ]
     ++ encodeAttributeFeatures (attributes product)
     ++ encodeSeasonalFeatures
          match attributes product with
          | Some a => or_else (season a) []
          | None => []
          end
     ++ extractTextFeatures
          (name product ++ " " ++ description product)%string,
     (draws + 3)%nat).
Proof.
  unfold createProductEmbedding, encodeCategoryFeatures.
  rewrite <- !app_assoc. reflexivity.
Qed.

Lemma createUserEmbedding_eq (random : nat -> R) (draws : nat) (user : User) :
  exists a b c d e f g h i j k t,
    createUserEmbedding random draws user
    = ([a; b; c; d; e; f; g; h; i; j; k; t; random draws; random (S draws)]
       ++ encodeTimePatterns
            match behaviorData user with
            | Some b => clickPatterns b
            | None => None
            end,
       (draws + 2)%nat)
    /\ forall random' draws',
         createUserEmbedding random' draws' user
         = ([a; b; c; d; e; f; g; h; i; j; k; t; random' draws';
             random' (S draws')]
            ++ encodeTimePatterns
                 match behaviorData user with
                 | Some b => clickPatterns b
                 | None => None
                 end,
            (draws' + 2)%nat).
Proof.
  unfold createUserEmbedding, encodeCategoryPreferences.
  do 12 eexists. split; [reflexivity|]. intros random' draws'. reflexivity.
Qed.

Lemma createProductEmbedding_length (random : nat -> R) (draws : nat)
  (product : Product) :
  List.length (fst (createProductEmbedding random draws product)) = 16%nat.
Proof.
  rewrite createProductEmbedding_eq. cbn [fst]. unfold encodeSeasonalFeatures.
  rewrite encodeSeasonalFeatures_from. reflexivity.
Qed.

Lemma createUserEmbedding_length (random : nat -> R) (draws : nat)
  (user : User) :
  List.length (fst (createUserEmbedding random draws user)) = 16%nat.
Proof.
  destruct (createUserEmbedding_eq random draws user)
    as (? & ? & ? & ? & ? & ? & ? & ? & ? & ? & ? & ? & -> & _).
  reflexivity.
Qed.

(** X17. Every product embedding and every user embedding has 16
    components, so that the two can be compared component by component;
    a product embedding costs three draws of [Math.random()] and depends on
    the generator in components 3 to 5 only, a user embedding costs two and
    depends on it in components 12 and 13 only. *)
Theorem embeddings_shape (random random' : nat -> R) (draws draws' : nat)
  (product : Product) (user : User) :
  List.length (fst (createProductEmbedding random draws product)) = 16%nat
  /\ List.length (fst (createUserEmbedding random draws user)) = 16%nat
  /\ snd (createProductEmbedding random draws product) = (draws + 3)%nat
  /\ snd (createUserEmbedding random draws user) = (draws + 2)%nat
  /\ (forall i, (i < 3 \/ 5 < i)%nat ->
        nth i (fst (createProductEmbedding random draws product)) 0
        = nth i (fst (createProductEmbedding random' draws' product)) 0)
  /\ (forall i, (i < 12 \/ 13 < i)%nat ->
        nth i (fst (createUserEmbedding random draws user)) 0
        = nth i (fst (createUserEmbedding random' draws' user)) 0).
Proof.
  rewrite !createProductEmbedding_eq.
  destruct (createUserEmbedding_eq random draws user)
    as (a & b & c & d & e & f & g & h & i0 & j & k & t & -> & Huser).
  rewrite (Huser random' draws'). cbn [fst snd].
  unfold encodeSeasonalFeatures. rewrite encodeSeasonalFeatures_from.
  split; [reflexivity|]. split; [reflexivity|]. split; [reflexivity|].
  split; [reflexivity|]. split.
  - intros i Hi. do 6 (destruct i as [|i]; [try reflexivity; lia|]).
    reflexivity.
  - intros i Hi. do 14 (destruct i as [|i]; [try reflexivity; lia|]).
    reflexivity.
Qed.

Lemma embeddings_shape_witness :
  nth 0 (fst (createProductEmbedding sampleDraws 0 (sampleProduct "P1"))) 0
  = nth 0 (fst (createProductEmbedding (fun _ => 0.5) 7 (sampleProduct "P1")))
      0.
Proof.
  destruct (embeddings_shape sampleDraws (fun _ => 0.5) 0 7
              (sampleProduct "P1") (sampleUser "U"))
    as (_ & _ & _ & _ & Hproduct & _).
  apply (Hproduct 0%nat). left. lia.
Defined.

Section EmbedAll.

Context {A : Type} (create : nat -> A -> list R * nat) (id : A -> string).

Lemma embedAll_app (st : Map (list R) * nat) (docs : list A) (doc : A) :
  embedAll create id st (docs ++ [doc])
  = (Map_set (fst (embedAll create id st docs)) (id doc)
       (fst (create (snd (embedAll create id st docs)) doc)),
     snd (create (snd (embedAll create id st docs)) doc)).
Proof.
  unfold embedAll. rewrite fold_left_app. cbn [fold_left].
  destruct (create _ doc). reflexivity.
Qed.

Lemma embedAll_other (st : Map (list R) * nat) (docs : list A) (k : string) :
  ~ In k (map id docs) ->
  Map_get (fst (embedAll create id st docs)) k = Map_get (fst st) k.
Proof.
  induction docs as [|doc docs IH] using rev_ind; intros Hk; [reflexivity|].
  rewrite embedAll_app. cbn [fst]. rewrite Map_get_set.
  rewrite map_app, in_app_iff in Hk.
  destruct (String.eqb_spec (id doc) k) as [<-|_].
  - exfalso. apply Hk. right. left. reflexivity.
  - apply IH. tauto.
Qed.

Lemma embedAll_stored (st : Map (list R) * nat) (docs : list A) (k : string) :
  In k (map id docs) ->
  exists doc draws,
    In doc docs /\ id doc = k
    /\ Map_get (fst (embedAll create id st docs)) k
       = Some (fst (create draws doc)).
Proof.
  induction docs as [|doc docs IH] using rev_ind; intros Hk; [destruct Hk|].
  rewrite embedAll_app. cbn [fst]. rewrite Map_get_set.
  destruct (String.eqb_spec (id doc) k) as [Heq|Hne].
  - exists doc, (snd (embedAll create id st docs)).
    split; [apply in_or_app; right; left; reflexivity|]. split; auto.
  - rewrite map_app, in_app_iff in Hk. destruct Hk as [Hk|[Hk|[]]];
      [|contradiction].
    destruct (IH Hk) as (doc' & draws & Hin & Hid & Hget).
    exists doc', draws. split; [apply in_or_app; left; exact Hin|]. auto.
Qed.

Lemma embedAll_draws (c : nat) (st : Map (list R) * nat) (docs : list A) :
  (forall draws doc, snd (create draws doc) = (draws + c)%nat) ->
  snd (embedAll create id st docs) = (snd st + c * List.length docs)%nat.
Proof.
  intros Hc. induction docs as [|doc docs IH] using rev_ind.
  - simpl. lia.
  - rewrite embedAll_app. cbn [snd]. rewrite Hc, IH, length_app. simpl. lia.
Qed.

End EmbedAll.

(** X18. After [computeProductEmbeddings] has read the active products,
    the engine holds an embedding of 16 components for each of them, and
    the embedding of every other product id, also of a product that is no
    longer active, is the one it held before; the call makes three draws of
    [Math.random()] for each product.  When the store rejects the query the
    engine is left as it was. *)
Theorem computeProductEmbeddings_coverage (store : Store) (random : nat -> R)
  (draws : nat) (this : Engine) :
  exists this' draws',
    computeProductEmbeddings store random draws this = Ok (this', draws')
    /\ (forall e, Product_find_active store = Throw e ->
          this' = this /\ draws' = draws)
    /\ (forall products, Product_find_active store = Ok products ->
          draws' = (draws + 3 * List.length products)%nat
          /\ (forall p, In p products ->
                exists embedding,
                  Map_get (productEmbeddings this') (p_id p) = Some embedding
                  /\ List.length embedding = 16%nat)
          /\ (forall k, ~ In k (map p_id products) ->
                Map_get (productEmbeddings this') k
                = Map_get (productEmbeddings this) k)).
Proof.
  unfold computeProductEmbeddings.
  destruct (Product_find_active store) as [products|e]; cbn [bind try_catch].
  - destruct (embedAll (createProductEmbedding random) p_id
                (productEmbeddings this, draws) products)
      as [embeddings draws'] eqn:E.
    do 2 eexists. split; [reflexivity|]. split; [intros e [=]|].
    intros products' [= <-]. cbn [productEmbeddings].
    replace embeddings
      with (fst (embedAll (createProductEmbedding random) p_id
                   (productEmbeddings this, draws) products))
      by (rewrite E; reflexivity).
    replace draws'
      with (snd (embedAll (createProductEmbedding random) p_id
                   (productEmbeddings this, draws) products))
      by (rewrite E; reflexivity).
    split; [|split].
    + rewrite (embedAll_draws _ _ 3); [reflexivity|].
      intros d p. rewrite createProductEmbedding_eq. reflexivity.
    + intros p Hp.
      destruct (embedAll_stored (createProductEmbedding random) p_id
                  (productEmbeddings this, draws) products (p_id p)
                  (in_map p_id _ _ Hp))
        as (p' & d & _ & _ & ->).
      eexists. split; [reflexivity|].
      apply createProductEmbedding_length.
    + intros k Hk. apply embedAll_other. exact Hk.
  - do 2 eexists. split; [reflexivity|]. split; [auto|]. intros ? [=].
Qed.

Lemma computeProductEmbeddings_coverage_witness :
  exists this' draws',
    computeProductEmbeddings unfeaturedStore sampleDraws 0 newEngine
    = Ok (this', draws')
    /\ draws' = 3%nat
    /\ exists embedding,
         Map_get (productEmbeddings this') "P1" = Some embedding
         /\ List.length embedding = 16%nat.
Proof.
  destruct (computeProductEmbeddings_coverage unfeaturedStore sampleDraws 0
              newEngine) as (this' & draws' & Hrun & _ & Hok).
  destruct (Hok [sampleProduct "P1"] eq_refl) as (Hdraws & Hall & _).
  exists this', draws'. split; [exact Hrun|]. split; [exact Hdraws|].
  apply (Hall (sampleProduct "P1")). left. reflexivity.
Defined.

(** X19. After [computeUserEmbeddings] has read the active users, the
    engine holds an embedding of 16 components for each of them and the
    embeddings it held for other user ids are unchanged; the call makes two
    draws of [Math.random()] for each user. *)
Theorem computeUserEmbeddings_coverage (store : Store) (random : nat -> R)
  (draws : nat) (this : Engine) (users : list User) :
  User_find_active store = Ok users ->
  exists this',
    computeUserEmbeddings store random draws this
    = Ok (this', (draws + 2 * List.length users)%nat)
    /\ productEmbeddings this' = productEmbeddings this
    /\ userItemMatrix this' = userItemMatrix this
    /\ (forall u, In u users ->
          exists embedding,
            Map_get (userEmbeddings this') (u_id u) = Some embedding
            /\ List.length embedding = 16%nat)
    /\ (forall k, ~ In k (map u_id users) ->
          Map_get (userEmbeddings this') k = Map_get (userEmbeddings this) k).
Proof.
  intros Husers. unfold computeUserEmbeddings. rewrite Husers.
  cbn [bind try_catch].
  destruct (embedAll (createUserEmbedding random) u_id
              (userEmbeddings this, draws) users)
    as [embeddings draws'] eqn:E.
  assert (He : embeddings
               = fst (embedAll (createUserEmbedding random) u_id
                        (userEmbeddings this, draws) users))
    by (rewrite E; reflexivity).
  assert (Hd : draws'
               = snd (embedAll (createUserEmbedding random) u_id
                        (userEmbeddings this, draws) users))
    by (rewrite E; reflexivity).
  rewrite (embedAll_draws _ _ 2) in Hd.
  2:{ intros d u. destruct (createUserEmbedding_eq random d u)
        as (? & ? & ? & ? & ? & ? & ? & ? & ? & ? & ? & ? & -> & _).
      reflexivity. }
  cbn [snd] in Hd. subst draws'. eexists. split; [reflexivity|].
  cbn [productEmbeddings userItemMatrix userEmbeddings].
  split; [reflexivity|]. split; [reflexivity|]. rewrite He. split.
  - intros u Hu.
    destruct (embedAll_stored (createUserEmbedding random) u_id
                (userEmbeddings this, draws) users (u_id u)
                (in_map u_id _ _ Hu))
      as (u' & d & _ & _ & ->).
    eexists. split; [reflexivity|].
    apply createUserEmbedding_length.
  - intros k Hk. apply embedAll_other. exact Hk.
Qed.

Lemma computeUserEmbeddings_coverage_witness :
  exists this',
    computeUserEmbeddings unfeaturedStore sampleDraws 0 newEngine
    = Ok (this', 2%nat)
    /\ exists embedding,
         Map_get (userEmbeddings this') "U" = Some embedding
         /\ List.length embedding = 16%nat.
Proof.
  destruct (computeUserEmbeddings_coverage unfeaturedStore sampleDraws 0
              newEngine [userWithHistory "U" [viewOf "P1" 1000 120]] eq_refl)
    as (this' & Hrun & _ & _ & Hall & _).
  exists this'. split; [exact Hrun|].
  apply (Hall (userWithHistory "U" [viewOf "P1" 1000 120])). left. reflexivity.
Defined.

(** ** Viewed products and the collaborative filter *)

Lemma In_indexOf_from (l : list string) (x : string) (i : nat) :
  In x l -> exists j, indexOf_from l x i = Some j.
Proof.
  revert i; induction l as [|y l IH]; intros i Hin; [destruct Hin|]. simpl.
  destruct (String.eqb_spec y x) as [_|Hne]; [eexists; reflexivity|].
  destruct Hin as [->|Hin]; [contradiction|]. apply IH. exact Hin.
Qed.

Lemma marked_not_zero (c : num) : marked c -> c <> Fin 0.
Proof.
  intros [->|(x & -> & Hx)]; [discriminate|]. intros [= ->]. lra.
Qed.

Lemma Math_max_marked_l (c s : num) : marked c -> marked (Math_max c s).
Proof.
  intros [->|(x & -> & Hx)]; [left; reflexivity|].
  destruct s as [|y]; [left; reflexivity|]. right. exists (Rmax x y).
  split; [reflexivity|]. pose proof (Rmax_l x y). lra.
Qed.

Lemma Math_max_marked_r (c s : num) : marked s -> marked (Math_max c s).
Proof.
  intros [->|(y & -> & Hy)]; [left; destruct c; reflexivity|].
  destruct c as [|x]; [left; reflexivity|]. right. exists (Rmax x y).
  split; [reflexivity|]. pose proof (Rmax_r x y). lra.
Qed.

Lemma eventScore_marked (now : R) (e : Interaction) :
  plainDuration e -> marked (eventScore now e).
Proof.
  unfold plainDuration. destruct (i_duration e) as [d|] eqn:Ed; intros Hd.
  - right. rewrite (eventScore_finite now d e Ed). eexists.
    split; [reflexivity|]. apply interaction_score_pos. exact Hd.
  - left. apply eventScore_undefined_duration. exact Ed.
Qed.

Lemma history_loop_marked (clock : nat -> R) (pids : list string) (p : string)
  (i j : nat) (h : list Interaction) (m : list (list num)) (t : nat) :
  indexOf pids p = Some j ->
  (i < List.length m)%nat ->
  List.length (nth i m []) = List.length pids ->
  marked (get2 m i j)
  \/ (exists e, In e h /\ i_productId e = Some p /\ plainDuration e) ->
  marked (get2 (fst (fold_left (scoreStep clock pids i) h (m, t))) i j).
Proof.
  intros Hp. revert m t; induction h as [|e h IH]; intros m t Hi Hrow Hcase.
  - destruct Hcase as [Hm|(e & [] & _)]. exact Hm.
  - cbn [fold_left]. rewrite scoreStep_eq.
    destruct (columnOf pids e) as [k|] eqn:Ek.
    + apply IH.
      * rewrite set2_length. exact Hi.
      * rewrite row_set2_length. exact Hrow.
      * destruct (Nat.eq_dec k j) as [->|Hkj].
        -- rewrite get2_set2_same;
             [|exact Hi
              |rewrite Hrow; apply indexOf_lt with (x := p); exact Hp].
           destruct Hcase as [Hm|(e' & [<-|Hin] & Hid & Hd)].
           ++ left. apply Math_max_marked_l. exact Hm.
           ++ left. apply Math_max_marked_r, eventScore_marked. exact Hd.
           ++ right. exists e'. auto.
        -- rewrite get2_set2_other_column by auto.
           destruct Hcase as [Hm|(e' & [<-|Hin] & Hid & Hd)].
           ++ left. exact Hm.
           ++ exfalso. apply Hkj. unfold columnOf in Ek. rewrite Hid in Ek.
              congruence.
           ++ right. exists e'. auto.
    + apply IH; auto.
      destruct Hcase as [Hm|(e' & [<-|Hin] & Hid & Hd)].
      * left. exact Hm.
      * exfalso. unfold columnOf in Ek. rewrite Hid in Ek. congruence.
      * right. exists e'. auto.
Qed.

Lemma users_loop_marked (clock : nat -> R) (pids : list string) (p : string)
  (users : list User) (i0 : nat) (m : list (list num)) (t : nat)
  (i j : nat) (u : User) :
  indexOf pids p = Some j ->
  (i < List.length m)%nat ->
  List.length (nth i m []) = List.length pids ->
  (i0 <= i)%nat ->
  nth_error users (i - i0) = Some u ->
  (exists e, In e (historyOf u) /\ i_productId e = Some p /\ plainDuration e) ->
  marked (get2 (fst (reduce_from (historyStep clock pids) users i0 (m, t))) i j).
Proof.
  intros Hp. revert i0 m t; induction users as [|v us IH];
    intros i0 m t Hi Hrow Hle Hu Hev.
  - destruct (i - i0)%nat; discriminate.
  - cbn [reduce_from]. unfold historyStep at 2.
    pose proof (history_loop_frame clock pids i0 (historyOf v) m t)
      as (F1 & F2 & F3).
    pose proof (history_loop_marked clock pids p i0 j (historyOf v) m t Hp)
      as Hcell.
    destruct (fold_left (scoreStep clock pids i0) (historyOf v) (m, t))
      as [m' t'].
    cbn [fst] in F1, F2, F3, Hcell.
    destruct (Nat.eq_dec i i0) as [->|Hne].
    + rewrite Nat.sub_diag in Hu. injection Hu as ->.
      destruct (users_loop_frame clock pids us (S i0) m' t') as (_ & _ & H3).
      unfold get2 at 1. rewrite H3 by lia.
      apply Hcell; auto.
    + replace (i - i0)%nat with (S (i - S i0)) in Hu by lia.
      apply (IH (S i0) m' t'); try lia; auto.
      rewrite F2. exact Hrow.
Qed.

Lemma filledMatrix_marked (clock : nat -> R) (users : list User)
  (pids : list string) (p : string) (i j : nat) (u : User) :
  indexOf pids p = Some j ->
  nth_error users i = Some u ->
  (exists e, In e (historyOf u) /\ i_productId e = Some p /\ plainDuration e) ->
  marked (get2 (filledMatrix clock users pids) i j).
Proof.
  intros Hp Hu Hev.
  assert (Hi : (i < List.length users)%nat)
    by (apply nth_error_Some; congruence).
  unfold filledMatrix, reduce.
  apply (users_loop_marked clock pids p users 0 _ 0 i j u); auto.
  - rewrite repeat_length. exact Hi.
  - rewrite (nth_indep _ [] (repeat (Fin 0) (List.length pids)))
      by (rewrite repeat_length; lia).
    rewrite nth_repeat, repeat_length. reflexivity.
  - lia.
  - rewrite Nat.sub_0_r. exact Hu.
Qed.

(** The candidates of the collaborative filter are columns whose cell in
    the row of the user is 0. *)
Lemma getCollaborativeRecommendations_zero_cells (this : Engine)
  (uim : UserItemMatrix) (userId : string) (limit u : nat) (recs : list Rec) :
  userItemMatrix this = Some uim ->
  wellFormed uim ->
  indexOf (userIds uim) userId = Some u ->
  getCollaborativeRecommendations this userId limit = Ok recs ->
  forall r, In r recs ->
    exists j,
      nth_error (productIds uim) j = Some (productId r)
      /\ get2 (matrix uim) u j = Fin 0.
Proof.
  intros Hm (Hlen & Hrow & Hnd) Hu.
  assert (Hlt : (u < List.length (matrix uim))%nat).
  { rewrite Hlen. eapply indexOf_lt; eauto. }
  rewrite (getCollaborativeRecommendations_unfolded this uim userId limit u)
    by assumption.
  set (N := neighboursOf (matrix uim) u).
  assert (Hrows : forall n, In n N ->
            List.length (rowOf (matrix uim) (userIndex n))
            = List.length (productIds uim)).
  { intros n Hn. apply Hrow. apply nth_In.
    apply (neighboursOf_similar _ _ _ Hn). }
  rewrite recommendations_entries. intros [= <-] r Hr.
  apply In_firstn in Hr. apply sort_desc_In in Hr.
  rewrite map_map in Hr. apply in_map_iff in Hr.
  destruct Hr as (k & <- & Hk). apply (proj1 (first_seen_In _ _)) in Hk.
  apply (scored_products _ _ _ _ _ Hrows) in Hk.
  destruct Hk as (j & Hj & (Hzero & _) & ->).
  exists j. split; [apply nth_error_nth'; exact Hj|].
  apply strict_eq_true in Hzero. exact Hzero.
Qed.

(** X20. A product the user has an event for is never recommended to that
    user by the collaborative filter of the matrix built from the store:
    the event leaves a score > 0, or [NaN] if its duration is missing, in
    the user's cell of the product, and the filter only recommends
    products whose cell is 0.  This holds for every clock, for events of
    any age; every stored entry carries a productId, so that the build
    stores its matrix, the event's duration is missing or not negative,
    and the ids of the active products are distinct. *)
Theorem viewed_product_not_recommended (store : Store) (clock : nat -> R)
  (this : Engine) (users : list User) (products : list Product)
  (userId : string) (i : nat) (u : User) (e : Interaction) (p : string)
  (limit : nat) :
  User_find_active store = Ok users ->
  Product_find_active store = Ok products ->
  (forall v e', In v users -> In e' (historyOf v) -> identified e') ->
  NoDup (map p_id products) ->
  indexOf (map u_id users) userId = Some i ->
  nth_error users i = Some u ->
  In e (historyOf u) ->
  i_productId e = Some p ->
  plainDuration e ->
  exists this' recs,
    loadUserItemMatrix store clock this = Ok this'
    /\ getCollaborativeRecommendations this' userId limit = Ok recs
    /\ ~ In p (map productId recs).
Proof.
  intros Hus Hps Hid Hnd Hi Hu He Hep Hd.
  rewrite (loadUserItemMatrix_identified store clock this users products)
    by assumption.
  eexists.
  set (uim := {| matrix := filledMatrix clock users (map p_id products);
                 userIds := map u_id users;
                 productIds := map p_id products |}).
  set (this' := {| userItemMatrix := Some uim;
                   productEmbeddings := productEmbeddings this;
                   userEmbeddings := userEmbeddings this;
                   isInitialized := isInitialized this |}).
  assert (Hwf : wellFormed uim)
    by (apply filledMatrix_wellFormed; exact Hnd).
  assert (Hlt : (i < List.length (matrix uim))%nat).
  { destruct Hwf as (-> & _). eapply indexOf_lt; eauto. }
  pose proof (getCollaborativeRecommendations_unfolded this' uim userId limit
                i eq_refl Hi Hlt) as Hrun.
  eexists. split; [reflexivity|]. split; [exact Hrun|].
  intros Hin. apply in_map_iff in Hin. destruct Hin as (r & Hr & Hin).
  destruct (getCollaborativeRecommendations_zero_cells this' uim userId limit
              i _ eq_refl Hwf Hi Hrun r Hin) as (j & Hj & Hzero).
  rewrite Hr in Hj. change (productIds uim) with (map p_id products) in Hj.
  assert (Hp : exists j', indexOf (map p_id products) p = Some j').
  { apply In_indexOf_from. apply nth_error_In in Hj. exact Hj. }
  destruct Hp as (j' & Hp).
  assert (j' = j).
  { pose proof (indexOf_nth_error _ _ _ Hp) as Hj'.
    apply (proj1 (NoDup_nth_error (map p_id products)) Hnd).
    - apply nth_error_Some. congruence.
    - congruence. }
  subst j'.
  apply (marked_not_zero (get2 (matrix uim) i j)); [|exact Hzero].
  apply (filledMatrix_marked clock users (map p_id products) p i j u); auto.
  exists e. auto.
Qed.

Lemma viewed_product_not_recommended_witness :
  exists this' recs,
    loadUserItemMatrix neighbourStore (fun _ => 1000) newEngine = Ok this'
    /\ getCollaborativeRecommendations this' "U" 5 = Ok recs
    /\ ~ In "P1" (map productId recs).
Proof.
  apply (viewed_product_not_recommended neighbourStore (fun _ => 1000)
           newEngine
           [userWithHistory "U" [viewOf "P1" 1000 120];
            userWithHistory "V" [viewOf "P1" 1000 120; viewOf "P2" 1000 60]]
           [sampleProduct "P1"; sampleProduct "P2"] "U" 0
           (userWithHistory "U" [viewOf "P1" 1000 120])
           (viewOf "P1" 1000 120) "P1" 5).
  - reflexivity.
  - reflexivity.
  - intros v e' [<-|[<-|[]]] He'; simpl in He';
      repeat (destruct He' as [<-|He']; [discriminate|]); destruct He'.
  - constructor; [intros [H|[]]; discriminate H|].
    constructor; [intros []|constructor].
  - reflexivity.
  - reflexivity.
  - left. reflexivity.
  - reflexivity.
  - unfold plainDuration. simpl. lra.
Defined.

(** ** Interaction tracking *)

(** X21. [addToBrowsingHistory] puts the new entry first, with the time of
    the call, with duration 0 when none is given and with source "direct"
    when none is given; the older entries follow in their order, and only
    the first 100 entries are kept: the history never holds more than 100
    entries afterwards, whatever it held before.  An entry without a
    duration in the new history was in the history before: the call stores
    none. *)
Theorem addToBrowsingHistory_newest_first (now : R)
  (browsingHistory : list HistoryEntry) (productId : option string)
  (duration : option R) (source : option string) :
  addToBrowsingHistory now browsingHistory productId duration source
  = firstn 100
      ({| h_productId := productId;
          h_duration := Some match duration with Some d => d | None => 0 end;
          h_source := Some match source with Some s => s | None => "direct" end;
          h_timestamp := now |} :: browsingHistory)
  /\ List.length
       (addToBrowsingHistory now browsingHistory productId duration source)
     = Nat.min (S (List.length browsingHistory)) 100
  /\ forall entry,
       In entry
         (addToBrowsingHistory now browsingHistory productId duration source) ->
       h_duration entry = None -> 
       exists older, In older browsingHistory /\ h_duration older = None.
Proof.
  unfold addToBrowsingHistory.
  set (entry := {| h_productId := productId; h_duration := _;
                   h_source := _; h_timestamp := now |}).
  assert (Heq : (if (100 <? List.length (entry :: browsingHistory))%nat
                 then slice0 100 (entry :: browsingHistory)
                 else entry :: browsingHistory)
                = firstn 100 (entry :: browsingHistory)).
  { destruct (Nat.ltb_spec 100 (List.length (entry :: browsingHistory)))
      as [Hlt|Hge]; [reflexivity|].
    symmetry. apply firstn_all2. exact Hge. }
  rewrite Heq. split; [reflexivity|]. split.
  - rewrite length_firstn. cbn [List.length]. lia.
  - intros e He Hnone. apply In_firstn in He. destruct He as [<-|He].
    + discriminate Hnone.
    + exists e. auto.
Qed.

Lemma addToBrowsingHistory_newest_first_witness :
  addToBrowsingHistory 1000 [] (Some "P1") None None
  = [ {| h_productId := Some "P1"; h_duration := Some 0;
         h_source := Some "direct"; h_timestamp := 1000 |} ].
Proof.
  rewrite (proj1 (addToBrowsingHistory_newest_first 1000 [] (Some "P1") None
                    None)).
  reflexivity.
Defined.

Section Tracking.

Context {S : Type} (db : Documents S).

(** X22. Tracking changes nothing for a user the store does not return, be
    it unknown or the lookup rejected, and nothing for an interaction type
    other than view, purchase, add_to_cart and add_to_wishlist: in both
    cases no view is counted for the product either. *)
Theorem trackUserInteraction_unchanged (now : R) (s : S)
  (userId : string) (productId : option string) (interactionType : string)
  (metadata : Metadata) :
  (forall browsingHistory, findUser db s userId <> Ok (Some browsingHistory))
  \/ (interactionType <> "view" /\ interactionType <> "purchase"
      /\ interactionType <> "add_to_cart"
      /\ interactionType <> "add_to_wishlist") ->
  trackUserInteraction db now s userId productId interactionType metadata = s.
Proof.
  unfold trackUserInteraction.
  intros [Hunknown|(Hview & Hpurchase & Hcart & Hwish)].
  - destruct (findUser db s userId) as [[browsingHistory|]|e];
      [|reflexivity|reflexivity].
    exfalso. apply (Hunknown browsingHistory). reflexivity.
  - destruct (findUser db s userId) as [[browsingHistory|]|e];
      [|reflexivity|reflexivity].
    apply String.eqb_neq in Hview, Hpurchase, Hcart, Hwish.
    rewrite Hview, Hpurchase, Hcart, Hwish.
    destruct (findProduct db s productId) as [[analytics|]|e]; reflexivity.
Qed.

End Tracking.

Lemma trackUserInteraction_unchanged_witness :
  trackUserInteraction memoryDocuments 1000 sampleCollections "V" (Some "P1")
    "view" {| md_duration := None; md_source := None |}
  = sampleCollections.
Proof.
  apply (trackUserInteraction_unchanged memoryDocuments).
  left. intros browsingHistory. simpl. discriminate.
Defined.

Lemma Map_keys_set_present {V : Type} (m : Map V) (k : string) (v v' : V) :
  Map_get m k = Some v -> Map_keys (Map_set m k v') = Map_keys m.
Proof.
  intros Hget. rewrite Map_keys_set. unfold Map_has. rewrite Hget.
  reflexivity.
Qed.

(** X23. A tracked view of a stored product by a stored user, in the
    collections held in memory: the user's browsing history becomes what
    [addToBrowsingHistory] makes of it, the product's view counter goes up
    by one while its other counters stay, no other user document and no
    other product document changes, and no document is created. *)
Theorem trackUserInteraction_view (now : R) (s : Collections)
  (userId productId : string) (metadata : Metadata)
  (browsingHistory : list HistoryEntry) (analytics : Counters) :
  Map_get (userDocuments s) userId = Some browsingHistory ->
  Map_get (productDocuments s) productId = Some analytics ->
  let s' :=
    trackUserInteraction memoryDocuments now s userId (Some productId) "view"
      metadata in
  Map_get (userDocuments s') userId
  = Some (addToBrowsingHistory now browsingHistory (Some productId)
            (md_duration metadata) (md_source metadata))
  /\ Map_get (productDocuments s') productId
     = Some {| pa_views := pa_views analytics + 1;
               pa_purchases := pa_purchases analytics;
               pa_addToCart := pa_addToCart analytics;
               pa_addToWishlist := pa_addToWishlist analytics;
               pa_conversionRate := pa_conversionRate analytics |}
  /\ (forall other, other <> userId ->
        Map_get (userDocuments s') other = Map_get (userDocuments s) other)
  /\ (forall other, other <> productId ->
        Map_get (productDocuments s') other
        = Map_get (productDocuments s) other)
  /\ Map_keys (userDocuments s') = Map_keys (userDocuments s)
  /\ Map_keys (productDocuments s') = Map_keys (productDocuments s).
Proof.
  intros Huser Hproduct. unfold trackUserInteraction.
  cbn [findUser saveUser findProduct saveProduct memoryDocuments].
  rewrite Huser. cbn [String.eqb Ascii.eqb Bool.eqb andb].
  cbn [productDocuments userDocuments]. rewrite Hproduct.
  cbn [caught userDocuments productDocuments].
  rewrite !Map_get_set, !String.eqb_refl.
  split; [reflexivity|]. split; [reflexivity|]. split; [|split; [|split]].
  - intros other Hother. rewrite Map_get_set.
    destruct (String.eqb_spec userId other); [congruence|reflexivity].
  - intros other Hother. rewrite Map_get_set.
    destruct (String.eqb_spec productId other); [congruence|reflexivity].
  - eapply Map_keys_set_present; eauto.
  - eapply Map_keys_set_present; eauto.
Qed.

Lemma trackUserInteraction_view_witness :
  let s' :=
    trackUserInteraction memoryDocuments 1000 sampleCollections "U"
      (Some "P1") "view" {| md_duration := None; md_source := None |} in
  Map_get (userDocuments s') "U"
  = Some [ {| h_productId := Some "P1"; h_duration := Some 0;
              h_source := Some "direct"; h_timestamp := 1000 |} ]
  /\ option_map pa_views (Map_get (productDocuments s') "P1") = Some (10 + 1).
Proof.
  destruct (trackUserInteraction_view 1000 sampleCollections "U" "P1"
              {| md_duration := None; md_source := None |} []
              {| pa_views := 10; pa_purchases := 1; pa_addToCart := 0;
                 pa_addToWishlist := 0; pa_conversionRate := 10 |}
              eq_refl eq_refl) as (Huser & Hproduct & _).
  split; [exact Huser|]. cbv zeta. rewrite Hproduct. reflexivity.
Defined.

(** X24. Only a view changes browsing histories and view counters: after
    tracking an interaction of any other type, in the collections held in
    memory, the user documents are the same and every product has the
    view counter it had. *)
Theorem trackUserInteraction_other_types (now : R) (s : Collections)
  (userId : string) (productId : option string) (interactionType : string)
  (metadata : Metadata) :
  interactionType <> "view" ->
  let s' :=
    trackUserInteraction memoryDocuments now s userId productId
      interactionType metadata in
  userDocuments s' = userDocuments s
  /\ forall product,
       option_map pa_views (Map_get (productDocuments s') product)
       = option_map pa_views (Map_get (productDocuments s) product).
Proof.
  intros Hview. apply String.eqb_neq in Hview. unfold trackUserInteraction.
  cbn [findUser saveUser findProduct saveProduct memoryDocuments].
  destruct (Map_get (userDocuments s) userId) as [browsingHistory|];
    [|split; reflexivity].
  rewrite Hview. destruct productId as [productId|]; [|split; reflexivity].
  destruct (Map_get (productDocuments s) productId) as [analytics|] eqn:E;
    [|split; reflexivity].
  assert (Hkept : forall analytics',
            pa_views analytics' = pa_views analytics ->
            forall product,
              option_map pa_views
                (Map_get (Map_set (productDocuments s) productId analytics')
                   product)
              = option_map pa_views (Map_get (productDocuments s) product)).
  { intros analytics' Hviews product. rewrite Map_get_set.
    destruct (String.eqb_spec productId product) as [<-|_]; [|reflexivity].
    rewrite E. simpl. f_equal. exact Hviews. }
  destruct (String.eqb interactionType "purchase");
    [split; [reflexivity|apply Hkept; reflexivity]|].
  destruct (String.eqb interactionType "add_to_cart");
    [split; [reflexivity|apply Hkept; reflexivity]|].
  destruct (String.eqb interactionType "add_to_wishlist");
    [split; [reflexivity|apply Hkept; reflexivity]|].
  split; reflexivity.
Qed.

Lemma trackUserInteraction_other_types_witness :
  userDocuments
    (trackUserInteraction memoryDocuments 1000 sampleCollections "U"
       (Some "P1") "purchase" {| md_duration := None; md_source := None |})
  = userDocuments sampleCollections.
Proof.
  apply (trackUserInteraction_other_types 1000 sampleCollections "U"
           (Some "P1") "purchase"
           {| md_duration := None; md_source := None |}).
  discriminate.
Defined.

(** ** Chatbot conversations *)

Lemma Map_delete_fresh {V : Type} (pre post : Map V) (k : string) (v : V) :
  ~ In k (Map_keys pre) ->
  Map_delete (pre ++ (k, v) :: post) k = pre ++ post.
Proof.
  unfold Map_keys. induction pre as [|[k0 v0] pre IH]; simpl; intros Hk.
  - rewrite String.eqb_refl. reflexivity.
  - destruct (String.eqb_spec k0 k) as [->|_]; [tauto|].
    rewrite IH by tauto. reflexivity.
Qed.

Lemma cleanup_loop (cutoffTime : R) (entries pre : Map Conversation) :
  NoDup (Map_keys (pre ++ entries)) ->
  fold_left
    (fun conversationHistory entry =>
       if Rltb (startTime (snd entry)) cutoffTime
       then Map_delete conversationHistory (fst entry)
       else conversationHistory)
    entries (pre ++ entries)
  = pre ++ filter (fun entry => negb (Rltb (startTime (snd entry)) cutoffTime))
             entries.
Proof.
  revert pre; induction entries as [|[k c] entries IH]; intros pre Hnd.
  - reflexivity.
  - cbn [fold_left filter fst snd].
    destruct (Rltb (startTime c) cutoffTime); cbn [negb].
    + assert (Hk : ~ In k (Map_keys pre)).
      { unfold Map_keys in *. rewrite map_app in Hnd.
        apply NoDup_remove_2 in Hnd. intros Hin. apply Hnd.
        apply in_or_app. left. exact Hin. }
      rewrite (Map_delete_fresh pre entries k c Hk). apply IH.
      unfold Map_keys in *. rewrite map_app in *.
      apply NoDup_remove_1 in Hnd. exact Hnd.
    + replace (pre ++ (k, c) :: entries) with ((pre ++ [(k, c)]) ++ entries)
        by (rewrite <- app_assoc; reflexivity).
      rewrite IH by (rewrite <- app_assoc; exact Hnd).
      rewrite <- app_assoc. reflexivity.
Qed.

Lemma Map_get_In {V : Type} (m : Map V) (k : string) (v : V) :
  NoDup (Map_keys m) -> (Map_get m k = Some v <-> In (k, v) m).
Proof.
  unfold Map_keys. induction m as [|[k0 v0] m IH]; simpl; intros Hnd.
  - split; [discriminate|tauto].
  - inversion Hnd as [|? ? Hk Hnd']; subst.
    destruct (String.eqb_spec k0 k) as [->|Hne].
    + split.
      * intros [= ->]. left. reflexivity.
      * intros [[= ->]|Hin]; [reflexivity|].
        exfalso. apply Hk. apply (in_map fst) in Hin. exact Hin.
    + rewrite (IH Hnd'). split; [tauto|]. intros [[= -> _]|Hin]; tauto.
Qed.

(** X25. [cleanupConversations] keeps exactly the conversations that
    started within the 24 hours (86 400 000 ms) before the call, in their
    order and with their messages; a conversation that started earlier is
    deleted whatever the time of its last message.  (The keys of the map
    are distinct.) *)
Theorem cleanupConversations_keeps_recent (now : R)
  (conversationHistory : Map Conversation) :
  NoDup (Map_keys conversationHistory) ->
  cleanupConversations now conversationHistory
  = filter (fun entry =>
              negb (Rltb (startTime (snd entry)) (now - 24 * 60 * 60 * 1000)))
      conversationHistory
  /\ forall sessionId conversation,
       getConversationHistory (cleanupConversations now conversationHistory)
         sessionId = Some conversation
       <-> getConversationHistory conversationHistory sessionId
           = Some conversation
           /\ now - 86400000 <= startTime conversation.
Proof.
  intros Hnd. unfold cleanupConversations.
  pose proof (cleanup_loop (now - 24 * 60 * 60 * 1000) conversationHistory [])
    as Hloop.
  cbn [app] in Hloop. rewrite (Hloop Hnd). split; [reflexivity|].
  intros sessionId conversation. unfold getConversationHistory.
  rewrite Map_get_In by (apply NoDup_map_filter; exact Hnd).
  rewrite (Map_get_In conversationHistory) by exact Hnd.
  rewrite filter_In. cbn [snd]. unfold Rltb.
  destruct (Rlt_dec (startTime conversation) (now - 24 * 60 * 60 * 1000));
    cbn [negb]; split; intros (H1 & H2); split; auto; try discriminate; lra.
Qed.

Lemma cleanupConversations_keeps_recent_witness :
  cleanupConversations 100000000 sampleConversations
  = filter (fun entry =>
              negb (Rltb (startTime (snd entry))
                      (100000000 - 24 * 60 * 60 * 1000)))
      sampleConversations.
Proof.
  apply (cleanupConversations_keeps_recent 100000000 sampleConversations).
  constructor; [intros [H|[]]; discriminate H|].
  constructor; [intros []|constructor].
Defined.

Lemma messages_total (l : list Conversation) (acc : R) (i : nat) :
  reduce_from (fun sum conv _ => sum + INR (List.length (messages conv))) l i
    acc
  = acc + INR (list_sum (map (fun conv => List.length (messages conv)) l)).
Proof.
  revert acc i; induction l as [|c l IH]; intros acc i; simpl.
  - lra.
  - rewrite IH, plus_INR. lra.
Qed.

(** X26. The average that [getAnalytics] reports, times the number of
    conversations, is the number of stored messages up to the rounding
    tolerance, taken relative to that number (in real numbers the two are
    equal; the binary64 quotient is rounded); with no conversation at all
    the average is 0, the [|| 0] replacing the [NaN] of 0 / 0. *)
Theorem getAnalytics_average (conversationHistory : Map Conversation) :
  Rabs (INR (totalConversations (getAnalytics conversationHistory))
        * avgMessagesPerConversation (getAnalytics conversationHistory)
        - INR (list_sum (map (fun conv => List.length (messages conv))
                           (Map_values conversationHistory))))
  <= tolerance
     * INR (list_sum (map (fun conv => List.length (messages conv))
                        (Map_values conversationHistory)))
  /\ (conversationHistory = [] ->
      avgMessagesPerConversation (getAnalytics conversationHistory) = 0)
  /\ activeConversations (getAnalytics conversationHistory)
     = List.length conversationHistory.
Proof.
  assert (Hexact :
            INR (totalConversations (getAnalytics conversationHistory))
            * avgMessagesPerConversation (getAnalytics conversationHistory)
            = INR (list_sum (map (fun conv => List.length (messages conv))
                               (Map_values conversationHistory)))
            /\ (conversationHistory = [] ->
                avgMessagesPerConversation (getAnalytics conversationHistory)
                = 0)
            /\ activeConversations (getAnalytics conversationHistory)
               = List.length conversationHistory).
  2:{ destruct Hexact as (Hexact & Hempty & Hactive).
      split; [|split; assumption].
      rewrite Hexact, Rminus_diag, Rabs_R0.
      apply Rmult_le_pos; [unfold tolerance; lra|apply pos_INR]. }
  unfold getAnalytics. cbn [totalConversations avgMessagesPerConversation
                            activeConversations].
  unfold reduce. rewrite messages_total, Rplus_0_l.
  set (total := list_sum _). split; [|split; [|reflexivity]].
  - destruct conversationHistory as [|entry rest].
    + subst total. simpl. destruct (Req_dec_T 0 0) as [_|Hn];
        [simpl; lra|contradiction].
    + assert (Hn : INR (List.length (entry :: rest)) <> 0).
      { apply not_0_INR. discriminate. }
      cbn [div]. destruct (Req_dec_T (INR (List.length (entry :: rest))) 0);
        [contradiction|].
      cbn [num_or].
      destruct (Req_dec_T (INR total / INR (List.length (entry :: rest))) 0)
        as [Hz|_].
      * assert (INR total = 0).
        { apply (Rmult_eq_reg_r (/ INR (List.length (entry :: rest)))).
          - unfold Rdiv in Hz. rewrite Hz. ring.
          - apply Rinv_neq_0_compat. exact Hn. }
        lra.
      * field. exact Hn.
  - intros ->. simpl. destruct (Req_dec_T 0 0) as [_|Hn];
      [reflexivity|contradiction].
Qed.

Lemma getAnalytics_average_witness :
  avgMessagesPerConversation (getAnalytics []) = 0.
Proof.
  destruct (getAnalytics_average []) as (_ & Hempty & _).
  apply Hempty. reflexivity.
Defined.

Lemma sliceLast_length {A : Type} (n : nat) (l : list A) :
  List.length (sliceLast n l) = Nat.min (List.length l) n.
Proof. unfold sliceLast. rewrite length_skipn. lia. Qed.

Lemma sliceLast_all {A : Type} (n : nat) (l : list A) :
  (List.length l <= n)%nat -> sliceLast n l = l.
Proof.
  intros Hle. unfold sliceLast.
  replace (List.length l - n)%nat with 0%nat by lia. reflexivity.
Qed.

Section ProcessMessageProperties.

Context {UserContext : Type}.
Variable analyze : string -> Result Sentiment.
Variable classifyIntent : string -> Result string.
Variable getUserContext : string -> UserContext.
Variable generateResponse :
  string -> string -> UserContext -> Conversation -> Result Response.
Variable sessionOf : string -> R -> string.

(** X27. A message that is processed without error is recorded with its
    answer: afterwards the conversation of the session ends with the
    user's message and the assistant's message, whose content is the text
    returned, and holds the last 100 of its messages, never more; the
    value returned carries the classified intent and the session, and no
    other conversation is touched.  The session is given, and the
    handlers do not throw. *)
Theorem processMessage_recorded (clock : nat -> R)
  (conversationHistory : Map Conversation) (message userId session : string)
  (sentimentResult : Sentiment) (intent : string) :
  session <> "" ->
  analyze message = Ok sentimentResult ->
  classifyIntent message = Ok intent ->
  (forall conversation,
     exists response,
       generateResponse intent message (getUserContext userId) conversation
       = Ok response) ->
  let result :=
    processMessage analyze classifyIntent getUserContext generateResponse
      sessionOf clock conversationHistory message userId (Some session) in
  exists conversation t1 t2,
    getConversationHistory (fst result) session = Some conversation
    /\ messages conversation
       = sliceLast 100
           (match getConversationHistory conversationHistory session with
            | Some c => messages c
            | None => []
            end
            ++ [ {| msg_role := "user"; msg_content := message;
                    msg_timestamp := t1 |};
                 {| msg_role := "assistant";
                    msg_content := reply_text (snd result);
                    msg_timestamp := t2 |} ])
    /\ (List.length (messages conversation) <= 100)%nat
    /\ reply_intent (snd result) = intent
    /\ reply_sessionId (snd result) = session
    /\ forall other, other <> session ->
         getConversationHistory (fst result) other
         = getConversationHistory conversationHistory other.
Proof.
  intros Hsession Hanalyze Hclassify Hgenerate result. subst result.
  unfold processMessage, sessionOr, getConversationHistory.
  apply String.eqb_neq in Hsession. rewrite Hsession.
  unfold Map_has.
  destruct (Map_get conversationHistory session) as [c|] eqn:E; cbn [negb].
  - rewrite E, Hanalyze, Hclassify.
    destruct (Hgenerate
                (pushMessage c {| msg_role := "user"; msg_content := message;
                                  msg_timestamp := clock 0%nat |}))
      as (response & ->).
    set (full := pushMessage (pushMessage c _) _).
    assert (Hmessages :
              messages full
              = messages c
                ++ [ {| msg_role := "user"; msg_content := message;
                        msg_timestamp := clock 0%nat |};
                     {| msg_role := "assistant"; msg_content := text response;
                        msg_timestamp := clock 1%nat |} ]).
    { subst full. cbn [pushMessage messages]. rewrite <- app_assoc.
      reflexivity. }
    cbn [fst snd reply_text reply_intent reply_sessionId].
    rewrite Map_get_set, String.eqb_refl.
    eexists _, (clock 0%nat), (clock 1%nat). split; [reflexivity|].
    split; [|split; [|split; [reflexivity|split; [reflexivity|]]]].
    + destruct (Nat.ltb_spec 100 (List.length (messages full))) as [Hlt|Hge].
      * cbn [messages]. rewrite Hmessages. reflexivity.
      * rewrite Hmessages in *. rewrite sliceLast_all by exact Hge.
        reflexivity.
    + destruct (Nat.ltb_spec 100 (List.length (messages full))) as [Hlt|Hge].
      * cbn [messages]. rewrite sliceLast_length. lia.
      * exact Hge.
    + intros other Hother. rewrite !Map_get_set.
      destruct (String.eqb_spec session other); [congruence|reflexivity].
  - rewrite Map_get_set, String.eqb_refl, Hanalyze, Hclassify.
    destruct (Hgenerate
                (pushMessage
                   {| messages := []; context := []; conv_userId := userId;
                      startTime := clock 0%nat |}
                   {| msg_role := "user"; msg_content := message;
                      msg_timestamp := clock 1%nat |}))
      as (response & ->).
    cbn [fst snd reply_text reply_intent reply_sessionId].
    rewrite Map_get_set, String.eqb_refl.
    eexists _, (clock 1%nat), (clock 2%nat). split; [reflexivity|].
    cbn. split; [reflexivity|]. split; [lia|].
    split; [reflexivity|]. split; [reflexivity|].
    intros other Hother. rewrite !Map_get_set.
    destruct (String.eqb_spec session other); [congruence|reflexivity].
Qed.

(** X28. When the sentiment analysis, the classifier or the handler
    throws, the call still returns: the value has intent "error" and the
    session, the user's message stays recorded as the last message of the
    conversation, without an answer, and the conversation is not cut to
    100 messages on this path.  The session is given. *)
Theorem processMessage_failure (clock : nat -> R)
  (conversationHistory : Map Conversation) (message userId session : string) :
  session <> "" ->
  (exists e, analyze message = Throw e)
  \/ (exists s e, analyze message = Ok s /\ classifyIntent message = Throw e)
  \/ (exists s intent,
        analyze message = Ok s /\ classifyIntent message = Ok intent
        /\ forall conversation,
             exists e,
               generateResponse intent message (getUserContext userId)
                 conversation = Throw e) ->
  let result :=
    processMessage analyze classifyIntent getUserContext generateResponse
      sessionOf clock conversationHistory message userId (Some session) in
  exists conversation t1,
    getConversationHistory (fst result) session = Some conversation
    /\ messages conversation
       = match getConversationHistory conversationHistory session with
         | Some c => messages c
         | None => []
         end
         ++ [ {| msg_role := "user"; msg_content := message;
                 msg_timestamp := t1 |} ]
    /\ reply_intent (snd result) = "error"
    /\ reply_sessionId (snd result) = session
    /\ reply_suggestions (snd result) = ["Contact Support"; "Try Again"]
    /\ forall other, other <> session ->
         getConversationHistory (fst result) other
         = getConversationHistory conversationHistory other.
Proof.
  intros Hsession Hfail result. subst result.
  unfold processMessage, errorReply, sessionOr, getConversationHistory.
  apply String.eqb_neq in Hsession. rewrite Hsession.
  unfold Map_has.
  assert (Hopen : exists history conversation t1,
            (let (conversationHistory0, tick) :=
               if negb match Map_get conversationHistory session with
                       | Some _ => true
                       | None => false
                       end
               then (Map_set conversationHistory session
                       {| messages := []; context := [];
                          conv_userId := userId; startTime := clock 0%nat |},
                     1%nat)
               else (conversationHistory, 0%nat) in
             (Map_get conversationHistory0 session, conversationHistory0,
              clock tick))
            = (Some conversation, history, t1)
            /\ messages conversation
               = match Map_get conversationHistory session with
                 | Some c => messages c
                 | None => []
                 end
            /\ forall other, other <> session ->
                 Map_get history other = Map_get conversationHistory other).
  { destruct (Map_get conversationHistory session) as [c|] eqn:E; cbn [negb].
    - exists conversationHistory, c, (clock 0%nat). rewrite E. auto.
    - eexists _, _, (clock 1%nat). rewrite Map_get_set, String.eqb_refl.
      split; [reflexivity|]. split; [reflexivity|].
      intros other Hother. rewrite Map_get_set.
      destruct (String.eqb_spec session other); [congruence|reflexivity]. }
  destruct Hopen as (history & conversation & t1 & Hopen & Hold & Hothers).
  destruct (if negb _ then _ else _) as [conversationHistory0 tick].
  injection Hopen as Hget -> <-. rewrite Hget.
  exists (pushMessage conversation
            {| msg_role := "user"; msg_content := message;
               msg_timestamp := clock tick |}), (clock tick).
  assert (Hstored :
            forall reply,
              Map_get
                (fst (Map_set history session
                        (pushMessage conversation
                           {| msg_role := "user"; msg_content := message;
                              msg_timestamp := clock tick |}),
                      reply : Reply)) session
              = Some (pushMessage conversation
                        {| msg_role := "user"; msg_content := message;
                           msg_timestamp := clock tick |})
              /\ forall other, other <> session ->
                   Map_get
                     (fst (Map_set history session
                             (pushMessage conversation
                                {| msg_role := "user"; msg_content := message;
                                   msg_timestamp := clock tick |}),
                           reply)) other
                   = Map_get conversationHistory other).
  { intros reply. cbn [fst]. rewrite Map_get_set, String.eqb_refl.
    split; [reflexivity|]. intros other Hother. rewrite Map_get_set.
    destruct (String.eqb_spec session other); [congruence|].
    apply Hothers. exact Hother. }
  assert (Hmessages :
            messages
              (pushMessage conversation
                 {| msg_role := "user"; msg_content := message;
                    msg_timestamp := clock tick |})
            = match Map_get conversationHistory session with
              | Some c => messages c
              | None => []
              end
              ++ [ {| msg_role := "user"; msg_content := message;
                      msg_timestamp := clock tick |} ]).
  { cbn [pushMessage messages]. rewrite Hold. reflexivity. }
  destruct Hfail as [(e & ->)|[(s & e & -> & ->)|(s & intent & -> & -> & Hgen)]].
  - destruct (Hstored
                {| reply_text :=
                     "I'm sorry, I encountered an error. Please try again or contact our support team.";
                   reply_intent := "error";
                   reply_sentiment :=
                     {| sentiment_score := 0; comparative := 0;
                        tokens := [] |};
                   reply_suggestions := ["Contact Support"; "Try Again"];
                   reply_actions := [];
                   reply_sessionId := session |}) as (H1 & H2).
    cbn [fst snd reply_intent reply_sessionId reply_suggestions] in *.
    auto 10.
  - destruct (Hstored
                {| reply_text :=
                     "I'm sorry, I encountered an error. Please try again or contact our support team.";
                   reply_intent := "error";
                   reply_sentiment :=
                     {| sentiment_score := 0; comparative := 0;
                        tokens := [] |};
                   reply_suggestions := ["Contact Support"; "Try Again"];
                   reply_actions := [];
                   reply_sessionId := session |}) as (H1 & H2).
    cbn [fst snd reply_intent reply_sessionId reply_suggestions] in *.
    auto 10.
  - destruct (Hgen (pushMessage conversation
                      {| msg_role := "user"; msg_content := message;
                         msg_timestamp := clock tick |})) as (e & ->).
    destruct (Hstored
                {| reply_text :=
                     "I'm sorry, I encountered an error. Please try again or contact our support team.";
                   reply_intent := "error";
                   reply_sentiment :=
                     {| sentiment_score := 0; comparative := 0;
                        tokens := [] |};
                   reply_suggestions := ["Contact Support"; "Try Again"];
                   reply_actions := [];
                   reply_sessionId := session |}) as (H1 & H2).
    cbn [fst snd reply_intent reply_sessionId reply_suggestions] in *.
    auto 10.
Qed.

End ProcessMessageProperties.

Lemma processMessage_recorded_witness :
  let result :=
    processMessage
      (fun _ => Ok {| sentiment_score := 0; comparative := 0; tokens := [] |})
      (fun _ => Ok "greeting") (fun _ => tt)
      (fun _ _ _ _ =>
         Ok {| text := "Hi there!"; suggestions := None; actions := None |})
      (fun userId _ => userId) (fun _ => 1000) sampleConversations "hi" "U"
      (Some "old") in
  exists conversation,
    getConversationHistory (fst result) "old" = Some conversation
    /\ List.length (messages conversation) = 3%nat
    /\ reply_intent (snd result) = "greeting".
Proof.
  destruct (processMessage_recorded
              (fun _ => Ok {| sentiment_score := 0; comparative := 0;
                              tokens := [] |})
              (fun _ => Ok "greeting") (fun _ => tt)
              (fun _ _ _ _ =>
                 Ok {| text := "Hi there!"; suggestions := None;
                       actions := None |})
              (fun userId _ => userId) (fun _ => 1000) sampleConversations
              "hi" "U" "old"
              {| sentiment_score := 0; comparative := 0; tokens := [] |}
              "greeting")
    as (conversation & t1 & t2 & Hget & Hmessages & _ & Hintent & _).
  - discriminate.
  - reflexivity.
  - reflexivity.
  - intros conversation. eexists. reflexivity.
  - exists conversation. split; [exact Hget|]. split; [|exact Hintent].
    rewrite Hmessages. reflexivity.
Defined.

Lemma processMessage_failure_witness :
  let result :=
    processMessage
      (fun _ => Ok {| sentiment_score := 0; comparative := 0; tokens := [] |})
      (fun _ => Throw (Error "Not Trained")) (fun _ => tt)
      (fun _ _ _ _ =>
         Ok {| text := "Hi there!"; suggestions := None; actions := None |})
      (fun userId _ => userId) (fun _ => 1000) sampleConversations "hi" "U"
      (Some "old") in
  exists conversation,
    getConversationHistory (fst result) "old" = Some conversation
    /\ List.length (messages conversation) = 2%nat
    /\ reply_intent (snd result) = "error".
Proof.
  destruct (processMessage_failure
              (fun _ => Ok {| sentiment_score := 0; comparative := 0;
                              tokens := [] |})
              (fun _ => Throw (Error "Not Trained")) (fun _ => tt)
              (fun _ _ _ _ =>
                 Ok {| text := "Hi there!"; suggestions := None;
                       actions := None |})
              (fun userId _ => userId) (fun _ => 1000) sampleConversations
              "hi" "U" "old")
    as (conversation & t1 & Hget & Hmessages & Hintent & _).
  - discriminate.
  - right. left. do 2 eexists. split; reflexivity.
  - exists conversation. split; [exact Hget|]. split; [|exact Hintent].
    rewrite Hmessages. reflexivity.
Defined.
